(** * mesonbuild/cargo/validate.py: runtime validation of decoded values
      against Python type annotations.

    The module compiles a type annotation into a predicate on dynamic
    values and memoises the predicate in the process-wide dictionary
    [VALIDATORS].  This development embeds

    - the part of the Python object model the module inspects: classes
      with [issubclass], dynamic values with [isinstance], iteration,
      [len], truthiness and [==] against literal constants;
    - the type objects of [typing] the module classifies;
    - [typeddict_validator], [validator] (with its cache) and
      [dataclass_field_validators];

    and proves the properties the specification states about them.
    The objects of [typing] and [dataclasses] behave as in Python 3.11,
    the first version with [typing.Required], which the module needs. *)

From Stdlib Require Import List String Ascii ZArith Bool Lia.
From Stdlib Require Import Strings.Byte.
From Stdlib Require Import Floats.SpecFloat.
Import ListNotations.

Local Open Scope string_scope.
Local Open Scope list_scope.
Local Open Scope Z_scope.

Set Implicit Arguments.
Set Warnings "-register-all".

(* ================================================================== *)
(** ** Exceptions *)

(** The exceptions the modelled fragment of Python can raise. *)
Inductive exn : Type :=
| TypeError
| ValueError
| AttributeError.

(** Outcome of evaluating a Python expression. *)
Inductive result (A : Type) : Type :=
| Ok (a : A)
| Raise (e : exn).

Arguments Ok {A} a.
Arguments Raise {A} e.

Definition rbind {A B : Type} (r : result A) (k : A -> result B) : result B :=
  match r with
  | Ok a => k a
  | Raise e => Raise e
  end.

(** [a and b]: [b] is evaluated only when [a] is true. *)
Definition py_and (a b : result bool) : result bool :=
  match a with
  | Ok true => b
  | Ok false => Ok false
  | Raise e => Raise e
  end.

(** [a or b]: [b] is evaluated only when [a] is false. *)
Definition py_or (a b : result bool) : result bool :=
  match a with
  | Ok true => Ok true
  | Ok false => b
  | Raise e => Raise e
  end.

Section Generators.
Variable A : Type.
Variable p : A -> result bool.

(** [all(p(x) for x in xs)]: stops at the first false or raising item. *)
Fixpoint py_all (xs : list A) : result bool :=
  match xs with
  | [] => Ok true
  | x :: xs' => py_and (p x) (py_all xs')
  end.

(** [any(p(x) for x in xs)]: stops at the first true or raising item. *)
Fixpoint py_any (xs : list A) : result bool :=
  match xs with
  | [] => Ok false
  | x :: xs' => py_or (p x) (py_any xs')
  end.
End Generators.

(* ================================================================== *)
(** ** Classes *)

(** The built-in classes and the abstract base classes of
    [collections.abc] that the validator meets. *)
Inductive builtin : Type :=
| Bobject | Btype | BNoneType
| Bint | Bbool | Bfloat | Bcomplex
| Bstr | Bbytes
| Blist | Btuple | Bset | Bfrozenset | Bdict
| BCollection | BSequence | BMapping | BAbstractSet.

Definition builtin_eqb (a b : builtin) : bool :=
  match a, b with
  | Bobject, Bobject | Btype, Btype | BNoneType, BNoneType
  | Bint, Bint | Bbool, Bbool | Bfloat, Bfloat | Bcomplex, Bcomplex
  | Bstr, Bstr | Bbytes, Bbytes
  | Blist, Blist | Btuple, Btuple | Bset, Bset | Bfrozenset, Bfrozenset
  | Bdict, Bdict
  | BCollection, BCollection | BSequence, BSequence
  | BMapping, BMapping | BAbstractSet, BAbstractSet => true
  | _, _ => false
  end.

(** Proper superclasses of a built-in class other than [object],
    registrations with the abstract base classes included. *)
Definition builtin_bases (a : builtin) : list builtin :=
  match a with
  | Bbool => [Bint]
  | Bstr | Bbytes | Blist | Btuple => [BSequence; BCollection]
  | Bset | Bfrozenset => [BAbstractSet; BCollection]
  | Bdict => [BMapping; BCollection]
  | BSequence | BMapping | BAbstractSet => [BCollection]
  | _ => []
  end.

Definition builtin_issubclass (a b : builtin) : bool :=
  builtin_eqb a b || builtin_eqb b Bobject || existsb (builtin_eqb b) (builtin_bases a).

(** A class defined by the program: its name, the names of the user
    classes it derives from (transitively) and whether it carries
    [__dataclass_fields__]. *)
Record userclass : Type := {
  uc_name : string;
  uc_bases : list string;
  uc_dataclass : bool
}.

Inductive pyclass : Type :=
| Builtin (b : builtin)
| User (u : userclass).

Coercion Builtin : builtin >-> pyclass.

(** [issubclass(a, b)] for two classes. *)
Definition issubclass (a b : pyclass) : bool :=
  match a, b with
  | Builtin x, Builtin y => builtin_issubclass x y
  | User _, Builtin y => builtin_eqb y Bobject
  | User u, User w =>
      String.eqb (uc_name u) (uc_name w)
      || existsb (String.eqb (uc_name w)) (uc_bases u)
  | Builtin _, User _ => false
  end.

Definition userclass_eqb (u w : userclass) : bool :=
  String.eqb (uc_name u) (uc_name w)
  && (if list_eq_dec string_dec (uc_bases u) (uc_bases w) then true else false)
  && Bool.eqb (uc_dataclass u) (uc_dataclass w).

Definition pyclass_eqb (a b : pyclass) : bool :=
  match a, b with
  | Builtin x, Builtin y => builtin_eqb x y
  | User u, User w => userclass_eqb u w
  | _, _ => false
  end.

(** [dataclasses.is_dataclass] on a class object. *)
Definition class_is_dataclass (c : pyclass) : bool :=
  match c with
  | Builtin _ => false
  | User u => uc_dataclass u
  end.

(* ================================================================== *)
(** ** Dynamic values *)

Inductive value : Type :=
| VNone
| VBool (b : bool)
| VInt (z : Z)
| VFloat (f : spec_float)
| VComplex (re im : spec_float)
| VStr (s : string)
| VBytes (bs : list byte)
| VList (items : list value)
| VTuple (items : list value)
| VSet (items : list value)
| VFrozenSet (items : list value)
| VDict (entries : list (value * value))
| VType (cls : pyclass)
| VObject (cls : userclass) (attrs : list (string * value)).

(** [type(value)]. *)
Definition type_of (v : value) : pyclass :=
  match v with
  | VNone => BNoneType
  | VBool _ => Bbool
  | VInt _ => Bint
  | VFloat _ => Bfloat
  | VComplex _ _ => Bcomplex
  | VStr _ => Bstr
  | VBytes _ => Bbytes
  | VList _ => Blist
  | VTuple _ => Btuple
  | VSet _ => Bset
  | VFrozenSet _ => Bfrozenset
  | VDict _ => Bdict
  | VType _ => Btype
  | VObject u _ => User u
  end.

(** [isinstance(value, cls)] for a class [cls]. *)
Definition isinstance (v : value) (c : pyclass) : bool :=
  issubclass (type_of v) c.

(** [isinstance(value, (c1, ..., cn))]. *)
Definition isinstance_any (v : value) (cs : list pyclass) : bool :=
  existsb (isinstance v) cs.

Definition float_is_zero (f : spec_float) : bool :=
  match f with
  | S754_zero _ => true
  | _ => false
  end.

(** Truth value of an object, as [not value] and [bool(value)] see it. *)
Definition py_truth (v : value) : bool :=
  match v with
  | VNone => false
  | VBool b => b
  | VInt z => negb (z =? 0)
  | VFloat f => negb (float_is_zero f)
  | VComplex re im => negb (float_is_zero re && float_is_zero im)
  | VStr s => negb (String.eqb s "")
  | VBytes bs => negb (Nat.eqb (List.length bs) 0)
  | VList l | VTuple l | VSet l | VFrozenSet l => negb (Nat.eqb (List.length l) 0)
  | VDict l => negb (Nat.eqb (List.length l) 0)
  | VType _ => true
  | VObject _ _ => true
  end.

(** [iter(value)]: the items a [for] loop over the value sees. *)
Definition py_iter (v : value) : result (list value) :=
  match v with
  | VList l | VTuple l | VSet l | VFrozenSet l => Ok l
  | VStr s => Ok (map (fun c => VStr (String c EmptyString)) (list_ascii_of_string s))
  | VBytes bs => Ok (map (fun b => VInt (Z.of_N (Byte.to_N b))) bs)
  | VDict l => Ok (map fst l)
  | _ => Raise TypeError
  end.

(** [len(value)]. *)
Definition py_len (v : value) : result nat :=
  match v with
  | VList l | VTuple l | VSet l | VFrozenSet l => Ok (List.length l)
  | VStr s => Ok (String.length s)
  | VBytes bs => Ok (List.length bs)
  | VDict l => Ok (List.length l)
  | _ => Raise TypeError
  end.

(** [value.items()]: only mappings have the method. *)
Definition py_items (v : value) : result (list (value * value)) :=
  match v with
  | VDict l => Ok l
  | _ => Raise AttributeError
  end.

(** The constants that may parametrise [typing.Literal]. *)
Inductive lit : Type :=
| LNone
| LBool (b : bool)
| LInt (z : Z)
| LStr (s : string)
| LBytes (bs : list byte).

(** A float compares equal to an integer when it denotes that integer
    exactly. *)
Definition float_eq_Z (f : spec_float) (z : Z) : bool :=
  match f with
  | S754_zero _ => z =? 0
  | S754_infinity _ => false
  | S754_nan => false
  | S754_finite s m e =>
      let mz := if s then Z.neg m else Z.pos m in
      if 0 <=? e then z =? mz * 2 ^ e else z * 2 ^ (- e) =? mz
  end.

(** [value == z] for an integer (or boolean) constant [z]: numbers are
    compared by value across [bool], [int], [float] and [complex]. *)
Definition num_eq (v : value) (z : Z) : bool :=
  match v with
  | VBool b => Z.b2z b =? z
  | VInt x => x =? z
  | VFloat f => float_eq_Z f z
  | VComplex re im => float_is_zero im && float_eq_Z re z
  | _ => false
  end.

(** [value == l], Python's equality against a literal constant. *)
Definition py_eq_lit (v : value) (l : lit) : bool :=
  match l with
  | LNone => match v with VNone => true | _ => false end
  | LBool b => num_eq v (Z.b2z b)
  | LInt z => num_eq v z
  | LStr s => match v with VStr s' => String.eqb s' s | _ => false end
  | LBytes bs =>
      match v with
      | VBytes bs' => if list_eq_dec Byte.byte_eq_dec bs' bs then true else false
      | _ => false
      end
  end.

(** [value in generic] for a tuple of literal constants. *)
Definition py_in_lits (v : value) (generic : list lit) : bool :=
  existsb (py_eq_lit v) generic.

(** [k in value] for a string [k]; evaluated on mappings only, where it
    is key membership. *)
Definition py_has_key (v : value) (k : string) : result bool :=
  match v with
  | VDict l => Ok (existsb (fun kv => py_eq_lit (fst kv) (LStr k)) l)
  | _ => Raise TypeError
  end.

(* ================================================================== *)
(** ** Type objects *)

(** An annotation of a [TypedDict] field as [get_type_hints] returns it
    with [include_extras=True]: bare, or wrapped in [Required] or
    [NotRequired]. *)
Inductive annotated (A : Type) : Type :=
| Bare (a : A)
| Required (a : A)
| NotRequired (a : A).

Arguments Bare {A} a.
Arguments Required {A} a.
Arguments NotRequired {A} a.

(** [is_required]: the annotation's [__origin__] is [typing.Required]. *)
Definition is_required {A : Type} (h : annotated A) : bool :=
  match h with
  | Required _ => true
  | _ => false
  end.

(** What [get_type_hints] without extras leaves of an annotation. *)
Definition strip_extras {A : Type} (h : annotated A) : A :=
  match h with
  | Bare a | Required a | NotRequired a => a
  end.

(** The objects that [validator] receives as [type_], and those found in
    their [__args__]:
    - [TAny] is [typing.Any];
    - [TEllipsis] and [TUnit] are [...] and [()], which occur in the
      arguments of [Tuple[X, ...]] and [Tuple[()]];
    - [TOpaque] is an object with none of the attributes the module
      looks for and which [isinstance] and [issubclass] refuse as second
      argument, known by its name: the member descriptor [InitVar.type],
      or a [TypedDict] class that does not list [TypedDict] among its
      own bases (one derived from another [TypedDict], or built with the
      call syntax) and so has no [__orig_bases__];
    - [TClass c] is a class object (built-in, plain or dataclass);
    - [TUnion] is [Union[...]] or [Optional[X]], and [X | Y] between
      classes, which is equal to [Union[X, Y]] and is treated alike;
    - [TTypedDict] is a class whose [__orig_bases__] holds [TypedDict],
      with its [__total__] flag and its annotations;
    - [TNewType] carries [__supertype__];
    - [TLiteral] is [Literal[...]];
    - [TInitVar] is [InitVar[X]], or the bare [InitVar] class;
    - [TGeneric origin args] is an alias with [__origin__] a class; its
      [args] is [None] when the alias is bare ([typing.List]) and has no
      [__args__] to read. *)
Inductive pytype : Type :=
| TAny
| TEllipsis
| TUnit
| TOpaque (name : string)
| TClass (cls : pyclass)
| TUnion (args : list pytype)
| TTypedDict (name : string) (total : bool)
             (hints : list (string * annotated pytype))
| TNewType (name : string) (supertype : pytype)
| TLiteral (values : list lit)
| TInitVar (type : option pytype)
| TGeneric (origin : pyclass) (args : option (list pytype)).

(** *** The classification helpers of the module *)

Definition is_union (type_ : pytype) : bool :=
  match type_ with
  | TUnion _ => true
  | _ => false
  end.

Definition is_typed_dict (type_ : pytype) : bool :=
  match type_ with
  | TTypedDict _ _ _ => true
  | _ => false
  end.

Definition is_literal (type_ : pytype) : bool :=
  match type_ with
  | TLiteral _ => true
  | _ => false
  end.

Definition is_new_type (type_ : pytype) : bool :=
  match type_ with
  | TNewType _ _ => true
  | _ => false
  end.

Definition is_init_var (type_ : pytype) : bool :=
  match type_ with
  | TInitVar _ => true
  | _ => false
  end.

(** [InitVar] declares [__slots__ = ('type',)]: the attribute [type] of
    the class itself is the member descriptor of that slot. *)
Definition member_descriptor : pytype := TOpaque "InitVar.type".

(** [extract_init_var]: [type_.type], or [Any] on [AttributeError].
    [InitVar[X].type] is [X]; on the bare [InitVar] the attribute is
    found too, and is the member descriptor. *)
Definition extract_init_var (type_ : pytype) : pytype :=
  match type_ with
  | TInitVar (Some t) => t
  | TInitVar None => member_descriptor
  | _ => TAny
  end.

(** [extract_origin_collection] where it does not raise. *)
Definition extract_origin_collection (type_ : pytype) : option pyclass :=
  match type_ with
  | TGeneric origin _ => Some origin
  | _ => None
  end.

(** [is_generic_collection]: an [__origin__] that is a subclass of
    [Collection]; a [TypeError] of [issubclass] counts as false. *)
Definition is_generic_collection (type_ : pytype) : bool :=
  match extract_origin_collection type_ with
  | Some origin => issubclass origin BCollection
  | None => false
  end.

(** [extract_generic]: [defaults] without [__args__], [((),)] for an
    empty [__args__], [__args__] otherwise. *)
Definition extract_generic (type_ : pytype) (defaults : list pytype) : list pytype :=
  match type_ with
  | TUnion args | TGeneric _ (Some args) =>
      match args with
      | [] => [TUnit]
      | _ => args
      end
  | _ => defaults
  end.

(** [is_subclass(type_, base)] and [is_tuple]. *)
Definition is_subclass (sub_type : pytype) (base_type : pyclass) : bool :=
  match sub_type with
  | TClass c => issubclass c base_type
  | TGeneric origin _ =>
      if issubclass origin BCollection then issubclass origin base_type else false
  | _ => false
  end.

Definition is_tuple (type_ : pytype) : bool := is_subclass type_ Btuple.

(** [is_type]: [__origin__] is [type]. *)
Definition is_type (type_ : pytype) : bool :=
  match type_ with
  | TGeneric origin _ => pyclass_eqb origin Btype
  | _ => false
  end.

(** [dataclasses.is_dataclass(type_)]. *)
Definition is_dataclass (type_ : pytype) : bool :=
  match type_ with
  | TClass c => class_is_dataclass c
  | _ => false
  end.

Definition is_any (type_ : pytype) : bool :=
  match type_ with
  | TAny => true
  | _ => false
  end.

(** The tests of [get_validator], in the order of the source. *)
Inductive branch : Type :=
| BrAny | BrUnion | BrTypedDict | BrNewType | BrLiteral | BrInitVar
| BrCollection | BrType | BrDataclass | BrScalar.

Definition get_validator_branch (type_ : pytype) : branch :=
  if is_any type_ then BrAny
  else if is_union type_ then BrUnion
  else if is_typed_dict type_ then BrTypedDict
  else if is_new_type type_ then BrNewType
  else if is_literal type_ then BrLiteral
  else if is_init_var type_ then BrInitVar
  else if is_generic_collection type_ then BrCollection
  else if is_type type_ then BrType
  else if is_dataclass type_ then BrDataclass
  else BrScalar.

Definition is_unit (t : pytype) : bool :=
  match t with
  | TUnit => true
  | _ => false
  end.

Definition is_ellipsis (t : pytype) : bool :=
  match t with
  | TEllipsis => true
  | _ => false
  end.

(** *** Equality of type objects *)

Definition lit_eqb (a b : lit) : bool :=
  match a, b with
  | LNone, LNone => true
  | LBool x, LBool y => Bool.eqb x y
  | LInt x, LInt y => x =? y
  | LStr x, LStr y => String.eqb x y
  | LBytes x, LBytes y => if list_eq_dec Byte.byte_eq_dec x y then true else false
  | _, _ => false
  end.

Section ListEqb.
Variable A : Type.
Variable eqb : A -> A -> bool.

Fixpoint list_eqb (xs ys : list A) : bool :=
  match xs, ys with
  | [], [] => true
  | x :: xs', y :: ys' => eqb x y && list_eqb xs' ys'
  | _, _ => false
  end.

Definition option_eqb (x y : option A) : bool :=
  match x, y with
  | None, None => true
  | Some a, Some b => eqb a b
  | _, _ => false
  end.

Definition annotated_eqb (x y : annotated A) : bool :=
  match x, y with
  | Bare a, Bare b | Required a, Required b | NotRequired a, NotRequired b => eqb a b
  | _, _ => false
  end.
End ListEqb.

(** Identity of type objects: the same object, built the same way. *)
Fixpoint pytype_eqb (a b : pytype) {struct a} : bool :=
  match a, b with
  | TAny, TAny => true
  | TEllipsis, TEllipsis => true
  | TUnit, TUnit => true
  | TOpaque n1, TOpaque n2 => String.eqb n1 n2
  | TClass c, TClass d => pyclass_eqb c d
  | TUnion xs, TUnion ys => list_eqb pytype_eqb xs ys
  | TTypedDict n1 t1 h1, TTypedDict n2 t2 h2 =>
      String.eqb n1 n2 && Bool.eqb t1 t2
      && list_eqb (fun x y =>
                     let '(k1, a1) := x in
                     let '(k2, a2) := y in
                     String.eqb k1 k2 && annotated_eqb pytype_eqb a1 a2) h1 h2
  | TNewType n1 s1, TNewType n2 s2 => String.eqb n1 n2 && pytype_eqb s1 s2
  | TLiteral xs, TLiteral ys => list_eqb lit_eqb xs ys
  | TInitVar x, TInitVar y => option_eqb pytype_eqb x y
  | TGeneric o1 x, TGeneric o2 y =>
      pyclass_eqb o1 o2 && option_eqb (list_eqb pytype_eqb) x y
  | _, _ => false
  end.

(** Equality of type objects with [==], which decides whether a type
    object is already a key of [VALIDATORS].  Classes, [TypedDict]s,
    [NewType]s and [InitVar]s are compared by identity; an alias is
    equal to an alias with an equal origin and pairwise equal
    arguments; [Union] and [Literal] compare their arguments as sets,
    whatever their order. *)
Fixpoint key_eqb (a b : pytype) {struct a} : bool :=
  match a, b with
  | TUnion xs, TUnion ys =>
      forallb (fun x => existsb (key_eqb x) ys) xs
      && forallb (fun y => existsb (fun x => key_eqb x y) xs) ys
  | TLiteral xs, TLiteral ys =>
      forallb (fun x => existsb (lit_eqb x) ys) xs
      && forallb (fun y => existsb (fun x => lit_eqb x y) xs) ys
  | TGeneric o1 x, TGeneric o2 y =>
      pyclass_eqb o1 o2 && option_eqb (list_eqb key_eqb) x y
  | _, _ => pytype_eqb a b
  end.

(* ================================================================== *)
(** ** Compiled predicates *)

(** A validator: the [lambda value: ...] that [get_validator] returns. *)
Definition pred : Type := value -> result bool.

(** An item of [value.items()]. *)
Definition entry : Type := (value * value)%type.

(** A dictionary with string keys, in insertion order.  A later entry
    overwrites an earlier one with the same key. *)
Fixpoint dict_get {B : Type} (k : string) (d : list (string * B)) : option B :=
  match d with
  | [] => None
  | (k', b) :: d' =>
      match dict_get k d' with
      | Some b' => Some b'
      | None => if String.eqb k k' then Some b else None
      end
  end.

(** [validators[k]] for a key [k] of the validated mapping: only a
    string is equal to a field name. *)
Definition field_get {B : Type} (k : value) (validators : list (string * B)) : option B :=
  match k with
  | VStr s => dict_get s validators
  | _ => None
  end.

(** [lambda value: True] *)
Definition any_pred : pred := fun _ => Ok true.

(** [lambda value: any(v(value) for v in validators)] *)
Definition union_pred (validators : list pred) : pred :=
  fun value => py_any (fun v : pred => v value) validators.

(** [lambda value: value in generic] *)
Definition literal_pred (generic : list lit) : pred :=
  fun value => Ok (py_in_lits value generic).

(** [lambda value: value in ((),)], which is what [Literal[()]] compiles
    to: [extract_generic] turns its empty [__args__] into [((),)], and
    only an empty tuple is equal to [()]. *)
Definition unit_literal_pred : pred :=
  fun value => Ok (match value with
                   | VTuple [] => true
                   | _ => false
                   end).

(** [lambda value: isinstance(value, cls)] *)
Definition instance_pred (cls : pyclass) : pred :=
  fun value => Ok (isinstance value cls).

(** [lambda value: isinstance(value, (c1, ..., cn))] *)
Definition instance_any_pred (classes : list pyclass) : pred :=
  fun value => Ok (isinstance_any value classes).

(** [lambda value: isinstance(value, type_)] where [type_] is no class,
    no tuple of classes and no bare alias, which would ask its origin:
    the call raises. *)
Definition not_a_class_pred : pred := fun _ => Raise TypeError.

(** The two lambdas of [typeddict_validator]. *)
Definition typeddict_total_pred (required_keys : list string)
           (validators : list (string * pred)) : pred :=
  fun value =>
    py_and (Ok (isinstance value BMapping))
      (py_and (py_all (py_has_key value) required_keys)
         (rbind (py_items value)
            (py_all (fun kv : entry =>
                       let (k, v) := kv in
                       match field_get k validators with
                       | Some validate_k => validate_k v
                       | None => Ok false
                       end)))).

Definition typeddict_open_pred (required_keys : list string)
           (validators : list (string * pred)) : pred :=
  fun value =>
    py_and (Ok (isinstance value BMapping))
      (py_and (py_all (py_has_key value) required_keys)
         (rbind (py_items value)
            (py_all (fun kv : entry =>
                       let (k, v) := kv in
                       match field_get k validators with
                       | Some validate_k => validate_k v
                       | None => Ok true
                       end)))).

(** [lambda value: isinstance(value, origin) and
    all(kv(k) and vv(v) for k, v in value.items())] *)
Definition mapping_pred (origin : pyclass) (kv vv : pred) : pred :=
  fun value =>
    py_and (Ok (isinstance value origin))
      (rbind (py_items value)
         (py_all (fun e : entry => py_and (kv (fst e)) (vv (snd e))))).

(** [lambda value: isinstance(value, origin) and not value] *)
Definition empty_tuple_pred (origin : pyclass) : pred :=
  fun value =>
    py_and (Ok (isinstance value origin)) (Ok (negb (py_truth value))).

(** [lambda value: isinstance(value, origin) and
    all(v(item) for item in value)] *)
Definition items_pred (origin : pyclass) (v : pred) : pred :=
  fun value =>
    py_and (Ok (isinstance value origin))
      (rbind (py_iter value) (py_all v)).

(** A pair of [zip(value, validators)]. *)
Definition entry_validator : Type := (value * pred)%type.

(** [lambda value: isinstance(value, origin)
    and len(value) == len(validators)
    and all(v(item) for item, v in zip(value, validators))] *)
Definition fixed_tuple_pred (origin : pyclass) (validators : list pred) : pred :=
  fun value =>
    py_and (Ok (isinstance value origin))
      (py_and (rbind (py_len value)
                 (fun n => Ok (Nat.eqb n (List.length validators))))
         (rbind (py_iter value)
            (fun items =>
               py_all (fun iv : entry_validator => snd iv (fst iv))
                      (combine items validators)))).

(** [issubclass(cls, bound)] for a class [cls].  The second argument
    may be a class, among them [Any] and the bare [InitVar], from which
    no class of the model derives; the empty tuple of classes; a bare
    alias, which asks its origin; or a [Union], which asks its members
    in turn and stops at the first that answers true or raises.  Every
    other object raises [TypeError]. *)
Fixpoint class_issubclass (cls : pyclass) (bound : pytype) : result bool :=
  match bound with
  | TClass b => Ok (issubclass cls b)
  | TUnit => Ok false
  | TAny => Ok false
  | TInitVar None => Ok false
  | TGeneric origin None => Ok (issubclass cls origin)
  | TUnion args => py_any (class_issubclass cls) args
  | _ => Raise TypeError
  end.

(** [issubclass(value, bound)]: the first argument must be a class. *)
Definition py_issubclass (value : value) (bound : pytype) : result bool :=
  match value with
  | VType c => class_issubclass c bound
  | _ => Raise TypeError
  end.

(** [lambda value: isinstance(value, type) and
    issubclass(value, generic[0])] *)
Definition subtype_pred (bound : pytype) : pred :=
  fun value =>
    py_and (Ok (isinstance value Btype)) (py_issubclass value bound).

(* ================================================================== *)
(** ** The cache and the compiler *)

(** [VALIDATORS]: the most recent entry first. *)
Definition cache : Type := list (pytype * pred).

Fixpoint cache_get (type_ : pytype) (c : cache) : option pred :=
  match c with
  | [] => None
  | (t, p) :: c' => if key_eqb type_ t then Some p else cache_get type_ c'
  end.

(** Computations that read and extend [VALIDATORS] and may raise. *)
Definition M (A : Type) : Type := cache -> result A * cache.

Definition ret {A : Type} (a : A) : M A := fun c => (Ok a, c).

Definition raise {A : Type} (e : exn) : M A := fun c => (Raise e, c).

Definition bind {A B : Type} (m : M A) (k : A -> M B) : M B :=
  fun c =>
    match m c with
    | (Ok a, c') => k a c'
    | (Raise e, c') => (Raise e, c')
    end.

Declare Scope compile_scope.
Delimit Scope compile_scope with compile.
Notation "x <- m ;; k" := (bind m (fun x => k))
  (at level 61, m at next level, right associativity) : compile_scope.
Local Open Scope compile_scope.

Section MapM.
Variables A B : Type.
Variable f : A -> M B.

(** A list comprehension [[f(x) for x in xs]]. *)
Fixpoint mapM (xs : list A) : M (list B) :=
  match xs with
  | [] => ret []
  | x :: xs' => y <- f x ;; ys <- mapM xs' ;; ret (y :: ys)
  end.
End MapM.

(** The body of [validator] around [get_validator]: look [type_] up,
    and on a miss store what [get_validator] builds. *)
Definition memo (type_ : pytype) (get_validator : M pred) : M pred :=
  fun c =>
    match cache_get type_ c with
    | Some p => (Ok p, c)
    | None =>
        match get_validator c with
        | (Ok p, c') => (Ok p, (type_, p) :: c')
        | (Raise e, c') => (Raise e, c')
        end
    end.

(** [validator(())] and [validator(InitVar.type)], which the compiler
    calls on objects it finds itself ([extract_generic] on an empty
    [__args__], [extract_init_var] on the bare [InitVar]); both reach
    the last line of [get_validator]. *)
Definition validator_unit : M pred := memo TUnit (ret (instance_any_pred [])).
Definition validator_member : M pred :=
  memo member_descriptor (ret not_a_class_pred).

(** [{k for k, v in get_type_hints(type_, include_extras=True).items()
    if is_required(v)}] *)
Definition required_keys (hints : list (string * annotated pytype)) : list string :=
  map fst (filter (fun kh => is_required (snd kh)) hints).

(** [get_type_hints(type_)]: the annotations without their extras. *)
Definition get_type_hints (hints : list (string * annotated pytype))
  : list (string * pytype) :=
  map (fun kh => (fst kh, strip_extras (snd kh))) hints.

(** [typeddict_validator], over the recursive [validator]. *)
Definition typeddict_validator (validator : pytype -> M pred) (total : bool)
           (hints : list (string * annotated pytype)) : M pred :=
  let required_keys := required_keys hints in
  validators <- mapM (fun kh : string * annotated pytype =>
                        let (k, hint) := kh in
                        v <- validator (strip_extras hint) ;; ret (k, v)) hints ;;
  ret (if total
       then typeddict_total_pred required_keys validators
       else typeddict_open_pred required_keys validators).

(** The scalar fallback at the end of [get_validator]. *)
Definition scalar_pred (cls : pyclass) : pred :=
  if pyclass_eqb cls Bcomplex then instance_any_pred [Builtin Bint; Builtin Bfloat; Builtin Bcomplex]
  else if pyclass_eqb cls Bfloat then instance_any_pred [Builtin Bint; Builtin Bfloat]
  else instance_pred cls.

Fixpoint validator (type_ : pytype) : M pred :=
  memo type_
    match type_ with
    | TAny =>                                   (* type_ == T.Any *)
        ret any_pred
    | TUnion args =>                            (* is_union(type_) *)
        validators <- match args with
                      | [] => v <- validator_unit ;; ret [v]
                      | _ => mapM validator args
                      end ;;
        ret (union_pred validators)
    | TTypedDict _ total hints =>               (* is_typed_dict(type_) *)
        typeddict_validator validator total hints
    | TNewType _ supertype =>                   (* is_new_type(type_) *)
        validator supertype
    | TLiteral [] =>                            (* is_literal(type_) *)
        ret unit_literal_pred
    | TLiteral generic =>
        ret (literal_pred generic)
    | TInitVar None =>                          (* is_init_var(type_) *)
        validator_member
    | TInitVar (Some t) =>
        validator t
    | TGeneric origin args =>
        if issubclass origin BCollection then   (* is_generic_collection(type_) *)
          match args with
          | None =>                             (* not generic *)
              ret (instance_pred origin)
          | Some [] =>                          (* generic == ((),) *)
              if issubclass origin BMapping then raise ValueError
              else if issubclass origin Btuple then ret (empty_tuple_pred origin)
              else v <- validator_unit ;; ret (items_pred origin v)
          | Some ((g0 :: rest) as generic) =>
              if issubclass origin BMapping then
                match rest with
                | [val_type] =>
                    kv <- validator g0 ;;
                    vv <- validator val_type ;;
                    ret (mapping_pred origin kv vv)
                | _ => raise ValueError         (* key_type, val_type = ... *)
                end
              else if issubclass origin Btuple then   (* is_tuple(type_) *)
                match rest with
                | [] =>
                    if is_unit g0 then ret (empty_tuple_pred origin)
                    else validators <- mapM validator generic ;;
                         ret (fixed_tuple_pred origin validators)
                | [g1] =>
                    if is_ellipsis g1 then
                      v <- validator g0 ;; ret (items_pred origin v)
                    else validators <- mapM validator generic ;;
                         ret (fixed_tuple_pred origin validators)
                | _ => validators <- mapM validator generic ;;
                       ret (fixed_tuple_pred origin validators)
                end
              else v <- validator g0 ;; ret (items_pred origin v)
          end
        else if pyclass_eqb origin Btype then   (* is_type(type_) *)
          match args with
          | None => ret (instance_pred Btype)
          | Some [] => ret (subtype_pred TUnit)
          | Some (g0 :: _) => ret (subtype_pred g0)
          end
        else                                    (* isinstance(value, type_) *)
          match args with
          | None => ret (instance_pred origin)
          | Some _ => ret not_a_class_pred
          end
    | TClass cls =>
        if class_is_dataclass cls then          (* is_dataclass(type_) *)
          ret (instance_pred cls)
        else ret (scalar_pred cls)
    | TUnit => ret (instance_any_pred [])       (* isinstance(value, ()) *)
    | TEllipsis => ret not_a_class_pred         (* isinstance(value, ...) *)
    | TOpaque _ => ret not_a_class_pred         (* isinstance(value, type_) *)
    end.

(** [validator(type_)(value)] run in the cache [c]: the outcome, and the
    cache afterwards. *)
Definition run_validator (type_ : pytype) (c : cache) (value : value) : result bool :=
  rbind (fst (validator type_ c)) (fun p => p value).

(** [validator(type_)(value)] in a fresh process, where [VALIDATORS] is
    still empty. *)
Definition validate (type_ : pytype) (value : value) : result bool :=
  run_validator type_ [] value.

(** [dataclass_field_validators]: the annotations of the dataclass are
    read with [get_type_hints], here [class_hints], which resolves the
    names of classes, so a field may mention the class itself.  [tables] is the memo table
    that [lru_cache] keeps. *)
Definition field_tables : Type := list (userclass * list (string * pred)).

Fixpoint tables_get (type_ : userclass) (tables : field_tables)
  : option (list (string * pred)) :=
  match tables with
  | [] => None
  | (u, d) :: tables' =>
      if userclass_eqb type_ u then Some d else tables_get type_ tables'
  end.

Definition dataclass_field_validators
           (class_hints : userclass -> list (string * pytype))
           (type_ : userclass) (tables : field_tables)
  : M (list (string * pred) * field_tables) :=
  match tables_get type_ tables with
  | Some d => ret (d, tables)
  | None =>
      d <- mapM (fun kh : string * pytype =>
                   let (k, hint) := kh in
                   v <- validator hint ;; ret (k, v)) (class_hints type_) ;;
      ret (d, (type_, d) :: tables)
  end.

(* ================================================================== *)
(** ** The predicate of a type object, without the cache *)

Section MapR.
Variables A B : Type.
Variable f : A -> result B.

Fixpoint mapR (xs : list A) : result (list B) :=
  match xs with
  | [] => Ok []
  | x :: xs' => rbind (f x) (fun y => rbind (mapR xs') (fun ys => Ok (y :: ys)))
  end.
End MapR.

Definition typeddict_denote (denote : pytype -> result pred) (total : bool)
           (hints : list (string * annotated pytype)) : result pred :=
  let required_keys := required_keys hints in
  rbind (mapR (fun kh : string * annotated pytype =>
                 let (k, hint) := kh in
                 rbind (denote (strip_extras hint)) (fun v => Ok (k, v))) hints)
    (fun validators =>
       Ok (if total
           then typeddict_total_pred required_keys validators
           else typeddict_open_pred required_keys validators)).

(** What [get_validator] builds for [type_] when no nested call of
    [validator] is answered from the cache. *)
Fixpoint denote (type_ : pytype) : result pred :=
  match type_ with
  | TAny => Ok any_pred
  | TUnion args =>
      rbind match args with
            | [] => Ok [instance_any_pred []]
            | _ => mapR denote args
            end
        (fun validators => Ok (union_pred validators))
  | TTypedDict _ total hints => typeddict_denote denote total hints
  | TNewType _ supertype => denote supertype
  | TLiteral [] => Ok unit_literal_pred
  | TLiteral generic => Ok (literal_pred generic)
  | TInitVar None => Ok not_a_class_pred
  | TInitVar (Some t) => denote t
  | TGeneric origin args =>
      if issubclass origin BCollection then
        match args with
        | None => Ok (instance_pred origin)
        | Some [] =>
            if issubclass origin BMapping then Raise ValueError
            else if issubclass origin Btuple then Ok (empty_tuple_pred origin)
            else Ok (items_pred origin (instance_any_pred []))
        | Some ((g0 :: rest) as generic) =>
            if issubclass origin BMapping then
              match rest with
              | [val_type] =>
                  rbind (denote g0) (fun kv =>
                  rbind (denote val_type) (fun vv =>
                  Ok (mapping_pred origin kv vv)))
              | _ => Raise ValueError
              end
            else if issubclass origin Btuple then
              match rest with
              | [] =>
                  if is_unit g0 then Ok (empty_tuple_pred origin)
                  else rbind (mapR denote generic)
                         (fun validators => Ok (fixed_tuple_pred origin validators))
              | [g1] =>
                  if is_ellipsis g1 then
                    rbind (denote g0) (fun v => Ok (items_pred origin v))
                  else rbind (mapR denote generic)
                         (fun validators => Ok (fixed_tuple_pred origin validators))
              | _ => rbind (mapR denote generic)
                       (fun validators => Ok (fixed_tuple_pred origin validators))
              end
            else rbind (denote g0) (fun v => Ok (items_pred origin v))
        end
      else if pyclass_eqb origin Btype then
        match args with
        | None => Ok (instance_pred Btype)
        | Some [] => Ok (subtype_pred TUnit)
        | Some (g0 :: _) => Ok (subtype_pred g0)
        end
      else
        match args with
        | None => Ok (instance_pred origin)
        | Some _ => Ok not_a_class_pred
        end
  | TClass cls =>
      if class_is_dataclass cls then Ok (instance_pred cls)
      else Ok (scalar_pred cls)
  | TUnit => Ok (instance_any_pred [])
  | TEllipsis => Ok not_a_class_pred
  | TOpaque _ => Ok not_a_class_pred
  end.

(** Outcome of [validator(type_)(value)] according to [denote]. *)
Definition denote_run (type_ : pytype) (value : value) : result bool :=
  rbind (denote type_) (fun p => p value).

(* ================================================================== *)
(** ** Well-formed type objects *)

(** The bounds [B] on which [issubclass(cls, B)] answers for every
    class: the classes, [Any] and the bare [InitVar] among them, the
    bare aliases, and the unions of such bounds. *)
Fixpoint class_bound (bound : pytype) : bool :=
  match bound with
  | TClass _ | TAny | TInitVar None | TGeneric _ None => true
  | TUnion args => forallb class_bound args
  | _ => false
  end.

(** The type objects on which validation returns a verdict: every alias
    with arguments is over a container class or [type] and has the
    number of arguments its origin takes, the bound of [Type[B]] is a
    class or a union of classes, [Literal] has at least one constant,
    [InitVar] names its type, and [...] and [()] occur only where
    [Tuple] gives them a meaning. *)
Fixpoint well_formed (type_ : pytype) : bool :=
  match type_ with
  | TAny => true
  | TEllipsis => false
  | TUnit => false
  | TOpaque _ => false
  | TClass _ => true
  | TUnion args => forallb well_formed args
  | TTypedDict _ _ hints =>
      forallb (fun kh : string * annotated pytype =>
                 let (_, hint) := kh in well_formed (strip_extras hint)) hints
  | TNewType _ supertype => well_formed supertype
  | TLiteral [] => false
  | TLiteral _ => true
  | TInitVar None => false
  | TInitVar (Some t) => well_formed t
  | TGeneric origin None => true
  | TGeneric origin (Some args) =>
      if issubclass origin BCollection then
        if issubclass origin BMapping then
          match args with
          | [key_type; val_type] => well_formed key_type && well_formed val_type
          | _ => false
          end
        else if issubclass origin Btuple then
          match args with
          | [] => true
          | [g0] => is_unit g0 || well_formed g0
          | [g0; g1] => well_formed g0 && (is_ellipsis g1 || well_formed g1)
          | _ => forallb well_formed args
          end
        else
          match args with
          | [g0] => well_formed g0
          | _ => false
          end
      else if pyclass_eqb origin Btype then
        match args with
        | [bound] => class_bound bound
        | _ => false
        end
      else false
  end.

(* ================================================================== *)
(** ** Caches that hold what the compiler builds *)

(** Two predicates agree on every value. *)
Definition peq (p q : pred) : Prop := forall v, p v = q v.

(** Two outcomes agree: the same exception, or related results. *)
Definition rrel {A B : Type} (R : A -> B -> Prop) (r : result A) (s : result B) : Prop :=
  match r, s with
  | Ok a, Ok b => R a b
  | Raise e, Raise e' => e = e'
  | _, _ => False
  end.

(** Two compilation outcomes agree: the same exception, or predicates
    that agree on every value. *)
Definition req (r s : result pred) : Prop := rrel peq r s.

(** Two tables of field validators agree. *)
Definition field_eq (a b : string * pred) : Prop :=
  fst a = fst b /\ peq (snd a) (snd b).

(** The keys whose entry can only be the predicate of the key: the
    well-formed type objects, and [()]. *)
Definition settled (type_ : pytype) : bool := well_formed type_ || is_unit type_.

(** Every entry of the cache under a settled key is the predicate of its
    key. *)
Definition consistent (c : cache) : Prop :=
  forall t p, In (t, p) c -> settled t = true -> req (Ok p) (denote t).

(** A well-formed type object shares its key only with well-formed type
    objects that have the same predicate. *)
Definition key_sound (a : pytype) : Prop :=
  forall b, well_formed a = true -> key_eqb a b = true ->
            well_formed b = true /\ req (denote a) (denote b).

(** A predicate that returns a verdict on every value. *)
Definition total (p : pred) : Prop := forall v, exists b, p v = Ok b.

(** A computation over the cache only adds entries to it. *)
Definition mext {A : Type} (m : M A) : Prop :=
  forall c, exists added, snd (m c) = added ++ c.

(** A computation over the cache keeps it consistent. *)
Definition mpres {A : Type} (m : M A) : Prop :=
  forall c, consistent c -> consistent (snd (m c)).

(** A computation over the cache agrees with a cache-free outcome, and
    keeps the cache consistent. *)
Definition msound {A B : Type} (R : A -> B -> Prop) (m : M A) (r : result B) : Prop :=
  forall c, consistent c ->
            rrel R (fst (m c)) r /\ consistent (snd (m c)).

(** The caches a process can be in: [VALIDATORS] starts empty and only
    calls of [validator], on any type object, change it. *)
Inductive reachable : cache -> Prop :=
| reachable_empty : reachable []
| reachable_step : forall c type_,
    reachable c -> reachable (snd (validator type_ c)).

(* ================================================================== *)
(** ** mesonbuild/scripts/clippy.py: the command line of [clippy-driver] *)

Module Clippy.

(** The exceptions of [ClippyDriver.__call__]: a dictionary without the
    key, [getattr] on a name the object does not have, and [list] on an
    object that cannot be iterated. *)
Inductive error : Type :=
| KeyError (key : string)
| AttributeError (name : string)
| TypeError.

Inductive outcome (A : Type) : Type :=
| Return (a : A)
| Raise (e : error).

Arguments Return {A} a.
Arguments Raise {A} e.

(** A block of [target['target_sources']], as read from the
    introspection file: a field is [None] when the dictionary has no
    such key (the block of a linker has no ['language']). *)
Record src_block : Type := {
  language : option string;
  machine : option string;
  parameters : option (list string);
  sources : option (list string)
}.

(** A target of the introspection file. *)
Record target : Type := {
  target_sources : option (list src_block)
}.

(** An attribute of [self.tools] as [__call__] uses it: its truth is
    tested and, when it is true, [list] is applied to it.  [Words l] is
    an object in which [list] finds the strings [l], and which is false
    exactly when it is empty, as a list, a tuple or a string are; [Null]
    is an object that is false and not a sequence, as [None] is;
    [Opaque] is an object that is true and cannot be iterated, as a
    bound method is. *)
Inductive attr : Type :=
| Words (l : list string)
| Null
| Opaque.

(** [PerMachine]: a command line for the build and for the host machine,
    empty when the machine has no [clippy-driver].  The class is
    declared in another module; [others] is the table of what else
    [getattr] finds on its instances, by name (methods, [__doc__] and
    the like). *)
Record per_machine : Type := {
  build : list string;
  host : list string;
  others : list (string * attr)
}.

(** A [ClippyDriver]: its tools, the machines for which [self.warned] is
    true, and the warnings that [mlog.warning] has written. *)
Record driver : Type := {
  tools : per_machine;
  warned : list string;
  log : list string
}.

(** [ClippyDriver.__init__] for the tools it finds. *)
Definition init (found : per_machine) : driver :=
  {| tools := found; warned := []; log := [] |}.

Fixpoint lookup (name : string) (table : list (string * attr)) : option attr :=
  match table with
  | [] => None
  | (n, a) :: table' => if String.eqb name n then Some a else lookup name table'
  end.

(** [getattr(self.tools, name)] *)
Definition getattr_tools (t : per_machine) (name : string) : outcome attr :=
  if String.eqb name "build" then Return (Words (build t))
  else if String.eqb name "host" then Return (Words (host t))
  else match lookup name (others t) with
       | Some a => Return a
       | None => Raise (AttributeError name)
       end.

(** [not clippy] *)
Definition falsy (a : attr) : bool :=
  match a with
  | Words [] | Null => true
  | Words (_ :: _) | Opaque => false
  end.

(** [list(clippy)] *)
Definition py_list (a : attr) : outcome (list string) :=
  match a with
  | Words l => Return l
  | Null | Opaque => Raise TypeError
  end.

Definition warning (machine : string) : string :=
  "clippy-driver not found for " ++ machine ++ " machine".

(** [warn_missing_clippy] *)
Definition warn_missing_clippy (d : driver) (machine : string) : driver :=
  if existsb (String.eqb machine) (warned d) then d
  else {| tools := tools d;
          warned := machine :: warned d;
          log := log d ++ [warning machine] |}.

(** [arg in {'--emit', '--out-dir'}] *)
Definition is_output_flag (arg : string) : bool :=
  String.eqb arg "--emit" || String.eqb arg "--out-dir".

(** The loop over [src_block['parameters']]: [skip] and [cmdlist] are its
    two variables. *)
Fixpoint filter_parameters (skip : bool) (cmdlist : list string)
         (params : list string) : list string :=
  match params with
  | [] => cmdlist
  | arg :: params' =>
      if skip then filter_parameters false cmdlist params'
      else if is_output_flag arg then filter_parameters true cmdlist params'
      else filter_parameters false (cmdlist ++ [arg]) params'
  end.

(** The loop of [ClippyDriver.__call__] over the blocks of a target. *)
Fixpoint call_blocks (d : driver) (blocks : list src_block)
  : outcome (option (list string)) * driver :=
  match blocks with
  | [] => (Return None, d)
  | src_block :: blocks' =>
      match language src_block with
      | None => (Raise (KeyError "language"), d)
      | Some lang =>
          if String.eqb lang "rust" then
            match machine src_block with
            | None => (Raise (KeyError "machine"), d)
            | Some m =>
                match getattr_tools (tools d) m with
                | Raise e => (Raise e, d)
                | Return clippy =>
                    if falsy clippy then (Return None, warn_missing_clippy d m)
                    else
                      match py_list clippy with
                      | Raise e => (Raise e, d)
                      | Return cmdlist =>
                          match parameters src_block with
                          | None => (Raise (KeyError "parameters"), d)
                          | Some params =>
                              let cmdlist := filter_parameters false cmdlist params in
                              match sources src_block with
                              | None => (Raise (KeyError "sources"), d)
                              | Some srcs => (Return (Some (cmdlist ++ srcs)), d)
                              end
                          end
                      end
                end
            end
          else call_blocks d blocks'
      end
  end.

(** [ClippyDriver.__call__] *)
Definition call (d : driver) (t : target)
  : outcome (option (list string)) * driver :=
  match target_sources t with
  | None => (Raise (KeyError "target_sources"), d)
  | Some blocks => call_blocks d blocks
  end.

(** The loop of [run_tool_on_targets] that calls [fn] on every target
    and starts a subprocess for every command line it gets: the command
    lines in the order in which they are started, whether the loop ended
    or an exception left it, and the driver afterwards. *)
Fixpoint schedule (d : driver) (targets : list target)
  : list (list string) * outcome unit * driver :=
  match targets with
  | [] => ([], Return tt, d)
  | t :: targets' =>
      match call d t with
      | (Raise e, d') => ([], Raise e, d')
      | (Return cmdlist, d') =>
          let '(started, status, d'') := schedule d' targets' in
          match cmdlist with
          | Some (arg :: args) => ((arg :: args) :: started, status, d'')
          | _ => (started, status, d'')
          end
      end
  end.

End Clippy.

(* ================================================================== *)
(** * Proofs *)

(** ** Induction on type objects *)

Section PytypeInd.
Variable P : pytype -> Prop.
Hypothesis HAny : P TAny.
Hypothesis HEllipsis : P TEllipsis.
Hypothesis HUnit : P TUnit.
Hypothesis HOpaque : forall name, P (TOpaque name).
Hypothesis HClass : forall c, P (TClass c).
Hypothesis HUnion : forall args, Forall P args -> P (TUnion args).
Hypothesis HTypedDict : forall name total hints,
    Forall (fun kh : string * annotated pytype => P (strip_extras (snd kh))) hints ->
    P (TTypedDict name total hints).
Hypothesis HNewType : forall name s, P s -> P (TNewType name s).
Hypothesis HLiteral : forall values, P (TLiteral values).
Hypothesis HInitVarNone : P (TInitVar None).
Hypothesis HInitVarSome : forall t, P t -> P (TInitVar (Some t)).
Hypothesis HGenericNone : forall origin, P (TGeneric origin None).
Hypothesis HGenericSome : forall origin args,
    Forall P args -> P (TGeneric origin (Some args)).

Fixpoint pytype_induction (t : pytype) : P t :=
  let fix args_ind (l : list pytype) : Forall P l :=
    match l with
    | [] => Forall_nil P
    | x :: l' => Forall_cons x (pytype_induction x) (args_ind l')
    end in
  let fix hints_ind (l : list (string * annotated pytype))
    : Forall (fun kh => P (strip_extras (snd kh))) l :=
    match l with
    | [] => Forall_nil _
    | (k, h) :: l' =>
        Forall_cons (k, h)
          match h return P (strip_extras h) with
          | Bare a | Required a | NotRequired a => pytype_induction a
          end
          (hints_ind l')
    end in
  match t with
  | TAny => HAny
  | TEllipsis => HEllipsis
  | TUnit => HUnit
  | TOpaque name => HOpaque name
  | TClass c => HClass c
  | TUnion args => HUnion (args_ind args)
  | TTypedDict name total hints => HTypedDict name total (hints_ind hints)
  | TNewType name s => HNewType name (pytype_induction s)
  | TLiteral values => HLiteral values
  | TInitVar None => HInitVarNone
  | TInitVar (Some t') => HInitVarSome (pytype_induction t')
  | TGeneric origin None => HGenericNone origin
  | TGeneric origin (Some args) => HGenericSome origin (args_ind args)
  end.
End PytypeInd.

(** ** Equality tests decide equality *)

Lemma builtin_eqb_eq : forall a b, builtin_eqb a b = true -> a = b.
Proof. destruct a, b; simpl; congruence. Qed.

Lemma userclass_eqb_eq : forall u w, userclass_eqb u w = true -> u = w.
Proof.
  intros [n1 b1 d1] [n2 b2 d2]; unfold userclass_eqb; simpl.
  intros H. apply andb_prop in H as [H Hd]. apply andb_prop in H as [Hn Hb].
  apply String.eqb_eq in Hn. apply Bool.eqb_prop in Hd.
  destruct (list_eq_dec string_dec b1 b2); [ | discriminate ].
  congruence.
Qed.

Lemma pyclass_eqb_eq : forall a b, pyclass_eqb a b = true -> a = b.
Proof.
  intros [x | u] [y | w]; simpl; try discriminate.
  - intros H. f_equal. now apply builtin_eqb_eq.
  - intros H. f_equal. now apply userclass_eqb_eq.
Qed.

Lemma lit_eqb_eq : forall a b, lit_eqb a b = true -> a = b.
Proof.
  intros [ | x | x | x | x] [ | y | y | y | y]; simpl; try discriminate; intros H.
  - reflexivity.
  - f_equal. now apply Bool.eqb_prop.
  - f_equal. now apply Z.eqb_eq.
  - f_equal. now apply String.eqb_eq.
  - destruct (list_eq_dec Byte.byte_eq_dec x y); congruence.
Qed.

Lemma list_eqb_eq (A : Type) (eqb : A -> A -> bool) (xs : list A) :
  Forall (fun x => forall y, eqb x y = true -> x = y) xs ->
  forall ys, list_eqb eqb xs ys = true -> xs = ys.
Proof.
  induction 1 as [ | x xs Hx _ IH]; intros [ | y ys]; simpl; try discriminate.
  - reflexivity.
  - intros H. apply andb_prop in H as [H1 H2].
    f_equal; [ now apply Hx | now apply IH ].
Qed.

Lemma pytype_eqb_eq : forall a b, pytype_eqb a b = true -> a = b.
Proof.
  induction a using pytype_induction; intros b; destruct b; simpl;
    try discriminate; try reflexivity; intros Heq.
  - f_equal. now apply String.eqb_eq.
  - f_equal. now apply pyclass_eqb_eq.
  - f_equal. eapply list_eqb_eq; eauto.
  - apply andb_prop in Heq as [Heq Hh]. apply andb_prop in Heq as [Hn Ht].
    apply String.eqb_eq in Hn. apply Bool.eqb_prop in Ht. subst.
    f_equal. eapply list_eqb_eq; [ | exact Hh ].
    eapply Forall_impl; [ | exact H ].
    intros [k1 a1] IH [k2 a2] Hkh. simpl in IH.
    apply andb_prop in Hkh as [Hk Ha]. apply String.eqb_eq in Hk. subst.
    f_equal.
    destruct a1, a2; simpl in *; try discriminate; f_equal; now apply IH.
  - apply andb_prop in Heq as [Hn Hs]. apply String.eqb_eq in Hn.
    f_equal; [ assumption | now apply IHa ].
  - f_equal. eapply list_eqb_eq; [ | exact Heq ].
    apply Forall_forall. intros x _ y. apply lit_eqb_eq.
  - destruct type; simpl in Heq; congruence.
  - destruct type; simpl in Heq; try discriminate.
    f_equal. f_equal. now apply IHa.
  - apply andb_prop in Heq as [Ho Ha]. apply pyclass_eqb_eq in Ho.
    destruct args; simpl in Ha; congruence.
  - apply andb_prop in Heq as [Ho Ha]. apply pyclass_eqb_eq in Ho.
    destruct args0 as [ args0 | ]; simpl in Ha; try discriminate.
    f_equal; [ assumption | ]. f_equal. eapply list_eqb_eq; eauto.
Qed.

(** ** The branches of [get_validator] *)

(** The tests of [get_validator], taken in the order of the source,
    select for every type object the branch that [validator] and
    [denote] take by matching on it. *)
Lemma get_validator_branch_cases : forall type_,
    get_validator_branch type_
    = match type_ with
      | TAny => BrAny
      | TUnion _ => BrUnion
      | TTypedDict _ _ _ => BrTypedDict
      | TNewType _ _ => BrNewType
      | TLiteral _ => BrLiteral
      | TInitVar _ => BrInitVar
      | TGeneric origin _ =>
          if issubclass origin BCollection then BrCollection
          else if pyclass_eqb origin Btype then BrType
          else BrScalar
      | TClass cls => if class_is_dataclass cls then BrDataclass else BrScalar
      | TUnit | TEllipsis | TOpaque _ => BrScalar
      end.
Proof.
  destruct type_; reflexivity.
Qed.

(** The helpers that [validator] and [denote] have inlined: an empty
    [__args__] is read as [((),)], a bare alias has no arguments, the
    bare [InitVar] hands over the descriptor of its slot, and [is_tuple]
    looks at the origin of a container alias. *)
Lemma helpers_inlined : forall origin args t,
    is_tuple (TGeneric origin args)
    = issubclass origin BCollection && issubclass origin Btuple
    /\ extract_generic (TGeneric origin None) [] = []
    /\ extract_generic (TGeneric origin (Some [])) [] = [TUnit]
    /\ extract_generic (TGeneric origin (Some (t :: nil))) [] = [t]
    /\ extract_generic (TUnion []) [] = [TUnit]
    /\ extract_init_var (TInitVar None) = member_descriptor
    /\ extract_init_var (TInitVar (Some t)) = t.
Proof.
  intros origin args t. repeat split.
Qed.

(** ** Predicates built from agreeing parts agree *)

Lemma peq_refl : forall p, peq p p.
Proof. now intros p v. Qed.

Lemma peq_sym : forall p q, peq p q -> peq q p.
Proof. intros p q H v. now rewrite H. Qed.

Lemma peq_trans : forall p q r, peq p q -> peq q r -> peq p r.
Proof. intros p q r H1 H2 v. now rewrite H1. Qed.

Lemma py_all_ext (A : Type) (p q : A -> result bool) (xs : list A) :
  (forall x, In x xs -> p x = q x) -> py_all p xs = py_all q xs.
Proof.
  induction xs as [ | x xs IH]; simpl; intros H; [ reflexivity | ].
  rewrite H by now left. rewrite IH; [ reflexivity | ].
  intros y Hy. apply H. now right.
Qed.

Lemma union_pred_ext : forall ps qs,
    Forall2 peq ps qs -> peq (union_pred ps) (union_pred qs).
Proof.
  intros ps qs H v. unfold union_pred.
  induction H as [ | p q ps qs Hpq _ IH]; simpl; [ reflexivity | ].
  now rewrite Hpq, IH.
Qed.

Lemma dict_get_ext : forall k (vs ws : list (string * pred)),
    Forall2 field_eq vs ws ->
    match dict_get k vs, dict_get k ws with
    | Some p, Some q => peq p q
    | None, None => True
    | _, _ => False
    end.
Proof.
  intros k vs ws H.
  induction H as [ | [k1 p] [k2 q] vs ws [Hk Hpq] _ IH]; simpl; [ exact I | ].
  simpl in Hk, Hpq. subst k2.
  destruct (dict_get k vs), (dict_get k ws); try contradiction; try assumption.
  destruct (String.eqb k k1); [ assumption | exact I ].
Qed.

Lemma field_get_ext : forall k (vs ws : list (string * pred)),
    Forall2 field_eq vs ws ->
    match field_get k vs, field_get k ws with
    | Some p, Some q => peq p q
    | None, None => True
    | _, _ => False
    end.
Proof.
  intros k vs ws H. destruct k; simpl; try exact I.
  now apply dict_get_ext.
Qed.

Lemma typeddict_total_pred_ext : forall required_keys vs ws,
    Forall2 field_eq vs ws ->
    peq (typeddict_total_pred required_keys vs) (typeddict_total_pred required_keys ws).
Proof.
  intros rk vs ws H v. unfold typeddict_total_pred.
  f_equal. f_equal. destruct (py_items v) as [items | e]; simpl; [ | reflexivity ].
  apply py_all_ext. intros [k x] _.
  pose proof (field_get_ext k H) as Hk.
  destruct (field_get k vs), (field_get k ws); try contradiction; auto.
Qed.

Lemma typeddict_open_pred_ext : forall required_keys vs ws,
    Forall2 field_eq vs ws ->
    peq (typeddict_open_pred required_keys vs) (typeddict_open_pred required_keys ws).
Proof.
  intros rk vs ws H v. unfold typeddict_open_pred.
  f_equal. f_equal. destruct (py_items v) as [items | e]; simpl; [ | reflexivity ].
  apply py_all_ext. intros [k x] _.
  pose proof (field_get_ext k H) as Hk.
  destruct (field_get k vs), (field_get k ws); try contradiction; auto.
Qed.

Lemma mapping_pred_ext : forall origin kv kv' vv vv',
    peq kv kv' -> peq vv vv' ->
    peq (mapping_pred origin kv vv) (mapping_pred origin kv' vv').
Proof.
  intros origin kv kv' vv vv' Hk Hv v. unfold mapping_pred.
  f_equal. destruct (py_items v) as [items | e]; simpl; [ | reflexivity ].
  apply py_all_ext. intros e _. now rewrite Hk, Hv.
Qed.

Lemma items_pred_ext : forall origin p q,
    peq p q -> peq (items_pred origin p) (items_pred origin q).
Proof.
  intros origin p q H v. unfold items_pred.
  f_equal. destruct (py_iter v) as [items | e]; simpl; [ | reflexivity ].
  apply py_all_ext. intros x _. apply H.
Qed.

Lemma zip_all_ext : forall ps qs,
    Forall2 peq ps qs ->
    forall items,
      py_all (fun iv : entry_validator => snd iv (fst iv)) (combine items ps)
      = py_all (fun iv : entry_validator => snd iv (fst iv)) (combine items qs).
Proof.
  induction 1 as [ | p q ps qs Hpq _ IH]; intros [ | x items]; simpl; try reflexivity.
  now rewrite Hpq, IH.
Qed.

Lemma fixed_tuple_pred_ext : forall origin ps qs,
    Forall2 peq ps qs ->
    peq (fixed_tuple_pred origin ps) (fixed_tuple_pred origin qs).
Proof.
  intros origin ps qs H v. unfold fixed_tuple_pred.
  rewrite (Forall2_length H).
  f_equal. f_equal. destruct (py_iter v) as [items | e]; simpl; [ | reflexivity ].
  now apply zip_all_ext.
Qed.

(** ** Instances of container classes *)

Lemma isinstance_mapping : forall v origin,
    isinstance v origin = true -> issubclass origin BMapping = true ->
    exists entries, v = VDict entries.
Proof.
  intros v [b | u] Hv Ho; [ | discriminate ].
  destruct b; try discriminate; destruct v; try discriminate; eauto.
Qed.

Lemma isinstance_tuple : forall v origin,
    isinstance v origin = true -> issubclass origin Btuple = true ->
    exists items, v = VTuple items.
Proof.
  intros v [b | u] Hv Ho; [ | discriminate ].
  destruct b; try discriminate; destruct v; try discriminate; eauto.
Qed.

Lemma isinstance_collection : forall v origin,
    isinstance v origin = true -> issubclass origin BCollection = true ->
    (exists items, py_iter v = Ok items) /\ (exists n, py_len v = Ok n).
Proof.
  intros v [b | u] Hv Ho; [ | discriminate ].
  destruct b; try discriminate; destruct v; try discriminate; simpl; eauto.
Qed.

Lemma isinstance_type : forall v,
    isinstance v Btype = true -> exists c, v = VType c.
Proof. destruct v; try discriminate; eauto. Qed.

(** ** Well-formed type objects compile to total predicates *)

Lemma mapR_Forall2 (A B : Type) (f : A -> result B) (xs : list A) :
  forall ys, mapR f xs = Ok ys -> Forall2 (fun x y => f x = Ok y) xs ys.
Proof.
  induction xs as [ | x xs IH]; simpl; intros ys.
  - intros [= <-]. constructor.
  - destruct (f x) as [y | e] eqn:Hx; simpl; [ | discriminate ].
    destruct (mapR f xs) as [ys' | e]; simpl; [ | discriminate ].
    intros [= <-]. constructor; auto.
Qed.

Lemma mapR_ok (A B : Type) (f : A -> result B) (xs : list A) :
  Forall (fun x => exists y, f x = Ok y) xs -> exists ys, mapR f xs = Ok ys.
Proof.
  induction 1 as [ | x xs [y Hy] _ [ys IH]]; simpl; [ eauto | ].
  rewrite Hy, IH. simpl. eauto.
Qed.

Lemma py_all_total (A : Type) (p : A -> result bool) (xs : list A) :
  (forall x, In x xs -> exists b, p x = Ok b) -> exists b, py_all p xs = Ok b.
Proof.
  induction xs as [ | x xs IH]; simpl; intros H; [ eauto | ].
  destruct (H x (or_introl eq_refl)) as [[ | ] ->]; simpl; eauto.
Qed.

Lemma py_any_total (A : Type) (p : A -> result bool) (xs : list A) :
  (forall x, In x xs -> exists b, p x = Ok b) -> exists b, py_any p xs = Ok b.
Proof.
  induction xs as [ | x xs IH]; simpl; intros H; [ eauto | ].
  destruct (H x (or_introl eq_refl)) as [[ | ] ->]; simpl; eauto.
Qed.

Lemma union_pred_total : forall ps, Forall total ps -> total (union_pred ps).
Proof.
  intros ps H v. apply py_any_total. intros p Hp.
  rewrite Forall_forall in H. now apply H.
Qed.

Lemma dict_get_In (B : Type) (k : string) (d : list (string * B)) (b : B) :
  dict_get k d = Some b -> In (k, b) d.
Proof.
  induction d as [ | [k' b'] d IH]; simpl; [ discriminate | ].
  destruct (dict_get k d) as [x | ].
  - intros [= <-]. right. now apply IH.
  - destruct (String.eqb k k') eqn:E; [ | discriminate ].
    apply String.eqb_eq in E. intros [= <-]. subst. now left.
Qed.

Lemma field_get_total : forall k (validators : list (string * pred)) p,
    Forall (fun kv => total (snd kv)) validators ->
    field_get k validators = Some p -> total p.
Proof.
  intros k vs p H Hget. destruct k; try discriminate. simpl in Hget.
  apply dict_get_In in Hget. rewrite Forall_forall in H.
  exact (H _ Hget).
Qed.

Lemma py_has_key_total : forall entries required,
    exists b, py_all (py_has_key (VDict entries)) required = Ok b.
Proof. intros. apply py_all_total. intros k _. simpl. eauto. Qed.

Lemma typeddict_pred_total : forall is_total required validators,
    Forall (fun kv => total (snd kv)) validators ->
    total (if is_total : bool
           then typeddict_total_pred required validators
           else typeddict_open_pred required validators).
Proof.
  intros is_total rk vs H v.
  assert (Hitems : forall entries dflt,
             exists b, py_all (fun kv : entry =>
                                 let (k, x) := kv in
                                 match field_get k vs with
                                 | Some validate_k => validate_k x
                                 | None => Ok dflt
                                 end) entries = Ok b).
  { intros entries dflt. apply py_all_total. intros [k x] _.
    destruct (field_get k vs) as [p | ] eqn:Hk; [ | eauto ].
    eapply field_get_total; eauto. }
  destruct is_total; unfold typeddict_total_pred, typeddict_open_pred;
    destruct (isinstance v BMapping) eqn:Hm; simpl; eauto;
    destruct (isinstance_mapping _ _ Hm eq_refl) as [entries ->];
    destruct (py_has_key_total entries rk) as [[ | ] ->]; simpl; eauto.
Qed.

Lemma mapping_pred_total : forall origin kv vv,
    issubclass origin BMapping = true -> total kv -> total vv ->
    total (mapping_pred origin kv vv).
Proof.
  intros origin kv vv Ho Hk Hv v. unfold mapping_pred.
  destruct (isinstance v origin) eqn:Hi; simpl; [ | eauto ].
  destruct (isinstance_mapping _ _ Hi Ho) as [entries ->]. simpl.
  apply py_all_total. intros [k x] _. simpl.
  destruct (Hk k) as [[ | ] ->]; simpl; eauto.
Qed.

Lemma items_pred_total : forall origin p,
    issubclass origin BCollection = true -> total p ->
    total (items_pred origin p).
Proof.
  intros origin p Ho Hp v. unfold items_pred.
  destruct (isinstance v origin) eqn:Hi; simpl; [ | eauto ].
  destruct (isinstance_collection _ _ Hi Ho) as [[items ->] _]. simpl.
  apply py_all_total. intros x _. apply Hp.
Qed.

Lemma fixed_tuple_pred_total : forall origin ps,
    issubclass origin BCollection = true -> Forall total ps ->
    total (fixed_tuple_pred origin ps).
Proof.
  intros origin ps Ho Hps v. unfold fixed_tuple_pred.
  destruct (isinstance v origin) eqn:Hi; simpl; [ | eauto ].
  destruct (isinstance_collection _ _ Hi Ho) as [[items ->] [n ->]]. simpl.
  destruct (Nat.eqb n (List.length ps)); simpl; [ | eauto ].
  apply py_all_total. intros [x p] Hin. simpl.
  apply in_combine_r in Hin. rewrite Forall_forall in Hps. now apply Hps.
Qed.

Lemma class_issubclass_total : forall cls bound,
    class_bound bound = true -> exists b, class_issubclass cls bound = Ok b.
Proof.
  intros cls. induction bound using pytype_induction; simpl; intros Hb;
    try discriminate; eauto.
  apply py_any_total. intros x Hx.
  rewrite Forall_forall in H. rewrite forallb_forall in Hb. auto.
Qed.

Lemma subtype_pred_total : forall bound,
    class_bound bound = true -> total (subtype_pred bound).
Proof.
  intros bound Hb v. unfold subtype_pred.
  destruct (isinstance v Btype) eqn:Hi; simpl; [ | eauto ].
  destruct (isinstance_type _ Hi) as [c' ->]. simpl.
  now apply class_issubclass_total.
Qed.

Lemma scalar_pred_total : forall c, total (scalar_pred c).
Proof.
  intros c v. unfold scalar_pred.
  destruct (pyclass_eqb c Bcomplex); [ now eexists | ].
  destruct (pyclass_eqb c Bfloat); now eexists.
Qed.

Lemma empty_tuple_pred_total : forall origin, total (empty_tuple_pred origin).
Proof.
  intros origin v. unfold empty_tuple_pred.
  destruct (isinstance v origin); simpl; eauto.
Qed.

Lemma mapR_total (A B : Type) (f : A -> result B) (Q : B -> Prop) (xs : list A) :
  Forall (fun x => exists y, f x = Ok y /\ Q y) xs ->
  exists ys, mapR f xs = Ok ys /\ Forall Q ys.
Proof.
  induction 1 as [ | x xs [y [Hy HQ]] _ [ys [IH HQs]]]; simpl.
  - exists []. auto.
  - rewrite Hy, IH. simpl. exists (y :: ys). auto.
Qed.

Lemma Forall_forallb (A : Type) (g : A -> bool) (P : A -> Prop) (xs : list A) :
  Forall (fun x => g x = true -> P x) xs -> forallb g xs = true -> Forall P xs.
Proof.
  induction 1 as [ | x xs Hx _ IH]; simpl; intros Hg; constructor;
    apply andb_prop in Hg as [H1 H2]; auto.
Qed.

Ltac fixed_tuple_total Ho :=
  match goal with
  | Hall : Forall _ ?l |- exists p, rbind (mapR denote ?l) _ = Ok p /\ _ =>
      let ps := fresh "ps" in
      let Hps := fresh "Hps" in
      let Htot := fresh "Htot" in
      destruct (mapR_total _ _ Hall) as [ps [Hps Htot]];
      rewrite Hps; simpl; eexists; split; [ reflexivity | ];
      apply fixed_tuple_pred_total; [ exact Ho | exact Htot ]
  end.

Theorem denote_total : forall type_,
    well_formed type_ = true -> exists p, denote type_ = Ok p /\ total p.
Proof.
  induction type_ using pytype_induction; simpl; intros Hwf;
    try discriminate.
  - eexists; split; [ reflexivity | ]. now eexists.
  - destruct (class_is_dataclass c); eexists; split; try reflexivity.
    + now eexists.
    + apply scalar_pred_total.
  - pose proof (Forall_forallb _ _ H Hwf) as Hall.
    destruct (mapR_total _ _ Hall) as [ps [Hps Htot]].
    destruct args as [ | a args].
    + simpl. eexists; split; [ reflexivity | ].
      apply union_pred_total. repeat constructor. now eexists.
    + rewrite Hps. simpl. eexists; split; [ reflexivity | ].
      now apply union_pred_total.
  - unfold typeddict_denote.
    assert (Hall : Forall (fun kh : string * annotated pytype =>
                             exists y, (let (k, hint) := kh in
                                        rbind (denote (strip_extras hint))
                                              (fun v => Ok (k, v))) = Ok y
                                       /\ total (snd y)) hints).
    { clear - H Hwf. induction H as [ | [k hint] hints Hk _ IH]; simpl in *;
        constructor; apply andb_prop in Hwf as [H1 H2]; auto.
      destruct (Hk H1) as [p [Hp Htot]]. rewrite Hp. simpl. eauto. }
    destruct (mapR_total _ _ Hall) as [vs [Hvs Htot]].
    rewrite Hvs. simpl. eexists; split; [ reflexivity | ].
    now apply typeddict_pred_total.
  - auto.
  - destruct values; [ discriminate | ].
    eexists; split; [ reflexivity | ]. now eexists.
  - auto.
  - destruct (issubclass origin BCollection);
      [ | destruct (pyclass_eqb origin Btype) ];
      (eexists; split; [ reflexivity | ]; now eexists).
  - destruct (issubclass origin BCollection) eqn:Hc.
    + destruct (issubclass origin BMapping) eqn:Hm.
      { destruct args as [ | key_type [ | val_type [ | ? ?]]]; try discriminate.
        apply andb_prop in Hwf as [Hk Hv].
        inversion H as [ | ? ? Hkey Hrest]; subst.
        inversion Hrest as [ | ? ? Hval _]; subst.
        destruct (Hkey Hk) as [kv [-> Hkv]]. destruct (Hval Hv) as [vv [-> Hvv]].
        simpl. eexists; split; [ reflexivity | ].
        now apply mapping_pred_total. }
      destruct (issubclass origin Btuple) eqn:Ht.
      { destruct args as [ | g0 [ | g1 [ | g2 rest]]].
        - eexists; split; [ reflexivity | ]. apply empty_tuple_pred_total.
        - destruct (is_unit g0) eqn:Hu; simpl in Hwf.
          + eexists; split; [ reflexivity | ]. apply empty_tuple_pred_total.
          + assert (Hall : Forall (fun x => exists y, denote x = Ok y /\ total y) [g0]).
            { inversion H; subst. constructor; auto. }
            fixed_tuple_total Hc.
        - apply andb_prop in Hwf as [Hg0 Hg1].
          inversion H as [ | ? ? H0 Hrest]; subst.
          inversion Hrest as [ | ? ? H1 _]; subst.
          destruct (is_ellipsis g1) eqn:He; simpl in Hg1.
          + destruct (H0 Hg0) as [p [-> Hp]]. simpl.
            eexists; split; [ reflexivity | ]. now apply items_pred_total.
          + assert (Hall : Forall (fun x => exists y, denote x = Ok y /\ total y) [g0; g1]).
            { repeat constructor; auto. }
            fixed_tuple_total Hc.
        - pose proof (Forall_forallb _ _ H Hwf) as Hall.
          fixed_tuple_total Hc. }
      destruct args as [ | g0 [ | ? ?]]; try discriminate.
      inversion H as [ | ? ? H0 _]; subst.
      destruct (H0 Hwf) as [p [-> Hp]]. simpl.
      eexists; split; [ reflexivity | ]. now apply items_pred_total.
    + destruct (pyclass_eqb origin Btype); [ | discriminate ].
      destruct args as [ | g0 [ | ? ?]]; try discriminate.
      eexists; split; [ reflexivity | ]. now apply subtype_pred_total.
Qed.

Lemma rrel_peq_trans : forall r s u : result pred, req r s -> req u s -> req r u.
Proof.
  intros [p | e] [q | e'] [w | e'']; simpl; try contradiction.
  - intros H1 H2 v. now rewrite H1, H2.
  - congruence.
Qed.

(** ** Verdicts of unions *)

Lemma py_all_true (A : Type) (p : A -> result bool) (xs : list A) :
  py_all p xs = Ok true <-> forall x, In x xs -> p x = Ok true.
Proof.
  induction xs as [ | x xs IH]; simpl.
  - split; [ intros _ x [] | reflexivity ].
  - split.
    + intros H y [<- | Hy].
      * destruct (p x) as [[ | ] | e]; simpl in H; congruence.
      * destruct (p x) as [[ | ] | e]; simpl in H; try discriminate.
        now apply IH.
    + intros H. rewrite (H x (or_introl eq_refl)). simpl.
      apply IH. intros y Hy. apply H. now right.
Qed.

Lemma py_any_true (A : Type) (p : A -> result bool) (xs : list A) :
  (forall x, In x xs -> exists b, p x = Ok b) ->
  py_any p xs = Ok true <-> exists x, In x xs /\ p x = Ok true.
Proof.
  induction xs as [ | x xs IH]; simpl; intros Htot.
  - split; [ discriminate | intros [x [[] _]] ].
  - destruct (Htot x (or_introl eq_refl)) as [[ | ] Hx]; rewrite Hx; simpl.
    + split; [ intros _; eauto | reflexivity ].
    + rewrite IH by (intros y Hy; apply Htot; now right).
      split; intros [y [Hy Hp]]; [ eauto | ].
      destruct Hy as [<- | Hy]; [ congruence | eauto ].
Qed.

Lemma py_any_ext (A : Type) (p q : A -> result bool) (xs : list A) :
  (forall x, In x xs -> p x = q x) -> py_any p xs = py_any q xs.
Proof.
  induction xs as [ | x xs IH]; simpl; intros H; [ reflexivity | ].
  rewrite H by now left. rewrite IH; [ reflexivity | ].
  intros y Hy. apply H. now right.
Qed.

Lemma union_pred_run : forall members ps value,
    Forall2 (fun m p => denote m = Ok p) members ps ->
    union_pred ps value = py_any (fun m => denote_run m value) members.
Proof.
  intros ms ps v H. unfold union_pred.
  induction H as [ | m p ms ps Hm _ IH]; simpl; [ reflexivity | ].
  unfold denote_run at 1. rewrite Hm. simpl. now rewrite IH.
Qed.

Lemma denote_union_run : forall members value,
    Forall (fun m => exists p, denote m = Ok p) members ->
    denote_run (TUnion members) value
    = py_any (fun m => denote_run m value) members.
Proof.
  intros ms v H. destruct (mapR_ok _ H) as [ps Hps].
  pose proof (mapR_Forall2 _ _ Hps) as H2.
  unfold denote_run at 1. simpl denote.
  destruct ms as [ | m ms]; [ reflexivity | ].
  rewrite Hps. simpl rbind. now apply union_pred_run.
Qed.

Lemma well_formed_compiles : forall members,
    forallb well_formed members = true ->
    Forall (fun m => exists p, denote m = Ok p) members.
Proof.
  intros ms H. apply Forall_forall. intros m Hm.
  rewrite forallb_forall in H.
  destruct (denote_total m (H m Hm)) as [p [Hp _]]. eauto.
Qed.


(** ** Equal keys have the same predicate *)

Lemma req_refl : forall r : result pred, req r r.
Proof. intros [p | e]; simpl; [ apply peq_refl | reflexivity ]. Qed.

Lemma req_denote_run : forall a b value,
    req (denote a) (denote b) -> denote_run a value = denote_run b value.
Proof.
  intros a b v H. unfold denote_run.
  destruct (denote a) as [p | e], (denote b) as [q | e']; simpl in *;
    try contradiction; [ apply H | now subst ].
Qed.

Lemma req_inv : forall a b,
    well_formed a = true -> req (denote a) (denote b) ->
    exists p q, denote a = Ok p /\ denote b = Ok q /\ peq p q.
Proof.
  intros a b Hwf H. destruct (denote_total a Hwf) as [p [Hp _]].
  rewrite Hp in H. destruct (denote b) as [q | e]; simpl in H; [ | contradiction ].
  eauto.
Qed.

Lemma key_eqb_marker : forall a b,
    key_eqb a b = true ->
    is_unit a = is_unit b /\ is_ellipsis a = is_ellipsis b.
Proof. destruct a, b; simpl; intros; try discriminate; auto. Qed.

Lemma py_any_same (A : Type) (f : A -> result bool) (xs ys : list A) :
  (forall x, In x xs -> exists b, f x = Ok b) ->
  (forall y, In y ys -> exists b, f y = Ok b) ->
  (forall x, In x xs -> exists y, In y ys /\ f x = f y) ->
  (forall y, In y ys -> exists x, In x xs /\ f x = f y) ->
  py_any f xs = py_any f ys.
Proof.
  intros Hx Hy Hxy Hyx.
  destruct (py_any_total f xs Hx) as [b1 H1].
  destruct (py_any_total f ys Hy) as [b2 H2].
  rewrite H1, H2. f_equal. apply eq_true_iff_eq.
  assert (E1 : b1 = true <-> py_any f xs = Ok true)
    by (rewrite H1; split; congruence).
  assert (E2 : b2 = true <-> py_any f ys = Ok true)
    by (rewrite H2; split; congruence).
  rewrite E1, E2, (py_any_true f xs Hx), (py_any_true f ys Hy).
  split.
  - intros [x [Hin Hf]]. destruct (Hxy x Hin) as [y [Hin' E]].
    exists y. split; [ assumption | congruence ].
  - intros [y [Hin Hf]]. destruct (Hyx y Hin) as [x [Hin' E]].
    exists x. split; [ assumption | congruence ].
Qed.

Lemma key_eqb_args : forall xs ys,
    Forall key_sound xs -> forallb well_formed xs = true ->
    list_eqb key_eqb xs ys = true ->
    forallb well_formed ys = true
    /\ exists ps qs, mapR denote xs = Ok ps /\ mapR denote ys = Ok qs
                     /\ Forall2 peq ps qs.
Proof.
  induction xs as [ | x xs IH]; intros [ | y ys] HF Hwf Hkey; simpl in *;
    try discriminate.
  - split; [ reflexivity | ]. exists [], []. repeat split; constructor.
  - inversion HF as [ | ? ? Hx Hxs]; subst.
    apply andb_prop in Hwf as [Hwx Hwxs]. apply andb_prop in Hkey as [Hkx Hkxs].
    destruct (Hx y Hwx Hkx) as [Hwy Hreq].
    destruct (req_inv _ _ Hwx Hreq) as [p [q [Hp [Hq Hpq]]]].
    destruct (IH ys Hxs Hwxs Hkxs) as [Hwys [ps [qs [Hps [Hqs H2]]]]].
    split; [ now rewrite Hwy, Hwys | ].
    exists (p :: ps), (q :: qs). rewrite Hp, Hq, Hps, Hqs. simpl.
    repeat split; now constructor.
Qed.

Ltac fixed_tuple_key HF Hw Hc Hm Ht :=
  match goal with
  | Hk : list_eqb key_eqb _ _ = true |- _ =>
      let Hw' := fresh "Hw'" in
      let ps := fresh "ps" in
      let qs := fresh "qs" in
      let Hps := fresh "Hps" in
      let Hqs := fresh "Hqs" in
      let H2 := fresh "H2" in
      destruct (@key_eqb_args _ _ HF Hw Hk) as [Hw' [ps [qs [Hps [Hqs H2]]]]];
      split;
      [ simpl; rewrite Hc, Hm, Ht; simpl in Hw';
        repeat match goal with
               | H : _ && _ = true |- _ => apply andb_prop in H as [? ?]
               end;
        repeat match goal with
               | H : ?x = true |- context [?x] => rewrite H
               end;
        simpl; try reflexivity; try apply orb_true_r
      | rewrite Hps, Hqs; simpl; now apply fixed_tuple_pred_ext ]
  end.

Lemma list_eqb_Forall2 (A : Type) (f : A -> A -> bool) (xs : list A) :
  forall ys, list_eqb f xs ys = true -> Forall2 (fun x y => f x y = true) xs ys.
Proof.
  induction xs as [ | x xs IH]; intros [ | y ys]; simpl; try discriminate.
  - constructor.
  - intros H. apply andb_prop in H as [H1 H2]. constructor; auto.
Qed.

Ltac invert_Forall2 :=
  repeat match goal with
         | H : Forall2 _ (_ :: _) _ |- _ => inversion H; subst; clear H
         | H : Forall2 _ [] _ |- _ => inversion H; subst; clear H
         end.

(** Bounds that are equal as keys give [issubclass] the same answers. *)
Lemma class_bound_key : forall a b,
    class_bound a = true -> key_eqb a b = true ->
    class_bound b = true
    /\ forall cls, class_issubclass cls a = class_issubclass cls b.
Proof.
  induction a using pytype_induction; intros b Hb Hkey; simpl in Hb;
    try discriminate;
    try (apply pytype_eqb_eq in Hkey; subst b; split;
         [ exact Hb | reflexivity ]).
  - (* Union *)
    destruct b; try discriminate. rename args0 into ys.
    simpl in Hkey. apply andb_prop in Hkey as [H1 H2].
    rewrite forallb_forall in H1, H2, Hb. rewrite Forall_forall in H.
    assert (Hxy : forall x, In x args ->
                           exists y, In y ys /\ class_bound y = true
                                     /\ forall cls, class_issubclass cls x
                                                    = class_issubclass cls y).
    { intros x Hx. specialize (H1 x Hx). apply existsb_exists in H1 as [y [Hy Hk]].
      exists y. split; [ assumption | ]. exact (H x Hx y (Hb x Hx) Hk). }
    assert (Hyx : forall y, In y ys ->
                           exists x, In x args /\ class_bound y = true
                                     /\ forall cls, class_issubclass cls x
                                                    = class_issubclass cls y).
    { intros y Hy. specialize (H2 y Hy). apply existsb_exists in H2 as [x [Hx Hk]].
      exists x. split; [ assumption | ]. exact (H x Hx y (Hb x Hx) Hk). }
    assert (Hys : forall y, In y ys -> class_bound y = true).
    { intros y Hy. now destruct (Hyx y Hy) as [x [_ [Hw _]]]. }
    split; [ simpl; now apply forallb_forall | ].
    intros cls. simpl. apply py_any_same.
    + intros x Hx. apply class_issubclass_total. now apply Hb.
    + intros y Hy. apply class_issubclass_total. now apply Hys.
    + intros x Hx. destruct (Hxy x Hx) as [y [Hy [_ E]]]. eauto.
    + intros y Hy. destruct (Hyx y Hy) as [x [Hx [_ E]]]. eauto.
  - (* bare alias *)
    destruct b; try discriminate. simpl in Hkey.
    apply andb_prop in Hkey as [Ho Ha]. apply pyclass_eqb_eq in Ho. subst.
    destruct args; [ discriminate | ]. split; [ reflexivity | reflexivity ].
Qed.

Theorem key_eqb_sound : forall a, key_sound a.
Proof.
  induction a using pytype_induction; intros b Hwf Hkey;
    try (apply pytype_eqb_eq in Hkey; subst b; split;
         [ exact Hwf | apply req_refl ]).
  - (* Union *)
    destruct b; try discriminate. rename args0 into ys.
    simpl in Hwf, Hkey. apply andb_prop in Hkey as [H1 H2].
    rewrite forallb_forall in H1, H2. rewrite Forall_forall in H.
    pose proof Hwf as Hwf'. rewrite forallb_forall in Hwf'.
    assert (Hxy : forall x, In x args ->
                           exists y, In y ys /\ well_formed y = true
                                     /\ req (denote x) (denote y)).
    { intros x Hx. specialize (H1 x Hx). apply existsb_exists in H1 as [y [Hy Hk]].
      exists y. split; [ assumption | ]. exact (H x Hx y (Hwf' x Hx) Hk). }
    assert (Hyx : forall y, In y ys ->
                           exists x, In x args /\ well_formed y = true
                                     /\ req (denote x) (denote y)).
    { intros y Hy. specialize (H2 y Hy). apply existsb_exists in H2 as [x [Hx Hk]].
      exists x. split; [ assumption | ]. exact (H x Hx y (Hwf' x Hx) Hk). }
    assert (Hys : forallb well_formed ys = true).
    { apply forallb_forall. intros y Hy. now destruct (Hyx y Hy) as [x [_ [Hw _]]]. }
    split; [ exact Hys | ].
    destruct (denote_total (TUnion args) Hwf) as [p [Hp _]].
    destruct (denote_total (TUnion ys) Hys) as [q [Hq _]].
    rewrite Hp, Hq. simpl. intros v.
    assert (Hpv : p v = denote_run (TUnion args) v)
      by (unfold denote_run; now rewrite Hp).
    assert (Hqv : q v = denote_run (TUnion ys) v)
      by (unfold denote_run; now rewrite Hq).
    rewrite Hpv, Hqv, !denote_union_run by now apply well_formed_compiles.
    assert (Htot : forall l, forallb well_formed l = true ->
                             forall m, In m l -> exists b, denote_run m v = Ok b).
    { intros l Hl m Hm. rewrite forallb_forall in Hl. unfold denote_run.
      destruct (denote_total m (Hl m Hm)) as [pm [-> Hpm]]. apply Hpm. }
    apply py_any_same; try (now apply Htot).
    + intros x Hx. destruct (Hxy x Hx) as [y [Hy [_ Hr]]].
      exists y. split; [ assumption | now apply req_denote_run ].
    + intros y Hy. destruct (Hyx y Hy) as [x [Hx [_ Hr]]].
      exists x. split; [ assumption | now apply req_denote_run ].
  - (* Literal *)
    destruct b; try discriminate. rename values0 into ys.
    simpl in Hkey. apply andb_prop in Hkey as [H1 H2].
    rewrite forallb_forall in H1, H2.
    destruct values as [ | l0 values]; [ discriminate | ].
    destruct ys as [ | l0' ys];
      [ now specialize (H1 l0 (or_introl eq_refl)) | ].
    split; [ reflexivity | ].
    change (peq (literal_pred (l0 :: values)) (literal_pred (l0' :: ys))).
    intros v.
    unfold literal_pred, py_in_lits. f_equal. apply eq_true_iff_eq.
    rewrite !existsb_exists. split.
    + intros [l [Hl He]]. specialize (H1 l Hl).
      apply existsb_exists in H1 as [l' [Hl' E]]. apply lit_eqb_eq in E. subst.
      eauto.
    + intros [l [Hl He]]. specialize (H2 l Hl).
      apply existsb_exists in H2 as [l' [Hl' E]]. apply lit_eqb_eq in E. subst.
      eauto.
  - (* bare alias *)
    destruct b; try discriminate. simpl in Hkey.
    apply andb_prop in Hkey as [Ho Ha]. apply pyclass_eqb_eq in Ho. subst.
    destruct args; [ discriminate | ].
    split; [ exact Hwf | apply req_refl ].
  - (* alias with arguments *)
    destruct b; try discriminate. simpl in Hkey.
    apply andb_prop in Hkey as [Ho Ha]. apply pyclass_eqb_eq in Ho. subst origin0.
    destruct args0 as [ args' | ]; [ | discriminate ]. simpl in Ha.
    pose proof (list_eqb_Forall2 _ _ _ Ha) as HF2.
    simpl in Hwf. simpl denote.
    destruct (issubclass origin BCollection) eqn:Hc.
    + destruct (issubclass origin BMapping) eqn:Hm.
      { destruct args as [ | k [ | v [ | ? ?]]]; try discriminate.
        invert_Forall2.
        match goal with
        | Hk : key_eqb k ?k' = true, Hv : key_eqb v ?v' = true |- _ =>
            apply andb_prop in Hwf as [Hwk Hwv];
            inversion H as [ | ? ? Hsk Hrest]; subst;
            inversion Hrest as [ | ? ? Hsv _]; subst;
            destruct (Hsk k' Hwk Hk) as [Hwk' Hrk];
            destruct (Hsv v' Hwv Hv) as [Hwv' Hrv]
        end.
        destruct (req_inv _ _ Hwk Hrk) as [pk [qk [Hpk [Hqk Hek]]]].
        destruct (req_inv _ _ Hwv Hrv) as [pv [qv [Hpv [Hqv Hev]]]].
        split; [ simpl; now rewrite Hc, Hm, Hwk', Hwv' | ].
        rewrite Hpk, Hqk, Hpv, Hqv. simpl. now apply mapping_pred_ext. }
      destruct (issubclass origin Btuple) eqn:Ht.
      { destruct args as [ | g0 [ | g1 [ | g2 rest]]].
        - invert_Forall2.
          split; [ simpl; now rewrite Hc, Hm, Ht | apply req_refl ].
        - invert_Forall2.
          match goal with
          | Hk0 : key_eqb g0 ?g0' = true |- _ =>
              destruct (key_eqb_marker _ _ Hk0) as [Hu _]
          end.
          rewrite <- Hu.
          destruct (is_unit g0) eqn:Hu0; simpl in Hwf.
          + split; [ simpl; now rewrite Hc, Hm, Ht, <- Hu | apply req_refl ].
          + assert (Hw : forallb well_formed [g0] = true)
              by (simpl; now rewrite Hwf).
            fixed_tuple_key H Hw Hc Hm Ht.
        - invert_Forall2.
          match goal with
          | Hk0 : key_eqb g0 ?g0' = true, Hk1 : key_eqb g1 ?g1' = true |- _ =>
              destruct (key_eqb_marker _ _ Hk1) as [_ He];
              apply andb_prop in Hwf as [Hw0 Hw1];
              pose proof (Forall_inv H) as Hs0;
              destruct (Hs0 g0' Hw0 Hk0) as [Hw0' Hr0]
          end.
          rewrite <- He.
          destruct (is_ellipsis g1) eqn:He1; simpl in Hw1.
          + destruct (req_inv _ _ Hw0 Hr0) as [p [q [Hp [Hq Hpq]]]].
            split; [ simpl; now rewrite Hc, Hm, Ht, Hw0', <- He | ].
            rewrite Hp, Hq. simpl. now apply items_pred_ext.
          + assert (Hw : forallb well_formed [g0; g1] = true)
              by (simpl; now rewrite Hw0, Hw1).
            fixed_tuple_key H Hw Hc Hm Ht.
        - inversion HF2; subst. invert_Forall2.
          assert (Hw : forallb well_formed (g0 :: g1 :: g2 :: rest) = true)
            by exact Hwf.
          fixed_tuple_key H Hw Hc Hm Ht. }
      destruct args as [ | g0 [ | ? ?]]; try discriminate.
      invert_Forall2.
      match goal with
      | Hk0 : key_eqb g0 ?g0' = true |- _ =>
          pose proof (Forall_inv H) as Hs0;
          destruct (Hs0 g0' Hwf Hk0) as [Hw0' Hr0]
      end.
      destruct (req_inv _ _ Hwf Hr0) as [p [q [Hp [Hq Hpq]]]].
      split; [ simpl; now rewrite Hc, Hm, Ht | ].
      rewrite Hp, Hq. simpl. now apply items_pred_ext.
    + destruct (pyclass_eqb origin Btype) eqn:Hty; [ | discriminate ].
      destruct args as [ | g0 [ | ? ?]]; try discriminate.
      invert_Forall2.
      match goal with
      | Hk0 : key_eqb g0 ?g0' = true |- _ =>
          destruct (class_bound_key _ _ Hwf Hk0) as [Hb' Hsame]
      end.
      split; [ simpl; now rewrite Hc, Hty | ].
      simpl. intros v. unfold subtype_pred. f_equal.
      destruct v; simpl; auto.
Qed.

Lemma cache_get_In : forall type_ c p,
    cache_get type_ c = Some p ->
    exists t, In (t, p) c /\ key_eqb type_ t = true.
Proof.
  induction c as [ | [t q] c IH]; simpl; intros p; [ discriminate | ].
  destruct (key_eqb type_ t) eqn:E.
  - intros [= ->]. exists t. auto.
  - intros H. destruct (IH p H) as [t' [Hin Hk]]. exists t'. auto.
Qed.
(** ** The cached compiler computes the predicate of the type object *)

Lemma msound_ret (A B : Type) (R : A -> B -> Prop) (a : A) (b : B) :
  R a b -> msound R (ret a) (Ok b).
Proof. intros H c Hc. simpl. auto. Qed.

Lemma msound_raise (A B : Type) (R : A -> B -> Prop) (e : exn) :
  msound R (raise e) (Raise e).
Proof. intros c Hc. simpl. auto. Qed.

Lemma msound_bind (A A' B B' : Type) (R : A -> A' -> Prop) (S : B -> B' -> Prop)
      (m : M A) (r : result A') (k : A -> M B) (k' : A' -> result B') :
  msound R m r ->
  (forall a a', R a a' -> msound S (k a) (k' a')) ->
  msound S (bind m k) (rbind r k').
Proof.
  intros Hm Hk c Hc. unfold bind.
  destruct (Hm c Hc) as [Hr Hc'].
  destruct (m c) as [[a | e] c']; destruct r as [a' | e']; simpl in *;
    try contradiction.
  - now apply Hk.
  - auto.
Qed.

Lemma msound_mapM (A B B' : Type) (R : B -> B' -> Prop)
      (f : A -> M B) (g : A -> result B') (xs : list A) :
  Forall (fun x => msound R (f x) (g x)) xs ->
  msound (Forall2 R) (mapM f xs) (mapR g xs).
Proof.
  induction 1 as [ | x xs Hx _ IH]; simpl.
  - apply msound_ret. constructor.
  - eapply msound_bind; [ exact Hx | ]. intros y y' Hy.
    eapply msound_bind; [ exact IH | ]. intros ys ys' Hys.
    apply msound_ret. now constructor.
Qed.

Lemma msound_memo : forall type_ (get_validator : M pred),
    (forall t, key_eqb type_ t = true ->
               settled t = true /\ req (denote type_) (denote t)) ->
    msound peq get_validator (denote type_) ->
    msound peq (memo type_ get_validator) (denote type_).
Proof.
  intros t g Hkey Hg c Hc. unfold memo.
  destruct (cache_get t c) as [p | ] eqn:Hget.
  - simpl. split; [ | assumption ].
    apply cache_get_In in Hget as [t' [Hin Hk]].
    destruct (Hkey _ Hk) as [Hs Hr].
    exact (rrel_peq_trans _ _ _ (Hc _ _ Hin Hs) Hr).
  - destruct (Hg c Hc) as [Hr Hc'].
    destruct (g c) as [[p | e] c']; simpl in *; [ | auto ].
    split; [ assumption | ].
    intros t' p' [Heq | Hin] Hs; [ | now apply Hc' ].
    injection Heq as <- <-. exact Hr.
Qed.

Lemma validator_unit_sound : msound peq validator_unit (denote TUnit).
Proof.
  apply msound_memo.
  - intros t Hk. apply pytype_eqb_eq in Hk. subst t.
    split; [ reflexivity | apply req_refl ].
  - apply msound_ret. apply peq_refl.
Qed.

Lemma typeddict_validator_sound : forall total hints,
    Forall (fun kh : string * annotated pytype =>
              msound peq (validator (strip_extras (snd kh)))
                     (denote (strip_extras (snd kh)))) hints ->
    msound peq (typeddict_validator validator total hints)
           (typeddict_denote denote total hints).
Proof.
  intros total hints H. unfold typeddict_validator, typeddict_denote.
  eapply msound_bind.
  - apply msound_mapM with (R := field_eq).
    eapply Forall_impl; [ | exact H ].
    intros [k hint] Hk. simpl in Hk.
    eapply msound_bind; [ exact Hk | ].
    intros p q Hpq. apply msound_ret. now split.
  - intros vs ws Hvw. apply msound_ret.
    destruct total.
    + now apply typeddict_total_pred_ext.
    + now apply typeddict_open_pred_ext.
Qed.

Ltac fixed_tuple_case IH :=
  eapply msound_bind;
  [ apply msound_mapM; exact IH
  | intros ?vs ?ws ?Hvw; apply msound_ret; now apply fixed_tuple_pred_ext ].

Theorem validator_sound : forall type_,
    well_formed type_ = true ->
    msound peq (validator type_) (denote type_).
Proof.
  induction type_ using pytype_induction; intros Hwf; try discriminate;
    simpl validator;
    (apply msound_memo;
     [ intros t' Hk; destruct (key_eqb_sound _ _ Hwf Hk) as [Hw Hr];
       split; [ unfold settled; now rewrite Hw | exact Hr ] | ]);
    simpl denote; simpl in Hwf.
  - apply msound_ret, peq_refl.
  - destruct (class_is_dataclass c); apply msound_ret, peq_refl.
  - pose proof (Forall_forallb _ _ H Hwf) as Hall.
    eapply msound_bind with (R := Forall2 peq).
    + destruct args as [ | a args].
      * change (Ok [instance_any_pred []])
          with (rbind (denote TUnit) (fun v : pred => Ok [v])).
        eapply msound_bind.
        -- exact validator_unit_sound.
        -- intros p q Hpq. apply msound_ret. now repeat constructor.
      * now apply msound_mapM.
    + intros vs ws Hvw. apply msound_ret. now apply union_pred_ext.
  - apply typeddict_validator_sound.
    clear - H Hwf. induction H as [ | [k hint] hints Hk _ IH]; simpl in *;
      constructor; apply andb_prop in Hwf as [H1 H2]; auto.
  - auto.
  - destruct values; [ discriminate | ]. apply msound_ret, peq_refl.
  - auto.
  - destruct (issubclass origin BCollection).
    + apply msound_ret, peq_refl.
    + destruct (pyclass_eqb origin Btype); apply msound_ret, peq_refl.
  - destruct (issubclass origin BCollection).
    + destruct (issubclass origin BMapping).
      { destruct args as [ | key_type [ | val_type [ | ? ?]]]; try discriminate.
        apply andb_prop in Hwf as [Hk Hv].
        inversion H as [ | ? ? Hkey Hrest]; subst.
        inversion Hrest as [ | ? ? Hval _]; subst.
        eapply msound_bind; [ exact (Hkey Hk) | ]. intros kv kv' Hkv.
        eapply msound_bind; [ exact (Hval Hv) | ]. intros vv vv' Hvv.
        apply msound_ret. now apply mapping_pred_ext. }
      destruct (issubclass origin Btuple).
      { destruct args as [ | g0 [ | g1 [ | g2 rest]]].
        - apply msound_ret, peq_refl.
        - destruct (is_unit g0); [ apply msound_ret, peq_refl | ].
          simpl in Hwf.
          assert (Hall : Forall (fun x => msound peq (validator x) (denote x)) [g0]).
          { inversion H; subst. constructor; auto. }
          fixed_tuple_case Hall.
        - apply andb_prop in Hwf as [Hg0 Hg1].
          inversion H as [ | ? ? H0 Hrest]; subst.
          inversion Hrest as [ | ? ? H1 _]; subst.
          destruct (is_ellipsis g1); simpl in Hg1.
          + eapply msound_bind; [ exact (H0 Hg0) | ]. intros p q Hpq.
            apply msound_ret. now apply items_pred_ext.
          + assert (Hall : Forall (fun x => msound peq (validator x) (denote x))
                                  [g0; g1]).
            { constructor; [ auto | constructor; [ auto | constructor ] ]. }
            fixed_tuple_case Hall.
        - pose proof (Forall_forallb _ _ H Hwf) as Hall.
          fixed_tuple_case Hall. }
      destruct args as [ | g0 [ | ? ?]]; try discriminate.
      inversion H as [ | ? ? H0 _]; subst.
      eapply msound_bind; [ exact (H0 Hwf) | ]. intros p q Hpq.
      apply msound_ret. now apply items_pred_ext.
    + destruct (pyclass_eqb origin Btype); [ | discriminate ].
      destruct args as [ | g0 rest]; apply msound_ret, peq_refl.
Qed.

(** ** Every call keeps the cache consistent *)

Lemma msound_mpres (A B : Type) (R : A -> B -> Prop) (m : M A) (r : result B) :
  msound R m r -> mpres m.
Proof. intros H c Hc. now destruct (H c Hc). Qed.

Lemma mpres_ret (A : Type) (a : A) : mpres (ret a).
Proof. now intros c Hc. Qed.

Lemma mpres_raise (A : Type) (e : exn) : mpres (@raise A e).
Proof. now intros c Hc. Qed.

Lemma mpres_bind (A B : Type) (m : M A) (k : A -> M B) :
  mpres m -> (forall a, mpres (k a)) -> mpres (bind m k).
Proof.
  intros Hm Hk c Hc. unfold bind. specialize (Hm c Hc).
  destruct (m c) as [[a | e] c']; simpl in *; [ now apply Hk | assumption ].
Qed.

Lemma mpres_mapM (A B : Type) (f : A -> M B) (xs : list A) :
  Forall (fun x => mpres (f x)) xs -> mpres (mapM f xs).
Proof.
  induction 1 as [ | x xs Hx _ IH]; simpl; [ apply mpres_ret | ].
  apply mpres_bind; [ assumption | ]. intros y.
  apply mpres_bind; [ assumption | ]. intros ys. apply mpres_ret.
Qed.

(** An entry under a key that is not settled is not constrained. *)
Lemma mpres_memo : forall type_ (g : M pred),
    settled type_ = false -> mpres g -> mpres (memo type_ g).
Proof.
  intros t g Hs Hg c Hc. unfold memo.
  destruct (cache_get t c); [ assumption | ].
  specialize (Hg c Hc).
  destruct (g c) as [[p | e] c']; simpl in *; [ | assumption ].
  intros t' p' [Heq | Hin] Hs'; [ | now apply Hg ].
  injection Heq as <- <-. congruence.
Qed.

(** Compiling any type object, well-formed or not, and whether the
    compilation succeeds or raises, keeps the cache consistent. *)
Lemma validator_preserves : forall type_, mpres (validator type_).
Proof.
  assert (Hunit : mpres validator_unit)
    by exact (msound_mpres validator_unit_sound).
  assert (Hmember : mpres validator_member)
    by (apply mpres_memo; [ reflexivity | apply mpres_ret ]).
  induction type_ using pytype_induction;
    try exact Hunit;
    match goal with
    | |- mpres (validator ?t) =>
        destruct (well_formed t) eqn:Hwf;
        [ exact (msound_mpres (validator_sound _ Hwf)) | ]
    end;
    simpl validator;
    (apply mpres_memo; [ unfold settled; rewrite Hwf; reflexivity | ]);
    try apply mpres_ret; try assumption.
  - destruct (class_is_dataclass c); apply mpres_ret.
  - apply mpres_bind; [ | intros; apply mpres_ret ].
    destruct args; [ | now apply mpres_mapM ].
    apply mpres_bind; [ assumption | intros; apply mpres_ret ].
  - unfold typeddict_validator.
    apply mpres_bind; [ | intros; apply mpres_ret ].
    apply mpres_mapM. eapply Forall_impl; [ | exact H ].
    intros [k hint] Hk. apply mpres_bind; [ exact Hk | intros; apply mpres_ret ].
  - destruct values; apply mpres_ret.
  - destruct (issubclass origin BCollection); [ apply mpres_ret | ].
    destruct (pyclass_eqb origin Btype); apply mpres_ret.
  - assert (Hfixed : forall l, Forall (fun t => mpres (validator t)) l ->
                               mpres (validators <- mapM validator l ;;
                                      ret (fixed_tuple_pred origin validators))).
    { intros l Hl. apply mpres_bind; [ now apply mpres_mapM | intros; apply mpres_ret ]. }
    destruct (issubclass origin BCollection).
    + destruct args as [ | g0 rest].
      * destruct (issubclass origin BMapping); [ apply mpres_raise | ].
        destruct (issubclass origin Btuple); [ apply mpres_ret | ].
        apply mpres_bind; [ assumption | intros; apply mpres_ret ].
      * pose proof H as Hall. inversion H as [ | ? ? Hg0 Hrest]; subst.
        destruct (issubclass origin BMapping).
        { destruct rest as [ | val_type [ | ? ?]]; try apply mpres_raise.
          inversion Hrest; subst.
          apply mpres_bind; [ assumption | ]. intros kv.
          apply mpres_bind; [ assumption | ]. intros vv. apply mpres_ret. }
        destruct (issubclass origin Btuple).
        { destruct rest as [ | g1 [ | ? ?]].
          - destruct (is_unit g0); [ apply mpres_ret | now apply Hfixed ].
          - destruct (is_ellipsis g1); [ | now apply Hfixed ].
            apply mpres_bind; [ assumption | intros; apply mpres_ret ].
          - now apply Hfixed. }
        apply mpres_bind; [ assumption | intros; apply mpres_ret ].
    + destruct (pyclass_eqb origin Btype); [ | apply mpres_ret ].
      destruct args; apply mpres_ret.
Qed.

Lemma consistent_nil : consistent [].
Proof. intros t p []. Qed.

Lemma reachable_consistent : forall c, reachable c -> consistent c.
Proof.
  induction 1 as [ | c t _ IH]; [ exact consistent_nil | ].
  now apply validator_preserves.
Qed.

Lemma run_validator_denote : forall c type_ value,
    well_formed type_ = true -> consistent c ->
    run_validator type_ c value = denote_run type_ value.
Proof.
  intros c t v Hwf Hc. unfold run_validator, denote_run.
  destruct (validator_sound t Hwf Hc) as [Hr _].
  destruct (fst (validator t c)) as [p | e], (denote t) as [q | e'];
    simpl in *; try contradiction; [ apply Hr | now subst ].
Qed.

Lemma validate_denote : forall type_ value,
    well_formed type_ = true -> validate type_ value = denote_run type_ value.
Proof. intros. apply run_validator_denote; [ assumption | apply consistent_nil ]. Qed.

(** ** The cache only grows *)

Lemma mext_ret (A : Type) (a : A) : mext (ret a).
Proof. intros c. now exists []. Qed.

Lemma mext_raise (A : Type) (e : exn) : mext (@raise A e).
Proof. intros c. now exists []. Qed.

Lemma mext_bind (A B : Type) (m : M A) (k : A -> M B) :
  mext m -> (forall a, mext (k a)) -> mext (bind m k).
Proof.
  intros Hm Hk c. unfold bind. destruct (Hm c) as [l1 H1].
  destruct (m c) as [[a | e] c']; simpl in *; subst.
  - destruct (Hk a (l1 ++ c)) as [l2 H2]. exists (l2 ++ l1).
    now rewrite H2, app_assoc.
  - now exists l1.
Qed.

Lemma mext_mapM (A B : Type) (f : A -> M B) (xs : list A) :
  Forall (fun x => mext (f x)) xs -> mext (mapM f xs).
Proof.
  induction 1 as [ | x xs Hx _ IH]; simpl; [ apply mext_ret | ].
  apply mext_bind; [ assumption | ]. intros y.
  apply mext_bind; [ assumption | ]. intros ys. apply mext_ret.
Qed.

Lemma mext_memo : forall type_ (g : M pred), mext g -> mext (memo type_ g).
Proof.
  intros t g Hg c. unfold memo. destruct (cache_get t c); [ now exists [] | ].
  destruct (Hg c) as [l H]. destruct (g c) as [[p | e] c']; simpl in *; subst.
  - now exists ((t, p) :: l).
  - now exists l.
Qed.

Lemma validator_extends : forall type_, mext (validator type_).
Proof.
  assert (Hunit : mext validator_unit) by apply mext_memo, mext_ret.
  assert (Hmember : mext validator_member) by apply mext_memo, mext_ret.
  induction type_ using pytype_induction; simpl validator; apply mext_memo;
    try apply mext_ret; try assumption.
  - destruct (class_is_dataclass c); apply mext_ret.
  - apply mext_bind; [ | intros; apply mext_ret ].
    destruct args; [ | now apply mext_mapM ].
    apply mext_bind; [ assumption | intros; apply mext_ret ].
  - unfold typeddict_validator.
    apply mext_bind; [ | intros; apply mext_ret ].
    apply mext_mapM. eapply Forall_impl; [ | exact H ].
    intros [k hint] Hk. apply mext_bind; [ exact Hk | intros; apply mext_ret ].
  - destruct values; apply mext_ret.
  - destruct (issubclass origin BCollection); [ apply mext_ret | ].
    destruct (pyclass_eqb origin Btype); apply mext_ret.
  - assert (Hfixed : forall l, Forall (fun t => mext (validator t)) l ->
                               mext (validators <- mapM validator l ;;
                                     ret (fixed_tuple_pred origin validators))).
    { intros l Hl. apply mext_bind; [ now apply mext_mapM | intros; apply mext_ret ]. }
    destruct (issubclass origin BCollection).
    + destruct args as [ | g0 rest].
      * destruct (issubclass origin BMapping); [ apply mext_raise | ].
        destruct (issubclass origin Btuple); [ apply mext_ret | ].
        apply mext_bind; [ assumption | intros; apply mext_ret ].
      * pose proof H as Hall. inversion H as [ | ? ? Hg0 Hrest]; subst.
        destruct (issubclass origin BMapping).
        { destruct rest as [ | val_type [ | ? ?]]; try apply mext_raise.
          inversion Hrest; subst.
          apply mext_bind; [ assumption | ]. intros kv.
          apply mext_bind; [ assumption | ]. intros vv. apply mext_ret. }
        destruct (issubclass origin Btuple).
        { destruct rest as [ | g1 [ | ? ?]].
          - destruct (is_unit g0); [ apply mext_ret | now apply Hfixed ].
          - destruct (is_ellipsis g1); [ | now apply Hfixed ].
            apply mext_bind; [ assumption | intros; apply mext_ret ].
          - now apply Hfixed. }
        apply mext_bind; [ assumption | intros; apply mext_ret ].
    + destruct (pyclass_eqb origin Btype); [ | apply mext_ret ].
      destruct args; apply mext_ret.
Qed.

(* ================================================================== *)
(** * The properties of the specification *)

(** ** Validation never raises (section 7) *)

Lemma validate_total : forall type_ value,
    well_formed type_ = true -> exists b, validate type_ value = Ok b.
Proof.
  intros t v Hwf. rewrite validate_denote by assumption. unfold denote_run.
  destruct (denote_total t Hwf) as [p [-> Hp]]. simpl. apply Hp.
Qed.

(** C7, as the code has it: for every type object that is well-formed
    in the sense of [well_formed] and every value, whatever its type,
    [validator(type_)(value)] evaluates to a boolean: neither the
    compilation nor the predicate raises. *)
Theorem validate_never_raises : forall type_ value,
    well_formed type_ = true -> exists b, validate type_ value = Ok b.
Proof.
  intros t v Hwf. now apply validate_total.
Qed.

Lemma validate_never_raises_witness :
  well_formed (TGeneric Bdict (Some [TClass Bstr; TGeneric Blist (Some [TClass Bint])])) = true
  /\ exists b, validate (TGeneric Bdict (Some [TClass Bstr; TGeneric Blist (Some [TClass Bint])]))
                        (VList [VStr "abc"]) = Ok b.
Proof.
  split; [ reflexivity | ].
  apply (validate_never_raises
           (TGeneric Bdict (Some [TClass Bstr; TGeneric Blist (Some [TClass Bint])]))
           (VList [VStr "abc"])).
  reflexivity.
Defined.

(** C7, as the specification states it, fails.  [Type[List[int]]] is a
    descriptor of the specification, a type bounded by a list of
    integers, and applied to the class [int] the validator calls
    [issubclass] with the alias as second argument, which raises
    [TypeError]: no boolean is returned. *)
Lemma validate_raises_on_alias_bound :
  validate (TGeneric Btype (Some [TGeneric Blist (Some [TClass Bint])])) (VType Bint)
  = Raise TypeError
  /\ ~ exists b,
        validate (TGeneric Btype (Some [TGeneric Blist (Some [TClass Bint])])) (VType Bint)
        = Ok b.
Proof. split; [ reflexivity | intros [b H]; discriminate H ]. Qed.

(** Other type objects outside [well_formed]: [dict[str]] does not even
    compile; [Callable[[int], int]] reaches the last line of
    [get_validator], where [isinstance] refuses the alias; and so does a
    [TypedDict] class derived from another one, which [is_typed_dict]
    does not recognise. *)
Example ill_formed_raises :
  validate (TGeneric Bdict (Some [TClass Bstr])) (VDict []) = Raise ValueError
  /\ validate (TGeneric (User {| uc_name := "Callable"; uc_bases := [];
                                  uc_dataclass := false |})
                         (Some [TClass Bint])) (VInt 1) = Raise TypeError
  /\ validate (TOpaque "DerivedTypedDict") (VDict []) = Raise TypeError.
Proof. repeat split; reflexivity. Qed.

(** ** Determinism and the cache (sections 4.4 and 8) *)

(** C8, as the code has it: for a well-formed type object, and in
    whatever order any other type objects, well-formed or not, have been
    compiled before, a call of [validator(type_)(value)] returns what it
    returns in a fresh process; the only effect of a call is to add
    entries to the cache, and compiling the same type object again
    yields a predicate that agrees with the first on every value. *)
Theorem validate_deterministic : forall c c' type_ value,
    well_formed type_ = true -> reachable c -> reachable c' ->
    run_validator type_ c value = validate type_ value
    /\ run_validator type_ c value = run_validator type_ c' value
    /\ (exists added, snd (validator type_ c) = added ++ c)
    /\ req (fst (validator type_ c))
           (fst (validator type_ (snd (validator type_ c)))).
Proof.
  intros c c' t v Hwf Hc Hc'.
  apply reachable_consistent in Hc. apply reachable_consistent in Hc'.
  repeat split.
  - rewrite validate_denote by assumption. now apply run_validator_denote.
  - now rewrite !run_validator_denote.
  - apply validator_extends.
  - destruct (validator_sound t Hwf Hc) as [H1 Hc1].
    destruct (validator_sound t Hwf Hc1) as [H2 _].
    exact (rrel_peq_trans _ _ _ H1 H2).
Qed.

Lemma validate_deterministic_witness :
  run_validator (TUnion [TClass Bint; TClass Bstr])
                (snd (validator (TGeneric Bdict (Some [TClass Bstr]))
                                (snd (validator (TUnion [TClass Bstr; TClass Bint]) []))))
                (VInt 3)
  = validate (TUnion [TClass Bint; TClass Bstr]) (VInt 3).
Proof.
  apply (validate_deterministic
           (c := snd (validator (TGeneric Bdict (Some [TClass Bstr]))
                                (snd (validator (TUnion [TClass Bstr; TClass Bint]) []))))
           (c' := []) (TUnion [TClass Bint; TClass Bstr]) (VInt 3)).
  - reflexivity.
  - apply reachable_step, reachable_step, reachable_empty.
  - apply reachable_empty.
Defined.

(** C8, as the specification states it, fails.  [Union[A, B]] and
    [Union[B, A]] are equal keys of [VALIDATORS], so the second to be
    compiled receives the predicate of the first, whose members are
    asked in the other order.  With [A] the type bounded by [int] and
    [B] the type bounded by a list of integers, the class [int] is
    accepted by [Union[A, B]] in a fresh process, and the same call
    raises once [Union[B, A]] has been compiled. *)
Lemma validate_order_dependent :
  let A := TGeneric Btype (Some [TClass Bint]) in
  let B := TGeneric Btype (Some [TGeneric Blist (Some [TClass Bint])]) in
  validate (TUnion [A; B]) (VType Bint) = Ok true
  /\ run_validator (TUnion [A; B]) (snd (validator (TUnion [B; A]) [])) (VType Bint)
     = Raise TypeError.
Proof. split; reflexivity. Qed.

(** ** Scalars (section 4.1, rule 10) *)

(** C5: [float] accepts every [int] and every [float]; [complex] accepts
    every [int], [float] and [complex]; [bool] rejects every integer
    that is not a boolean; and every class other than [float] and
    [complex] accepts exactly its instances. *)
Theorem scalar_widening : forall cls value,
    pyclass_eqb cls Bfloat = false -> pyclass_eqb cls Bcomplex = false ->
    (forall z, validate (TClass Bfloat) (VInt z) = Ok true)
    /\ (forall f, validate (TClass Bfloat) (VFloat f) = Ok true)
    /\ (forall z, validate (TClass Bcomplex) (VInt z) = Ok true)
    /\ (forall f, validate (TClass Bcomplex) (VFloat f) = Ok true)
    /\ (forall re im, validate (TClass Bcomplex) (VComplex re im) = Ok true)
    /\ (forall z, validate (TClass Bbool) (VInt z) = Ok false)
    /\ validate (TClass Bfloat) value
       = Ok (isinstance value Bint || isinstance value Bfloat)
    /\ validate (TClass Bcomplex) value
       = Ok (isinstance value Bint || isinstance value Bfloat || isinstance value Bcomplex)
    /\ validate (TClass cls) value = Ok (isinstance value cls).
Proof.
  intros cls v Hf Hc. repeat split; try reflexivity.
  - rewrite validate_denote by reflexivity. unfold denote_run. simpl.
    unfold scalar_pred, instance_any_pred, isinstance_any. simpl.
    now rewrite orb_false_r.
  - rewrite validate_denote by reflexivity. unfold denote_run. simpl.
    unfold scalar_pred, instance_any_pred, isinstance_any. simpl.
    now rewrite orb_false_r, orb_assoc.
  - rewrite validate_denote by reflexivity. unfold denote_run. simpl.
    destruct (class_is_dataclass cls); simpl; [ reflexivity | ].
    unfold scalar_pred. now rewrite Hc, Hf.
Qed.

Lemma scalar_widening_witness :
  validate (TClass Bbool) (VInt 1) = Ok (isinstance (VInt 1) Bbool).
Proof.
  apply (scalar_widening Bbool (VInt 1)); reflexivity.
Defined.

(** C10: a boolean is an instance of [int], so [int], [float] and
    [complex] accept [True] and [False], while [bool] rejects [1]. *)
Theorem bool_accepted_as_number : forall b,
    validate (TClass Bint) (VBool b) = Ok true
    /\ validate (TClass Bfloat) (VBool b) = Ok true
    /\ validate (TClass Bcomplex) (VBool b) = Ok true
    /\ validate (TClass Bbool) (VInt 1) = Ok false.
Proof. intros b. repeat split; reflexivity. Qed.

(** ** Literals (section 4.1, rule 5) *)

Lemma validate_literal_run : forall values value,
    well_formed (TLiteral values) = true ->
    validate (TLiteral values) value = Ok (existsb (py_eq_lit value) values).
Proof.
  intros values v Hwf. rewrite validate_denote by assumption.
  destruct values; [ discriminate | reflexivity ].
Qed.

Lemma literal_accepts : forall values value,
    well_formed (TLiteral values) = true ->
    validate (TLiteral values) value = Ok true
    <-> exists l, In l values /\ py_eq_lit value l = true.
Proof.
  intros values v Hwf. rewrite validate_literal_run by assumption.
  rewrite <- existsb_exists. split; [ now intros [= ->] | now intros -> ].
Qed.

(** C6: [Literal[...]] accepts a value exactly when the value is equal,
    with Python's [==] and whatever its type, to one of the constants;
    [Literal[1]] therefore accepts [True]. *)
Theorem literal_membership : forall values value,
    well_formed (TLiteral values) = true ->
    validate (TLiteral values) value = Ok (existsb (py_eq_lit value) values)
    /\ (validate (TLiteral values) value = Ok true
        <-> exists l, In l values /\ py_eq_lit value l = true)
    /\ validate (TLiteral [LInt 1]) (VBool true) = Ok true.
Proof.
  intros values v Hwf.
  assert (H : validate (TLiteral values) v = Ok (existsb (py_eq_lit v) values)).
  { rewrite validate_denote by assumption.
    destruct values; [ discriminate | reflexivity ]. }
  repeat split; try assumption.
  - rewrite H. intros [= Hex]. now apply existsb_exists in Hex.
  - intros Hex. rewrite H. f_equal. now apply existsb_exists.
Qed.

Lemma literal_membership_witness :
  validate (TLiteral [LStr "abc"; LStr "def"]) (VStr "def")
  = Ok (existsb (py_eq_lit (VStr "def")) [LStr "abc"; LStr "def"]).
Proof.
  apply (literal_membership [LStr "abc"; LStr "def"] (VStr "def")).
  reflexivity.
Defined.

(** [Literal[()]], which no type checker accepts, has no constant;
    [extract_generic] hands [((),)] to the membership test, which then
    accepts the empty tuple. *)
Example literal_without_constants :
  validate (TLiteral []) (VTuple []) = Ok true
  /\ validate (TLiteral []) (VStr "") = Ok false.
Proof. split; reflexivity. Qed.

(** ** Dataclasses (section 4.1, rule 9) *)

(** C9: for a dataclass [T], [validator(T)] is the instance check
    against [T]: it accepts exactly the instances of [T], rejects the
    class [T] itself, and its compilation is one cache lookup followed
    by at most one insertion, whatever the fields of [T] are;
    [dataclass_field_validators(T)] returns its table whenever the
    field annotations are well-formed, and [T] itself is a well-formed
    annotation of a field of [T]. *)
Theorem dataclass_nominal : forall u value c class_hints tables,
    uc_dataclass u = true ->
    Forall (fun kh : string * pytype => well_formed (snd kh) = true) (class_hints u) ->
    validate (TClass (User u)) value = Ok (isinstance value (User u))
    /\ validate (TClass (User u)) (VType (User u)) = Ok false
    /\ validator (TClass (User u)) c
       = match cache_get (TClass (User u)) c with
         | Some p => (Ok p, c)
         | None => (Ok (instance_pred (User u)),
                    (TClass (User u), instance_pred (User u)) :: c)
         end
    /\ well_formed (TClass (User u)) = true
    /\ exists table tables',
        fst (dataclass_field_validators class_hints u tables []) = Ok (table, tables').
Proof.
  intros u v c class_hints tables Hd Hwf.
  assert (Hv : forall x, validate (TClass (User u)) x = Ok (isinstance x (User u))).
  { intros x. rewrite validate_denote by reflexivity.
    unfold denote_run. simpl. now rewrite Hd. }
  repeat split.
  - apply Hv.
  - rewrite Hv. reflexivity.
  - simpl. rewrite Hd. unfold memo.
    destruct (cache_get (TClass (User u)) c); reflexivity.
  - unfold dataclass_field_validators.
    destruct (tables_get u tables) as [d | ]; [ simpl; eauto | ].
    assert (Hs : msound (Forall2 field_eq)
                   (mapM (fun kh : string * pytype =>
                            let (k, hint) := kh in
                            v <- validator hint ;; ret (k, v)) (class_hints u))
                   (mapR (fun kh : string * pytype =>
                            let (k, hint) := kh in
                            rbind (denote hint) (fun v => Ok (k, v))) (class_hints u))).
    { apply msound_mapM. eapply Forall_impl; [ | exact Hwf ].
      intros [k hint] Hk. simpl in Hk.
      eapply msound_bind; [ now apply validator_sound | ].
      intros p q Hpq. apply msound_ret. now split. }
    assert (Hok : exists ys, mapR (fun kh : string * pytype =>
                                     let (k, hint) := kh in
                                     rbind (denote hint) (fun v => Ok (k, v)))
                                  (class_hints u) = Ok ys).
    { apply mapR_ok. eapply Forall_impl; [ | exact Hwf ].
      intros [k hint] Hk. simpl in Hk.
      destruct (denote_total hint Hk) as [p [-> _]]. simpl. eauto. }
    destruct Hok as [ys Hys]. rewrite Hys in Hs.
    destruct (Hs [] consistent_nil) as [Hr _].
    unfold bind.
    destruct (mapM _ (class_hints u) []) as [[d | e] c'];
      simpl in Hr; [ | contradiction ].
    simpl. eauto.
Qed.

Lemma dataclass_nominal_witness :
  validate (TClass (User {| uc_name := "Node"; uc_bases := []; uc_dataclass := true |}))
           (VType (User {| uc_name := "Node"; uc_bases := []; uc_dataclass := true |}))
  = Ok false.
Proof.
  apply (dataclass_nominal
           {| uc_name := "Node"; uc_bases := []; uc_dataclass := true |}
           VNone []
           (fun u => [("next", TUnion [TClass (User u); TClass BNoneType])]) []).
  - reflexivity.
  - repeat constructor.
Defined.

(** A dataclass whose field refers to the class itself: the table of
    field validators is computed, and the validator of the field accepts
    [None] and an instance, and rejects the class object. *)
Example self_referential_dataclass :
  let node := {| uc_name := "Node"; uc_bases := []; uc_dataclass := true |} in
  let class_hints := fun u => [("next", TUnion [TClass (User u); TClass BNoneType])] in
  match fst (dataclass_field_validators class_hints node [] []) with
  | Ok ([(k, p)], _) =>
      k = "next" /\ p VNone = Ok true /\ p (VObject node []) = Ok true
      /\ p (VType (User node)) = Ok false
  | _ => False
  end.
Proof. simpl. repeat split; reflexivity. Qed.

(** ** Unions (section 4.1, rule 2) *)

Lemma validate_union_run : forall members value,
    forallb well_formed members = true ->
    validate (TUnion members) value = py_any (fun m => validate m value) members.
Proof.
  intros l v Hl. rewrite validate_denote by exact Hl.
  rewrite denote_union_run by now apply well_formed_compiles.
  apply py_any_ext. intros m Hm. symmetry. apply validate_denote.
  rewrite forallb_forall in Hl. now apply Hl.
Qed.

Lemma union_accepts : forall members value,
    forallb well_formed members = true ->
    validate (TUnion members) value = Ok true
    <-> exists m, In m members /\ validate m value = Ok true.
Proof.
  intros ms v Hwf. rewrite validate_union_run by assumption.
  apply py_any_true. intros m Hm. apply validate_total.
  rewrite forallb_forall in Hwf. now apply Hwf.
Qed.

(** C3: validating against [Union[a, b]] gives the disjunction of
    validating against [a] and against [b]; in general a union accepts a
    value exactly when one of its members does. *)
Theorem validate_union : forall a b members value,
    well_formed a = true -> well_formed b = true ->
    forallb well_formed members = true ->
    validate (TUnion [a; b]) value = py_or (validate a value) (validate b value)
    /\ (exists x y, validate a value = Ok x /\ validate b value = Ok y
                    /\ validate (TUnion [a; b]) value = Ok (x || y))
    /\ validate (TUnion members) value = py_any (fun m => validate m value) members
    /\ (validate (TUnion members) value = Ok true
        <-> exists m, In m members /\ validate m value = Ok true).
Proof.
  intros a b ms v Ha Hb Hms.
  assert (Hany : forall l, forallb well_formed l = true ->
                           validate (TUnion l) v = py_any (fun m => validate m v) l).
  { intros l Hl. rewrite validate_denote by exact Hl.
    rewrite denote_union_run by now apply well_formed_compiles.
    apply py_any_ext. intros m Hm. symmetry. apply validate_denote.
    rewrite forallb_forall in Hl. now apply Hl. }
  assert (Hab : validate (TUnion [a; b]) v = py_or (validate a v) (validate b v)).
  { rewrite Hany by (simpl; now rewrite Ha, Hb). simpl.
    destruct (validate a v) as [[ | ] | ]; simpl; try reflexivity.
    destruct (validate b v) as [[ | ] | ]; reflexivity. }
  repeat split.
  - exact Hab.
  - destruct (validate_total a v Ha) as [x Hx].
    destruct (validate_total b v Hb) as [y Hy].
    exists x, y. rewrite Hab, Hx, Hy. repeat split. now destruct x.
  - now apply Hany.
  - rewrite Hany by assumption. apply py_any_true.
    intros m Hm. apply validate_total.
    rewrite forallb_forall in Hms. now apply Hms.
  - rewrite Hany by assumption. apply py_any_true.
    intros m Hm. apply validate_total.
    rewrite forallb_forall in Hms. now apply Hms.
Qed.

Lemma validate_union_witness :
  validate (TUnion [TClass Bstr; TClass Bint]) (VInt 123)
  = py_or (validate (TClass Bstr) (VInt 123)) (validate (TClass Bint) (VInt 123)).
Proof.
  refine (proj1 (validate_union (TClass Bstr) (TClass Bint)
                                [TClass Bint; TClass BNoneType] (VInt 123) _ _ _));
    reflexivity.
Defined.

(** ** Tuples (section 4.2) *)

Lemma well_formed_not_marker : forall t,
    well_formed t = true -> is_unit t = false /\ is_ellipsis t = false.
Proof. destruct t; simpl; intros; try discriminate; auto. Qed.

Lemma zip_all_true : forall (ps : list pred) (items : list value),
    List.length items = List.length ps ->
    py_all (fun iv : entry_validator => snd iv (fst iv)) (combine items ps) = Ok true
    <-> Forall2 (fun x (p : pred) => p x = Ok true) items ps.
Proof.
  induction ps as [ | p ps IH]; intros [ | x items]; simpl; try discriminate.
  - intros _. split; [ constructor | reflexivity ].
  - intros [= Hlen]. specialize (IH items Hlen). split.
    + intros H. destruct (p x) as [[ | ] | e] eqn:Hx; simpl in H; try discriminate.
      constructor; [ assumption | now apply IH ].
    + intros H. inversion H as [ | ? ? ? ? Hx Hrest]; subst.
      rewrite Hx. simpl. now apply IH.
Qed.

Lemma fixed_tuple_pred_true : forall ps value,
    fixed_tuple_pred Btuple ps value = Ok true
    <-> isinstance value Btuple = true
        /\ exists items, py_iter value = Ok items
                         /\ List.length items = List.length ps
                         /\ Forall2 (fun x (p : pred) => p x = Ok true) items ps.
Proof.
  intros ps v. unfold fixed_tuple_pred.
  destruct (isinstance v Btuple) eqn:Hi; simpl.
  - destruct (isinstance_tuple _ _ Hi eq_refl) as [items ->]. simpl.
    destruct (Nat.eqb (List.length items) (List.length ps)) eqn:Hlen; simpl.
    + apply Nat.eqb_eq in Hlen. rewrite (zip_all_true _ _ Hlen). split.
      * intros H. split; [ reflexivity | ]. exists items. auto.
      * intros [_ [items' [[= <-] [_ H]]]]. exact H.
    + apply Nat.eqb_neq in Hlen. split; [ discriminate | ].
      intros [_ [items' [[= <-] [Hl _]]]]. contradiction.
  - split; [ discriminate | intros [[=] _] ].
Qed.

Lemma empty_tuple_pred_fixed : forall value,
    empty_tuple_pred Btuple value = fixed_tuple_pred Btuple [] value.
Proof.
  intros v. unfold empty_tuple_pred, fixed_tuple_pred.
  destruct v; try reflexivity. destruct items; reflexivity.
Qed.

Lemma denote_fixed_tuple : forall ds,
    forallb well_formed ds = true ->
    exists ps, Forall2 (fun d p => denote d = Ok p) ds ps
               /\ forall value, denote_run (TGeneric Btuple (Some ds)) value
                                = fixed_tuple_pred Btuple ps value.
Proof.
  intros ds Hwf.
  destruct (mapR_ok _ (well_formed_compiles _ Hwf)) as [ps Hps].
  exists ps. split; [ now apply mapR_Forall2 | ].
  intros v. unfold denote_run. simpl denote.
  destruct ds as [ | g0 [ | g1 [ | g2 rest]]].
  - simpl in Hps. injection Hps as <-. simpl. apply empty_tuple_pred_fixed.
  - simpl in Hwf. rewrite andb_true_r in Hwf.
    destruct (well_formed_not_marker _ Hwf) as [-> _].
    now rewrite Hps.
  - simpl in Hwf. apply andb_prop in Hwf as [_ Hwf].
    rewrite andb_true_r in Hwf.
    destruct (well_formed_not_marker _ Hwf) as [_ ->].
    now rewrite Hps.
  - now rewrite Hps.
Qed.

Lemma well_formed_fixed : forall ds,
    forallb well_formed ds = true ->
    well_formed (TGeneric Btuple (Some ds)) = true.
Proof.
  intros [ | g0 [ | g1 [ | g2 rest]]]; simpl; intros H; try reflexivity.
  - rewrite andb_true_r in H. rewrite H. apply orb_true_r.
  - apply andb_prop in H as [H0 H1]. rewrite andb_true_r in H1.
    rewrite H0, H1. simpl. apply orb_true_r.
  - exact H.
Qed.

Lemma items_pred_tuple_true : forall p value,
    items_pred Btuple p value = Ok true
    <-> isinstance value Btuple = true
        /\ exists items, py_iter value = Ok items
                         /\ Forall (fun x => p x = Ok true) items.
Proof.
  intros p v. unfold items_pred.
  destruct (isinstance v Btuple) eqn:Hi; simpl.
  - destruct (isinstance_tuple _ _ Hi eq_refl) as [items ->]. simpl.
    rewrite py_all_true. split.
    + intros H. split; [ reflexivity | ]. exists items.
      split; [ reflexivity | now apply Forall_forall ].
    + intros [_ [items' [[= <-] H]]]. now apply Forall_forall.
  - split; [ discriminate | intros [[=] _] ].
Qed.

Lemma empty_tuple_accepts : forall value,
    empty_tuple_pred Btuple value = Ok true
    <-> isinstance value Btuple = true /\ py_len value = Ok 0%nat.
Proof.
  intros v. unfold empty_tuple_pred. destruct v; simpl;
    try (split; [ discriminate | intros [[=] _] ]).
  destruct items; simpl; split; auto; try discriminate.
  intros [_ [=]].
Qed.

Lemma fixed_tuple_accepts : forall ds value,
    forallb well_formed ds = true ->
    validate (TGeneric Btuple (Some ds)) value = Ok true
    <-> isinstance value Btuple = true
        /\ exists items, py_iter value = Ok items
                         /\ List.length items = List.length ds
                         /\ Forall2 (fun item t => validate t item = Ok true) items ds.
Proof.
  intros ds v Hds.
  rewrite validate_denote by now apply well_formed_fixed.
  destruct (denote_fixed_tuple _ Hds) as [ps [Hps ->]].
  rewrite fixed_tuple_pred_true.
  assert (Hiff : forall items,
             Forall2 (fun x (p : pred) => p x = Ok true) items ps
             <-> Forall2 (fun item t => validate t item = Ok true) items ds).
  { clear - Hps Hds. revert Hds.
    induction Hps as [ | t p ds ps Htp _ IH]; intros Hds items.
    - split; intros H; inversion H; constructor.
    - simpl in Hds. apply andb_prop in Hds as [Ht Hds].
      split; intros H; inversion H as [ | x ? xs ? Hx Hxs]; subst;
        constructor; try (now apply IH).
      + rewrite validate_denote by assumption. unfold denote_run.
        now rewrite Htp.
      + rewrite validate_denote in Hx by assumption. unfold denote_run in Hx.
        now rewrite Htp in Hx. }
  rewrite (Forall2_length Hps).
  split; intros [Hi [items [Hit [Hlen H]]]]; (split; [ exact Hi | ]);
    exists items; repeat split; try assumption; now apply Hiff.
Qed.

Lemma variadic_tuple_accepts : forall d value,
    well_formed d = true ->
    validate (TGeneric Btuple (Some [d; TEllipsis])) value = Ok true
    <-> isinstance value Btuple = true
        /\ exists items, py_iter value = Ok items
                         /\ Forall (fun item => validate d item = Ok true) items.
Proof.
  intros d v Hd.
  rewrite validate_denote by (simpl; now rewrite Hd).
  unfold denote_run. simpl denote.
  destruct (denote_total d Hd) as [p [Hp _]]. rewrite Hp. simpl rbind.
  rewrite items_pred_tuple_true.
  assert (Hiff : forall x, p x = Ok true <-> validate d x = Ok true).
  { intros x. rewrite validate_denote by assumption.
    unfold denote_run. now rewrite Hp. }
  split; intros [Hi [items [Hit H]]]; (split; [ exact Hi | ]);
    exists items; split; try assumption;
    eapply Forall_impl; [ | exact H | | exact H ]; intros x; apply Hiff.
Qed.

(** C4: [Tuple[()]] accepts the empty tuple only; a tuple type with the
    member types [ds] accepts the tuples of that length whose items
    satisfy the member types position by position; [Tuple[d, ...]]
    accepts the tuples of any length whose items all satisfy [d]. *)
Theorem validate_tuple : forall ds d value,
    forallb well_formed ds = true -> well_formed d = true ->
    (validate (TGeneric Btuple (Some [TUnit])) value = Ok true
     <-> isinstance value Btuple = true /\ py_len value = Ok 0%nat)
    /\ (validate (TGeneric Btuple (Some [])) value = Ok true
        <-> isinstance value Btuple = true /\ py_len value = Ok 0%nat)
    /\ (validate (TGeneric Btuple (Some ds)) value = Ok true
        <-> isinstance value Btuple = true
            /\ exists items, py_iter value = Ok items
                             /\ List.length items = List.length ds
                             /\ Forall2 (fun item t => validate t item = Ok true) items ds)
    /\ (validate (TGeneric Btuple (Some [d; TEllipsis])) value = Ok true
        <-> isinstance value Btuple = true
            /\ exists items, py_iter value = Ok items
                             /\ Forall (fun item => validate d item = Ok true) items).
Proof.
  intros ds d v Hds Hd.
  split; [ | split; [ | split ] ].
  - rewrite validate_denote by reflexivity. apply empty_tuple_accepts.
  - rewrite validate_denote by reflexivity. apply empty_tuple_accepts.
  - now apply fixed_tuple_accepts.
  - now apply variadic_tuple_accepts.
Qed.

Lemma validate_tuple_witness :
  validate (TGeneric Btuple (Some [TClass Bint; TClass Bstr]))
           (VTuple [VInt 123; VStr "abc"]) = Ok true.
Proof.
  apply (validate_tuple [TClass Bint; TClass Bstr] (TClass Bint)
                        (VTuple [VInt 123; VStr "abc"])); try reflexivity.
  split; [ reflexivity | ].
  exists [VInt 123; VStr "abc"]. repeat split; repeat constructor.
Defined.

(** ** TypedDict (section 4.3) *)

Lemma py_eq_lit_str : forall v k, py_eq_lit v (LStr k) = true <-> v = VStr k.
Proof.
  intros v k. destruct v; simpl; try (split; discriminate).
  rewrite String.eqb_eq. split; congruence.
Qed.

Lemma has_key_true : forall (entries : list entry) k,
    existsb (fun kv => py_eq_lit (fst kv) (LStr k)) entries = true
    <-> exists x, In (VStr k, x) entries.
Proof.
  intros entries k. rewrite existsb_exists. split.
  - intros [[k' x] [Hin Heq]]. simpl in Heq. apply py_eq_lit_str in Heq.
    subst. eauto.
  - intros [x Hin]. exists (VStr k, x). split; [ assumption | ].
    now apply py_eq_lit_str.
Qed.

Lemma typeddict_pred_true : forall (is_total : bool) required validators value,
    (if is_total
     then typeddict_total_pred required validators
     else typeddict_open_pred required validators) value = Ok true
    <-> isinstance value BMapping = true
        /\ exists entries,
          py_items value = Ok entries
          /\ (forall k, In k required -> exists x, In (VStr k, x) entries)
          /\ (forall k x, In (k, x) entries ->
                          match field_get k validators with
                          | Some p => p x = Ok true
                          | None => is_total = false
                          end).
Proof.
  intros is_total rk vs v.
  assert (Hreq : forall entries,
             py_all (py_has_key (VDict entries)) rk = Ok true
             <-> forall k, In k rk -> exists x, In (VStr k, x) entries).
  { intros entries. rewrite py_all_true. simpl.
    split; intros H k Hk; specialize (H k Hk).
    - injection H as H. now apply has_key_true.
    - f_equal. now apply has_key_true. }
  assert (Hitems : forall entries,
             py_all (fun kv : entry =>
                       let (k, x) := kv in
                       match field_get k vs with
                       | Some validate_k => validate_k x
                       | None => Ok (negb is_total)
                       end) entries = Ok true
             <-> forall k x, In (k, x) entries ->
                             match field_get k vs with
                             | Some p => p x = Ok true
                             | None => is_total = false
                             end).
  { intros entries. rewrite py_all_true.
    split.
    - intros H k x Hin. specialize (H (k, x) Hin). simpl in H.
      destruct (field_get k vs); [ assumption | ].
      injection H as H. now destruct is_total.
    - intros H [k x] Hin. specialize (H k x Hin).
      destruct (field_get k vs); [ assumption | ]. now subst. }
  assert (Hbody : (if is_total
                   then typeddict_total_pred rk vs
                   else typeddict_open_pred rk vs) v
                  = py_and (Ok (isinstance v BMapping))
                      (py_and (py_all (py_has_key v) rk)
                         (rbind (py_items v)
                            (py_all (fun kv : entry =>
                                       let (k, x) := kv in
                                       match field_get k vs with
                                       | Some validate_k => validate_k x
                                       | None => Ok (negb is_total)
                                       end))))).
  { destruct is_total; reflexivity. }
  rewrite Hbody. clear Hbody.
  destruct (isinstance v BMapping) eqn:Hi; simpl.
  - destruct (isinstance_mapping _ _ Hi eq_refl) as [entries ->].
    simpl py_items. simpl rbind. split.
    + intros H. split; [ reflexivity | ]. exists entries.
      destruct (py_all (py_has_key (VDict entries)) rk) as [[ | ] | e] eqn:Hk;
        simpl in H; try discriminate.
      repeat split; [ now apply Hreq | now apply Hitems ].
    + intros [_ [entries' [[= <-] [H1 H2]]]].
      apply Hreq in H1. rewrite H1. simpl. now apply Hitems.
  - split; [ discriminate | intros [[=] _] ].
Qed.

Lemma typeddict_validators : forall hints,
    forallb (fun kh : string * annotated pytype =>
               let (_, hint) := kh in well_formed (strip_extras hint)) hints = true ->
    exists validators,
      mapR (fun kh : string * annotated pytype =>
              let (k, hint) := kh in
              rbind (denote (strip_extras hint)) (fun v => Ok (k, v))) hints
      = Ok validators
      /\ Forall2 (fun (kt : string * pytype) (kv : string * pred) =>
                    fst kt = fst kv /\ denote (snd kt) = Ok (snd kv))
                 (get_type_hints hints) validators.
Proof.
  induction hints as [ | [k hint] hints IH]; simpl; intros Hwf.
  - exists []. split; [ reflexivity | constructor ].
  - apply andb_prop in Hwf as [Hk Hrest].
    destruct (denote_total _ Hk) as [p [Hp _]].
    destruct (IH Hrest) as [vs [Hvs H2]].
    rewrite Hp. simpl. rewrite Hvs. simpl.
    exists ((k, p) :: vs). split; [ reflexivity | ].
    constructor; [ now split | exact H2 ].
Qed.

Lemma dict_get_compiled : forall (types : list (string * pytype))
                                 (validators : list (string * pred)) s,
    Forall2 (fun kt kv => fst kt = fst kv /\ denote (snd kt) = Ok (snd kv))
            types validators ->
    match dict_get s types, dict_get s validators with
    | Some t, Some p => denote t = Ok p
    | None, None => True
    | _, _ => False
    end.
Proof.
  intros types vs s H.
  induction H as [ | [k t] [k' p] types vs [Hk Hd] _ IH]; simpl; [ exact I | ].
  simpl in Hk, Hd. subst k'.
  destruct (dict_get s types), (dict_get s vs); try contradiction; try assumption.
  destruct (String.eqb s k); [ assumption | exact I ].
Qed.

Lemma well_formed_field : forall hints s t,
    forallb (fun kh : string * annotated pytype =>
               let (_, hint) := kh in well_formed (strip_extras hint)) hints = true ->
    dict_get s (get_type_hints hints) = Some t -> well_formed t = true.
Proof.
  intros hints s t Hwf Hget. apply dict_get_In in Hget.
  unfold get_type_hints in Hget. apply in_map_iff in Hget as [[k h] [[= <- <-] Hin]].
  rewrite forallb_forall in Hwf. exact (Hwf _ Hin).
Qed.

(** The verdict of a [TypedDict], closed or open, in terms of its
    annotations. *)
Lemma validate_typeddict : forall name (is_total : bool) hints value,
    well_formed (TTypedDict name is_total hints) = true ->
    validate (TTypedDict name is_total hints) value = Ok true
    <-> isinstance value BMapping = true
        /\ exists entries,
          py_items value = Ok entries
          /\ (forall k, In k (required_keys hints) -> exists x, In (VStr k, x) entries)
          /\ (forall k x, In (k, x) entries ->
                          match field_get k (get_type_hints hints) with
                          | Some t => validate t x = Ok true
                          | None => is_total = false
                          end).
Proof.
  intros name is_total hints v Hwf.
  rewrite validate_denote by exact Hwf. simpl in Hwf.
  destruct (typeddict_validators _ Hwf) as [vs [Hvs H2]].
  unfold denote_run. simpl denote.
  unfold typeddict_denote. rewrite Hvs. simpl rbind.
  rewrite typeddict_pred_true.
  assert (Hfield : forall k x,
             match field_get k vs with
             | Some p => p x = Ok true
             | None => is_total = false
             end
             <-> match field_get k (get_type_hints hints) with
                 | Some t => validate t x = Ok true
                 | None => is_total = false
                 end).
  { intros k x. destruct k; simpl; try tauto.
    pose proof (dict_get_compiled s H2) as Hs.
    destruct (dict_get s (get_type_hints hints)) as [t | ] eqn:Hget,
        (dict_get s vs) as [p | ]; try contradiction; try tauto.
    rewrite validate_denote
      by (eapply well_formed_field; [ exact Hwf | eassumption ]).
    unfold denote_run. rewrite Hs. simpl. tauto. }
  split; intros [Hi [entries [Hit [Hreq Hall]]]]; (split; [ exact Hi | ]);
    exists entries; repeat split; try assumption;
    intros k x Hin; apply Hfield; now apply Hall.
Qed.

Lemma dict_get_of_In (B : Type) (k : string) (b : B) (d : list (string * B)) :
  In (k, b) d -> exists b', dict_get k d = Some b'.
Proof.
  induction d as [ | [k' b''] d IH]; simpl; [ intros [] | ].
  intros [[= -> ->] | Hin].
  - destruct (dict_get k d); [ eauto | ]. rewrite String.eqb_refl. eauto.
  - destruct (IH Hin) as [b' ->]. eauto.
Qed.

Lemma required_declared : forall hints k,
    In k (required_keys hints) ->
    exists t, dict_get k (get_type_hints hints) = Some t.
Proof.
  intros hints k Hin. unfold required_keys in Hin.
  apply in_map_iff in Hin as [[k' h] [Hk Hin]]. simpl in Hk. subst k'.
  apply filter_In in Hin as [Hin _].
  apply (dict_get_of_In k (strip_extras h)).
  unfold get_type_hints. apply in_map_iff. exists (k, h). auto.
Qed.

(** The keys that [typeddict_validator] requires are the fields whose
    annotation is marked [Required], and no others. *)
Lemma required_keys_marked : forall hints k,
    In k (required_keys hints) <-> exists t, In (k, Required t) hints.
Proof.
  intros hints k. unfold required_keys. rewrite in_map_iff. split.
  - intros [[k' h] [Hk Hin]]. simpl in Hk. subst k'.
    apply filter_In in Hin as [Hin Hr].
    destruct h; try discriminate. eauto.
  - intros [t Hin]. exists (k, Required t). split; [ reflexivity | ].
    apply filter_In. split; [ assumption | reflexivity ].
Qed.

(** C1: a total [TypedDict] accepts a value exactly when the value is a
    mapping, holds every key whose annotation is marked [Required], and
    every key it holds is an annotated field whose value satisfies the
    annotation.  A mapping that lacks a [Required] key is rejected, and
    so is one that holds a key that is not annotated; a field that is
    not marked [Required] may be missing, so without [Required] fields
    the empty mapping is accepted. *)
Theorem typeddict_closed : forall name hints value,
    well_formed (TTypedDict name true hints) = true ->
    (validate (TTypedDict name true hints) value = Ok true
     <-> isinstance value BMapping = true
         /\ exists entries,
           py_items value = Ok entries
           /\ (forall k t, In (k, Required t) hints ->
                           exists x, In (VStr k, x) entries)
           /\ (forall k x, In (k, x) entries ->
                           exists t, field_get k (get_type_hints hints) = Some t
                                     /\ validate t x = Ok true))
    /\ (forall entries k t,
           value = VDict entries -> In (k, Required t) hints ->
           (forall x, ~ In (VStr k, x) entries) ->
           validate (TTypedDict name true hints) value = Ok false)
    /\ (forall entries k x,
           value = VDict entries -> In (k, x) entries ->
           field_get k (get_type_hints hints) = None ->
           validate (TTypedDict name true hints) value = Ok false)
    /\ ((forall k t, ~ In (k, Required t) hints) ->
        validate (TTypedDict name true hints) (VDict []) = Ok true).
Proof.
  intros name hints v Hwf.
  assert (Hiff : forall w,
             validate (TTypedDict name true hints) w = Ok true
             <-> isinstance w BMapping = true
                 /\ exists entries,
                   py_items w = Ok entries
                   /\ (forall k t, In (k, Required t) hints ->
                                   exists x, In (VStr k, x) entries)
                   /\ (forall k x, In (k, x) entries ->
                                   exists t, field_get k (get_type_hints hints) = Some t
                                             /\ validate t x = Ok true)).
  { intros w. rewrite (validate_typeddict name true hints w Hwf).
    split; intros [Hi [entries [Hit [Hreq Hall]]]]; (split; [ exact Hi | ]);
      exists entries; (split; [ exact Hit | split ]).
    - intros k t Hk. apply Hreq. apply required_keys_marked. eauto.
    - intros k x Hin. specialize (Hall k x Hin).
      destruct (field_get k (get_type_hints hints)) as [t | ];
        [ eauto | discriminate ].
    - intros k Hk. apply required_keys_marked in Hk as [t Hk]. eauto.
    - intros k x Hin. destruct (Hall k x Hin) as [t [-> Ht]]. exact Ht. }
  split; [ apply Hiff | split; [ | split ] ].
  - intros entries k t -> Hin Hmissing.
    destruct (validate_total _ (VDict entries) Hwf) as [[ | ] Hb];
      [ | exact Hb ].
    apply Hiff in Hb as [_ [entries' [[= <-] [Hreq _]]]].
    destruct (Hreq k t Hin) as [x Hx]. now destruct (Hmissing x).
  - intros entries k x -> Hin Hnone.
    destruct (validate_total _ (VDict entries) Hwf) as [[ | ] Hb];
      [ | exact Hb ].
    apply Hiff in Hb as [_ [entries' [[= <-] [_ Hall]]]].
    destruct (Hall k x Hin) as [t [Ht _]]. congruence.
  - intros Hnone. apply Hiff. split; [ reflexivity | ].
    exists []. split; [ reflexivity | split ].
    + intros k t Hk. now destruct (Hnone k t).
    + intros k x [].
Qed.

Lemma typeddict_closed_witness :
  validate (TTypedDict "TypedDictTotal" true
                       [("name", Required (TClass Bstr)); ("version", Bare (TClass Bstr))])
           (VDict [(VStr "version", VStr "1.0")])
  = Ok false.
Proof.
  refine (proj1 (proj2 (typeddict_closed
                          "TypedDictTotal"
                          [("name", Required (TClass Bstr)); ("version", Bare (TClass Bstr))]
                          (VDict [(VStr "version", VStr "1.0")])
                          _))
                _ "name" (TClass Bstr) _ _ _).
  - reflexivity.
  - reflexivity.
  - simpl. auto.
  - intros x [H | []]. discriminate H.
Defined.

(** C2: a non-total [TypedDict] accepts a value exactly when the value
    is a mapping, holds every key whose annotation is marked [Required],
    and the value of every key that is an annotated field satisfies the
    annotation.  A mapping that lacks a [Required] key is rejected; a
    key that is not annotated does not change the verdict. *)
Theorem typeddict_open : forall name hints value,
    well_formed (TTypedDict name false hints) = true ->
    (validate (TTypedDict name false hints) value = Ok true
     <-> isinstance value BMapping = true
         /\ exists entries,
           py_items value = Ok entries
           /\ (forall k t, In (k, Required t) hints ->
                           exists x, In (VStr k, x) entries)
           /\ (forall k x t, In (k, x) entries ->
                             field_get k (get_type_hints hints) = Some t ->
                             validate t x = Ok true))
    /\ (forall entries k t,
           value = VDict entries -> In (k, Required t) hints ->
           (forall x, ~ In (VStr k, x) entries) ->
           validate (TTypedDict name false hints) value = Ok false)
    /\ (forall entries k x,
           value = VDict entries ->
           field_get k (get_type_hints hints) = None ->
           validate (TTypedDict name false hints) (VDict ((k, x) :: entries))
           = validate (TTypedDict name false hints) value).
Proof.
  intros name hints v Hwf.
  assert (Hiff : forall w,
             validate (TTypedDict name false hints) w = Ok true
             <-> isinstance w BMapping = true
                 /\ exists entries,
                   py_items w = Ok entries
                   /\ (forall k t, In (k, Required t) hints ->
                                   exists x, In (VStr k, x) entries)
                   /\ (forall k x t, In (k, x) entries ->
                                     field_get k (get_type_hints hints) = Some t ->
                                     validate t x = Ok true)).
  { intros w. rewrite (validate_typeddict name false hints w Hwf).
    split; intros [Hi [entries [Hit [Hreq Hall]]]]; (split; [ exact Hi | ]);
      exists entries; (split; [ exact Hit | split ]).
    - intros k t Hk. apply Hreq. apply required_keys_marked. eauto.
    - intros k x t Hin Ht. specialize (Hall k x Hin). now rewrite Ht in Hall.
    - intros k Hk. apply required_keys_marked in Hk as [t Hk]. eauto.
    - intros k x Hin. specialize (Hall k x).
      destruct (field_get k (get_type_hints hints)) as [t | ]; auto. }
  split; [ apply Hiff | split ].
  - intros entries k t -> Hin Hmissing.
    destruct (validate_total _ (VDict entries) Hwf) as [[ | ] Hb];
      [ | exact Hb ].
    apply Hiff in Hb as [_ [entries' [[= <-] [Hreq _]]]].
    destruct (Hreq k t Hin) as [x Hx]. now destruct (Hmissing x).
  - intros entries k x -> Hnone.
    destruct (validate_total _ (VDict ((k, x) :: entries)) Hwf) as [b Hb].
    destruct (validate_total _ (VDict entries) Hwf) as [b' Hb'].
    rewrite Hb, Hb'. f_equal.
    apply eq_true_iff_eq.
    assert (Hb1 : b = true <-> validate (TTypedDict name false hints)
                                        (VDict ((k, x) :: entries)) = Ok true)
      by (rewrite Hb; split; congruence).
    assert (Hb2 : b' = true <-> validate (TTypedDict name false hints)
                                         (VDict entries) = Ok true)
      by (rewrite Hb'; split; congruence).
    rewrite Hb1, Hb2, !Hiff. clear Hb Hb' Hb1 Hb2.
    split; intros [_ [es [[= <-] [Hreq Hall]]]]; (split; [ reflexivity | ]).
    + exists entries. repeat split.
      * intros r t Hr. destruct (Hreq r t Hr) as [y [[= -> ->] | Hy]]; [ | eauto ].
        assert (Hk : In r (required_keys hints))
          by (apply required_keys_marked; eauto).
        destruct (required_declared _ _ Hk) as [t' Ht']. simpl in Hnone. congruence.
      * intros k' x' t Hin. apply Hall. now right.
    + exists ((k, x) :: entries). repeat split.
      * intros r t Hr. destruct (Hreq r t Hr) as [y Hy]. exists y. now right.
      * intros k' x' t [[= <- <-] | Hin] Ht; [ congruence | eauto ].
Qed.

Lemma typeddict_open_witness :
  validate (TTypedDict "TypedDictReq" false
                       [("name", Required (TClass Bstr)); ("version", Bare (TClass Bstr))])
           (VDict [(VStr "extra", VInt 123)])
  = Ok false.
Proof.
  refine (proj1 (proj2 (typeddict_open
                          "TypedDictReq"
                          [("name", Required (TClass Bstr)); ("version", Bare (TClass Bstr))]
                          (VDict [(VStr "extra", VInt 123)]) _))
                _ "name" (TClass Bstr) _ _ _).
  - reflexivity.
  - reflexivity.
  - simpl. auto.
  - intros x [H | []]. discriminate H.
Defined.

(* ================================================================== *)
(** * Further properties of [validate.py] *)

(** ** A type object is equal to itself *)

Lemma builtin_eqb_refl : forall b, builtin_eqb b b = true.
Proof. destruct b; reflexivity. Qed.

Lemma userclass_eqb_refl : forall u, userclass_eqb u u = true.
Proof.
  intros u. unfold userclass_eqb. rewrite String.eqb_refl, Bool.eqb_reflx.
  now destruct (list_eq_dec string_dec (uc_bases u) (uc_bases u)).
Qed.

Lemma pyclass_eqb_refl : forall c, pyclass_eqb c c = true.
Proof.
  intros [b | u]; simpl; [ apply builtin_eqb_refl | apply userclass_eqb_refl ].
Qed.

Lemma lit_eqb_refl : forall l, lit_eqb l l = true.
Proof.
  destruct l; simpl; auto using Bool.eqb_reflx, Z.eqb_refl, String.eqb_refl.
  now destruct (list_eq_dec Byte.byte_eq_dec bs bs).
Qed.

Lemma list_eqb_refl (A : Type) (eqb : A -> A -> bool) (xs : list A) :
  Forall (fun x => eqb x x = true) xs -> list_eqb eqb xs xs = true.
Proof.
  induction 1 as [ | x xs Hx _ IH]; simpl; [ reflexivity | ].
  now rewrite Hx, IH.
Qed.

Lemma pytype_eqb_refl : forall t, pytype_eqb t t = true.
Proof.
  induction t using pytype_induction; simpl;
    auto using pyclass_eqb_refl, list_eqb_refl, String.eqb_refl.
  - rewrite String.eqb_refl, Bool.eqb_reflx. simpl.
    apply list_eqb_refl. eapply Forall_impl; [ | exact H ].
    intros [k h] Hk. rewrite String.eqb_refl. simpl.
    destruct h; exact Hk.
  - now rewrite String.eqb_refl.
  - apply list_eqb_refl. apply Forall_forall. intros l _. apply lit_eqb_refl.
  - now rewrite pyclass_eqb_refl.
  - rewrite pyclass_eqb_refl. simpl. now apply list_eqb_refl.
Qed.

Lemma set_eqb_refl (A : Type) (eqb : A -> A -> bool) (xs : list A) :
  Forall (fun x => eqb x x = true) xs ->
  forallb (fun x => existsb (eqb x) xs) xs
  && forallb (fun y => existsb (fun x => eqb x y) xs) xs = true.
Proof.
  intros H. rewrite Forall_forall in H.
  apply andb_true_intro. split; apply forallb_forall; intros x Hx;
    apply existsb_exists; exists x; auto.
Qed.

Lemma key_eqb_refl : forall t, key_eqb t t = true.
Proof.
  induction t using pytype_induction;
    try (exact (pytype_eqb_refl _)).
  - simpl. now apply set_eqb_refl.
  - simpl. apply set_eqb_refl. apply Forall_forall. intros l _. apply lit_eqb_refl.
  - simpl. now rewrite pyclass_eqb_refl.
  - simpl. rewrite pyclass_eqb_refl. simpl. now apply list_eqb_refl.
Qed.

(** ** The cache answers the second call *)

Lemma validator_memo : forall type_,
    exists get_validator, validator type_ = memo type_ get_validator.
Proof. destruct type_; eexists; reflexivity. Qed.

(** X1: once [validator(type_)] has returned a predicate, the next call
    with the same type object returns that very predicate and leaves
    [VALIDATORS] as it is: nothing is compiled twice. *)
Theorem validator_cached : forall type_ c p,
    fst (validator type_ c) = Ok p ->
    validator type_ (snd (validator type_ c))
    = (Ok p, snd (validator type_ c)).
Proof.
  intros t c p. destruct (validator_memo t) as [g ->]. unfold memo.
  destruct (cache_get t c) as [q | ] eqn:Hget; simpl.
  - intros [= ->]. now rewrite Hget.
  - destruct (g c) as [[q | e] c'] eqn:Hg; simpl; [ | discriminate ].
    intros [= ->]. now rewrite key_eqb_refl.
Qed.

Lemma validator_cached_witness :
  snd (validator (TGeneric Blist (Some [TClass Bint]))
                 (snd (validator (TGeneric Blist (Some [TClass Bint])) [])))
  = snd (validator (TGeneric Blist (Some [TClass Bint])) []).
Proof.
  exact (f_equal snd (validator_cached (TGeneric Blist (Some [TClass Bint])) []
                                       eq_refl)).
Defined.

(** ** [Any], [NewType] and [InitVar] *)

(** X2: [Any] accepts every value, and so does every union of
    well-formed members that has [Any] among them, whatever the other
    members are and wherever [Any] stands. *)
Theorem any_accepts : forall members value,
    forallb well_formed members = true -> In TAny members ->
    validate TAny value = Ok true
    /\ validate (TUnion members) value = Ok true.
Proof.
  intros ms v Hwf Hin. split; [ reflexivity | ].
  apply union_accepts; [ assumption | ].
  exists TAny. split; [ assumption | reflexivity ].
Qed.

Lemma any_accepts_witness :
  validate (TUnion [TClass Bint; TAny]) (VStr "abc") = Ok true.
Proof.
  apply (any_accepts [TClass Bint; TAny] (VStr "abc")).
  - reflexivity.
  - simpl. auto.
Defined.

(** X3: a [NewType] validates as its supertype and [InitVar[X]] as [X].
    On the bare [InitVar] the attribute [type] is the member descriptor
    of the slot, so the fallback to [Any] of [extract_init_var] is not
    taken: the descriptor is no class, and validation raises [TypeError]
    on every value. *)
Theorem wrappers_transparent : forall name supertype value,
    well_formed supertype = true ->
    validate (TNewType name supertype) value = validate supertype value
    /\ validate (TInitVar (Some supertype)) value = validate supertype value
    /\ validate (TInitVar None) value = Raise TypeError.
Proof.
  intros name s v Hwf. split; [ | split ].
  - now rewrite !validate_denote.
  - now rewrite !validate_denote.
  - reflexivity.
Qed.

Lemma wrappers_transparent_witness :
  validate (TNewType "UserId" (TClass Bint)) (VStr "7")
  = validate (TClass Bint) (VStr "7").
Proof.
  apply (wrappers_transparent "UserId" (TClass Bint) (VStr "7")).
  reflexivity.
Defined.

(** ** Containers *)

Lemma items_pred_true : forall origin p value,
    items_pred origin p value = Ok true
    <-> isinstance value origin = true
        /\ exists items, py_iter value = Ok items
                         /\ Forall (fun x => p x = Ok true) items.
Proof.
  intros origin p v. unfold items_pred.
  destruct (isinstance v origin); simpl.
  - destruct (py_iter v) as [items | e]; simpl.
    + rewrite py_all_true. split.
      * intros H. split; [ reflexivity | ]. exists items.
        split; [ reflexivity | now apply Forall_forall ].
      * intros [_ [items' [[= <-] H]]]. now apply Forall_forall.
    + split; [ discriminate | intros [_ [items [[=] _]]] ].
  - split; [ discriminate | intros [[=] _] ].
Qed.

Lemma validate_elem : forall t p x,
    well_formed t = true -> denote t = Ok p -> validate t x = p x.
Proof.
  intros t p x Hwf Hp. rewrite validate_denote by assumption.
  unfold denote_run. now rewrite Hp.
Qed.

Lemma validate_collection_run : forall origin t value,
    issubclass origin BCollection = true ->
    issubclass origin BMapping = false ->
    issubclass origin Btuple = false ->
    well_formed t = true ->
    exists p, denote t = Ok p
              /\ validate (TGeneric origin (Some [t])) value = items_pred origin p value.
Proof.
  intros origin t v Hc Hm Ht Hwf.
  destruct (denote_total t Hwf) as [p [Hp _]]. exists p. split; [ assumption | ].
  rewrite validate_denote by (simpl; now rewrite Hc, Hm, Ht).
  unfold denote_run. simpl. now rewrite Hc, Hm, Ht, Hp.
Qed.

Lemma collection_accepts : forall origin t value,
    issubclass origin BCollection = true ->
    issubclass origin BMapping = false ->
    issubclass origin Btuple = false ->
    well_formed t = true ->
    validate (TGeneric origin (Some [t])) value = Ok true
    <-> isinstance value origin = true
        /\ exists items, py_iter value = Ok items
                         /\ Forall (fun x => validate t x = Ok true) items.
Proof.
  intros origin t v Hc Hm Ht Hwf.
  destruct (validate_collection_run origin t v Hc Hm Ht Hwf) as [p [Hp ->]].
  rewrite items_pred_true.
  split; intros [Hi [items [Hit H]]]; (split; [ exact Hi | ]);
    exists items; (split; [ exact Hit | ]);
    (eapply Forall_impl; [ | exact H ]); intros x Hx.
  - now rewrite (@validate_elem t p x Hwf Hp).
  - now rewrite <- (@validate_elem t p x Hwf Hp).
Qed.

(** X4: for a well-formed [T], [List[T]], [Set[T]], [FrozenSet[T]],
    [Sequence[T]] and the like accept a value exactly when it is an
    instance of the container class and every item that iterating over
    it yields satisfies [T]. *)
Theorem validate_collection : forall origin t value,
    issubclass origin BCollection = true ->
    issubclass origin BMapping = false ->
    issubclass origin Btuple = false ->
    well_formed t = true ->
    validate (TGeneric origin (Some [t])) value = Ok true
    <-> isinstance value origin = true
        /\ exists items, py_iter value = Ok items
                         /\ Forall (fun x => validate t x = Ok true) items.
Proof.
  intros origin t v Hc Hm Ht Hwf. now apply collection_accepts.
Qed.

Lemma validate_collection_witness :
  validate (TGeneric Blist (Some [TClass Bstr])) (VList [VStr "abc"; VStr "def"])
  = Ok true.
Proof.
  apply (validate_collection Blist (TClass Bstr) (VList [VStr "abc"; VStr "def"]));
    try reflexivity.
  split; [ reflexivity | ].
  exists [VStr "abc"; VStr "def"]. split; [ reflexivity | ].
  repeat constructor.
Defined.

(** X5: for a well-formed [T], the verdict of [List[T]] on a list and of
    [Set[T]] on a set depends on the items it holds only: their order
    and their multiplicity are not looked at. *)
Theorem collection_order_irrelevant : forall t items items',
    well_formed t = true ->
    (forall x, In x items <-> In x items') ->
    validate (TGeneric Blist (Some [t])) (VList items)
    = validate (TGeneric Blist (Some [t])) (VList items')
    /\ validate (TGeneric Bset (Some [t])) (VSet items)
       = validate (TGeneric Bset (Some [t])) (VSet items').
Proof.
  intros t l l' Hwf Hsame.
  assert (Hgen : forall origin v v',
             issubclass origin BCollection = true ->
             issubclass origin BMapping = false ->
             issubclass origin Btuple = false ->
             isinstance v origin = true -> isinstance v' origin = true ->
             py_iter v = Ok l -> py_iter v' = Ok l' ->
             validate (TGeneric origin (Some [t])) v
             = validate (TGeneric origin (Some [t])) v').
  { intros origin v v' Hc Hm Ht Hi Hi' Hl Hl'.
    assert (Hw : well_formed (TGeneric origin (Some [t])) = true)
      by (simpl; now rewrite Hc, Hm, Ht).
    destruct (validate_total _ v Hw) as [b Hb].
    destruct (validate_total _ v' Hw) as [b' Hb'].
    rewrite Hb, Hb'. f_equal. apply eq_true_iff_eq.
    assert (E : b = true <-> validate (TGeneric origin (Some [t])) v = Ok true)
      by (rewrite Hb; split; congruence).
    assert (E' : b' = true <-> validate (TGeneric origin (Some [t])) v' = Ok true)
      by (rewrite Hb'; split; congruence).
    rewrite E, E', !collection_accepts by assumption.
    split; intros [_ [xs [Hxs H]]]; (split; [ assumption | ]).
    - exists l'. split; [ assumption | ].
      rewrite Hl in Hxs. injection Hxs as <-.
      rewrite Forall_forall in *. intros x Hx. apply H. now apply Hsame.
    - exists l. split; [ assumption | ].
      rewrite Hl' in Hxs. injection Hxs as <-.
      rewrite Forall_forall in *. intros x Hx. apply H. now apply Hsame. }
  split; apply Hgen; reflexivity.
Qed.

Lemma collection_order_irrelevant_witness :
  validate (TGeneric Blist (Some [TClass Bint])) (VList [VInt 1; VInt 2; VInt 1])
  = validate (TGeneric Blist (Some [TClass Bint])) (VList [VInt 2; VInt 1]).
Proof.
  apply (collection_order_irrelevant (TClass Bint)
                                     [VInt 1; VInt 2; VInt 1] [VInt 2; VInt 1]).
  - reflexivity.
  - intros x. simpl. tauto.
Defined.

(** X6: a string is a sequence whose items are strings, and a bytes
    object a sequence whose items are integers: [Sequence[str]] accepts
    every string and [Sequence[int]] every bytes object, while
    [List[str]] rejects every string. *)
Theorem strings_are_sequences : forall s bs,
    validate (TGeneric BSequence (Some [TClass Bstr])) (VStr s) = Ok true
    /\ validate (TGeneric BSequence (Some [TClass Bint])) (VBytes bs) = Ok true
    /\ validate (TGeneric Blist (Some [TClass Bstr])) (VStr s) = Ok false.
Proof.
  intros s bs. repeat split.
  - apply collection_accepts; try reflexivity.
    split; [ reflexivity | ]. eexists. split; [ reflexivity | ].
    apply Forall_forall. intros x Hx. apply in_map_iff in Hx as [c [<- _]].
    reflexivity.
  - apply collection_accepts; try reflexivity.
    split; [ reflexivity | ]. eexists. split; [ reflexivity | ].
    apply Forall_forall. intros x Hx. apply in_map_iff in Hx as [c [<- _]].
    reflexivity.
Qed.

(** X7: a bare alias ([typing.List], [typing.Dict], [typing.Tuple], ...)
    checks the container class and nothing else, so it accepts whatever
    a well-formed alias with arguments over the same class accepts. *)
Theorem bare_alias_accepts : forall origin args value,
    issubclass origin BCollection = true ->
    well_formed (TGeneric origin (Some args)) = true ->
    validate (TGeneric origin None) value = Ok (isinstance value origin)
    /\ (validate (TGeneric origin (Some args)) value = Ok true ->
        validate (TGeneric origin None) value = Ok true).
Proof.
  intros origin args v Hc Hwf.
  assert (Hbare : validate (TGeneric origin None) v = Ok (isinstance v origin)).
  { rewrite validate_denote by reflexivity.
    unfold denote_run. simpl. now rewrite Hc. }
  split; [ exact Hbare | ].
  rewrite Hbare, validate_denote by assumption.
  destruct (denote_total _ Hwf) as [p [Hp _]].
  unfold denote_run. rewrite Hp. simpl rbind.
  intros Hv. f_equal.
  assert (Hguard : forall q : result bool,
             py_and (Ok (isinstance v origin)) q = Ok true ->
             isinstance v origin = true).
  { intros q. destruct (isinstance v origin); [ reflexivity | discriminate ]. }
  simpl in Hp, Hwf. rewrite Hc in Hp, Hwf.
  destruct (issubclass origin BMapping).
  - destruct args as [ | k [ | val [ | ? ?]]]; try discriminate.
    destruct (denote k), (denote val); simpl in Hp; try discriminate.
    injection Hp as <-. exact (Hguard _ Hv).
  - destruct (issubclass origin Btuple).
    + destruct args as [ | g0 [ | g1 [ | g2 rest]]].
      * injection Hp as <-. exact (Hguard _ Hv).
      * destruct (is_unit g0).
        -- injection Hp as <-. exact (Hguard _ Hv).
        -- destruct (mapR denote [g0]); simpl in Hp; [ | discriminate ].
           injection Hp as <-. exact (Hguard _ Hv).
      * destruct (is_ellipsis g1).
        -- destruct (denote g0); simpl in Hp; [ | discriminate ].
           injection Hp as <-. exact (Hguard _ Hv).
        -- destruct (mapR denote [g0; g1]); simpl in Hp; [ | discriminate ].
           injection Hp as <-. exact (Hguard _ Hv).
      * destruct (mapR denote (g0 :: g1 :: g2 :: rest)); simpl in Hp;
          [ | discriminate ].
        injection Hp as <-. exact (Hguard _ Hv).
    + destruct args as [ | g0 [ | ? ?]]; try discriminate.
      destruct (denote g0); simpl in Hp; [ | discriminate ].
      injection Hp as <-. exact (Hguard _ Hv).
Qed.

Lemma bare_alias_accepts_witness :
  validate (TGeneric Blist None) (VList [VStr "abc"; VInt 1])
  = Ok (isinstance (VList [VStr "abc"; VInt 1]) Blist).
Proof.
  refine (proj1 (bare_alias_accepts Blist [TClass Bstr]
                                    (VList [VStr "abc"; VInt 1]) _ _));
    reflexivity.
Defined.

(** ** Mappings *)

Lemma mapping_pred_true : forall origin kv vv value,
    issubclass origin BMapping = true ->
    mapping_pred origin kv vv value = Ok true
    <-> isinstance value origin = true
        /\ exists entries,
          py_items value = Ok entries
          /\ forall k x, In (k, x) entries -> kv k = Ok true /\ vv x = Ok true.
Proof.
  intros origin kv vv v Ho. unfold mapping_pred.
  destruct (isinstance v origin) eqn:Hi; simpl.
  - destruct (isinstance_mapping _ _ Hi Ho) as [entries ->]. simpl.
    rewrite py_all_true. split.
    + intros H. split; [ reflexivity | ]. exists entries.
      split; [ reflexivity | ]. intros k x Hin. specialize (H _ Hin). simpl in H.
      destruct (kv k) as [[ | ] | ]; simpl in H; try discriminate. auto.
    + intros [_ [entries' [[= <-] H]]] [k x] Hin.
      destruct (H k x Hin) as [Hk Hx]. simpl. now rewrite Hk.
  - split; [ discriminate | intros [[=] _] ].
Qed.

(** X8: for well-formed [K] and [V], [Dict[K, V]] and [Mapping[K, V]]
    accept a value exactly when it is an instance of the mapping class
    and, in every entry, the key satisfies [K] and the value satisfies
    [V]. *)
Theorem validate_mapping : forall origin key_type val_type value,
    issubclass origin BMapping = true ->
    well_formed key_type = true -> well_formed val_type = true ->
    validate (TGeneric origin (Some [key_type; val_type])) value = Ok true
    <-> isinstance value origin = true
        /\ exists entries,
          py_items value = Ok entries
          /\ forall k x, In (k, x) entries ->
                         validate key_type k = Ok true
                         /\ validate val_type x = Ok true.
Proof.
  intros origin kt vt v Hm Hk Hv.
  assert (Hc : issubclass origin BCollection = true).
  { destruct origin as [b | u]; [ | discriminate ]. now destruct b. }
  destruct (denote_total kt Hk) as [pk [Hpk _]].
  destruct (denote_total vt Hv) as [pv [Hpv _]].
  rewrite validate_denote by (simpl; now rewrite Hc, Hm, Hk, Hv).
  unfold denote_run. simpl. rewrite Hc, Hm, Hpk, Hpv. simpl.
  rewrite (mapping_pred_true origin pk pv v Hm).
  split; intros [Hi [entries [Hit H]]]; (split; [ exact Hi | ]);
    exists entries; (split; [ exact Hit | ]); intros k x Hin;
    destruct (H k x Hin) as [H1 H2].
  - now rewrite (@validate_elem kt pk k Hk Hpk), (@validate_elem vt pv x Hv Hpv).
  - now rewrite <- (@validate_elem kt pk k Hk Hpk), <- (@validate_elem vt pv x Hv Hpv).
Qed.

Lemma validate_mapping_witness :
  validate (TGeneric Bdict (Some [TClass Bstr; TClass Bint]))
           (VDict [(VStr "abc", VInt 123)]) = Ok true.
Proof.
  apply (validate_mapping Bdict (TClass Bstr) (TClass Bint)
                          (VDict [(VStr "abc", VInt 123)])); try reflexivity.
  split; [ reflexivity | ].
  exists [(VStr "abc", VInt 123)]. split; [ reflexivity | ].
  intros k x [[= <- <-] | []]. split; reflexivity.
Defined.

(** X9: an alias over a mapping class that does not have exactly two
    arguments cannot be compiled: unpacking [key_type, val_type] raises
    [ValueError] before any value is looked at. *)
Theorem mapping_arity : forall origin args value,
    issubclass origin BMapping = true ->
    List.length args <> 2%nat ->
    validate (TGeneric origin (Some args)) value = Raise ValueError.
Proof.
  intros origin args v Hm Hlen.
  assert (Hc : issubclass origin BCollection = true).
  { destruct origin as [b | u]; [ | discriminate ]. now destruct b. }
  unfold validate, run_validator. simpl validator. unfold memo. simpl cache_get.
  rewrite Hc, Hm.
  destruct args as [ | g0 [ | g1 [ | g2 rest]]]; try reflexivity.
  now contradiction Hlen.
Qed.

Lemma mapping_arity_witness :
  validate (TGeneric Bdict (Some [TClass Bstr])) (VDict []) = Raise ValueError.
Proof.
  apply (mapping_arity Bdict [TClass Bstr] (VDict [])).
  - reflexivity.
  - discriminate.
Defined.

(** ** [Type] *)

(** X10: [Type[C]] accepts exactly the class objects that are
    subclasses of [C], [C] itself included, and no instance; the bare
    [Type] accepts exactly the class objects. *)
Theorem validate_type : forall c value,
    (validate (TGeneric Btype (Some [TClass c])) value = Ok true
     <-> exists c', value = VType c' /\ issubclass c' c = true)
    /\ validate (TGeneric Btype None) value = Ok (isinstance value Btype)
    /\ (validate (TGeneric Btype None) value = Ok true
        <-> exists c', value = VType c').
Proof.
  intros c v. split; [ | split ].
  - rewrite validate_denote by reflexivity. unfold denote_run. simpl.
    unfold subtype_pred. destruct v; simpl;
      try (split; [ discriminate | intros [c' [[=] _]] ]).
    split.
    + intros [= H]. eauto.
    + intros [c' [[= <-] H]]. now rewrite H.
  - now rewrite validate_denote by reflexivity.
  - rewrite validate_denote by reflexivity. unfold denote_run. simpl.
    unfold instance_pred. destruct v; simpl;
      try (split; [ discriminate | intros [c' [=]] ]).
    split; eauto.
Qed.

(** ** How the validators of type objects relate *)

Lemma validate_same : forall t t' value,
    well_formed t = true -> well_formed t' = true ->
    (validate t value = Ok true <-> validate t' value = Ok true) ->
    validate t value = validate t' value.
Proof.
  intros t t' v Hw Hw' Hiff.
  destruct (validate_total t v Hw) as [b Hb].
  destruct (validate_total t' v Hw') as [b' Hb'].
  rewrite Hb, Hb' in *. f_equal. apply eq_true_iff_eq.
  split; intros ->; [ apply proj1 in Hiff | apply proj2 in Hiff ];
    specialize (Hiff eq_refl); congruence.
Qed.

Lemma forallb_app_wf : forall xs ys,
    forallb well_formed xs = true -> forallb well_formed ys = true ->
    forallb well_formed (xs ++ ys) = true.
Proof. intros xs ys H1 H2. rewrite forallb_app. now rewrite H1, H2. Qed.

(** X11: for well-formed members a union does not depend on the order
    of its members nor on their repetition, and a union nested in a
    union validates like the flattened union. *)
Theorem union_algebra : forall xs ys value,
    forallb well_formed xs = true -> forallb well_formed ys = true ->
    validate (TUnion (xs ++ ys)) value = validate (TUnion (ys ++ xs)) value
    /\ validate (TUnion (xs ++ xs)) value = validate (TUnion xs) value
    /\ validate (TUnion (TUnion xs :: ys)) value
       = validate (TUnion (xs ++ ys)) value.
Proof.
  intros xs ys v Hx Hy.
  assert (Hxy := forallb_app_wf _ _ Hx Hy).
  assert (Hyx := forallb_app_wf _ _ Hy Hx).
  assert (Hxx := forallb_app_wf _ _ Hx Hx).
  assert (Hn : forallb well_formed (TUnion xs :: ys) = true)
    by (simpl; now rewrite Hx, Hy).
  repeat split; apply validate_same; try assumption;
    rewrite !union_accepts by assumption.
  - split; intros [m [Hin Hm]]; exists m; (split; [ | assumption ]);
      apply in_app_iff in Hin; apply in_app_iff; tauto.
  - split; intros [m [Hin Hm]]; exists m; (split; [ | assumption ]).
    + apply in_app_iff in Hin. tauto.
    + apply in_app_iff. tauto.
  - split.
    + intros [m [[<- | Hin] Hm]].
      * apply union_accepts in Hm as [m' [Hin' Hm']]; [ | assumption ].
        exists m'. split; [ apply in_app_iff; tauto | assumption ].
      * exists m. split; [ apply in_app_iff; tauto | assumption ].
    + intros [m [Hin Hm]]. apply in_app_iff in Hin as [Hin | Hin].
      * exists (TUnion xs). split; [ now left | ].
        apply union_accepts; eauto.
      * exists m. split; [ now right | assumption ].
Qed.

Lemma union_algebra_witness :
  validate (TUnion ([TClass Bint] ++ [TClass Bstr])) (VStr "abc")
  = validate (TUnion ([TClass Bstr] ++ [TClass Bint])) (VStr "abc").
Proof.
  refine (proj1 (union_algebra [TClass Bint] [TClass Bstr] (VStr "abc") _ _));
    reflexivity.
Defined.

(** X12: for a well-formed [X], [Optional[X]], the union of [X] and
    [NoneType], accepts [None] and, apart from [None], exactly what [X]
    accepts. *)
Theorem optional_accepts : forall t value,
    well_formed t = true ->
    validate (TUnion [t; TClass BNoneType]) VNone = Ok true
    /\ (validate (TUnion [t; TClass BNoneType]) value = Ok true
        <-> value = VNone \/ validate t value = Ok true).
Proof.
  intros t v Hwf.
  assert (Hw : forallb well_formed [t; TClass BNoneType] = true)
    by (simpl; now rewrite Hwf).
  split.
  - apply union_accepts; [ assumption | ].
    exists (TClass BNoneType). split; [ simpl; auto | reflexivity ].
  - rewrite union_accepts by assumption. split.
    + intros [m [[<- | [<- | []]] Hm]]; [ now right | left ].
      destruct v; try discriminate. reflexivity.
    + intros [-> | Hv].
      * exists (TClass BNoneType). split; [ simpl; auto | reflexivity ].
      * exists t. split; [ now left | assumption ].
Qed.

Lemma optional_accepts_witness :
  validate (TUnion [TClass Bint; TClass BNoneType]) VNone = Ok true.
Proof.
  refine (proj1 (optional_accepts (TClass Bint) VNone _)). reflexivity.
Defined.

(** X13: for a well-formed [T], on a list [Sequence[T]] agrees with
    [List[T]] and on a tuple with [Tuple[T, ...]], while [List[T]]
    rejects every tuple and [Tuple[T, ...]] every list, whatever their
    items. *)
Theorem sequence_list_tuple : forall t items,
    well_formed t = true ->
    validate (TGeneric BSequence (Some [t])) (VList items)
    = validate (TGeneric Blist (Some [t])) (VList items)
    /\ validate (TGeneric BSequence (Some [t])) (VTuple items)
       = validate (TGeneric Btuple (Some [t; TEllipsis])) (VTuple items)
    /\ validate (TGeneric Blist (Some [t])) (VTuple items) = Ok false
    /\ validate (TGeneric Btuple (Some [t; TEllipsis])) (VList items) = Ok false.
Proof.
  intros t items Hwf.
  destruct (denote_total t Hwf) as [p [Hp _]].
  assert (Hseq : forall v, validate (TGeneric BSequence (Some [t])) v
                           = items_pred BSequence p v).
  { intros v. rewrite validate_denote by (simpl; now rewrite Hwf).
    unfold denote_run. simpl. now rewrite Hp. }
  assert (Hlist : forall v, validate (TGeneric Blist (Some [t])) v
                            = items_pred Blist p v).
  { intros v. rewrite validate_denote by (simpl; now rewrite Hwf).
    unfold denote_run. simpl. now rewrite Hp. }
  assert (Htuple : forall v, validate (TGeneric Btuple (Some [t; TEllipsis])) v
                             = items_pred Btuple p v).
  { intros v. rewrite validate_denote by (simpl; now rewrite Hwf).
    unfold denote_run. simpl. now rewrite Hp. }
  rewrite !Hseq, !Hlist, !Htuple. repeat split.
Qed.

Lemma sequence_list_tuple_witness :
  validate (TGeneric Blist (Some [TClass Bint])) (VTuple [VInt 1]) = Ok false.
Proof.
  apply (sequence_list_tuple (TClass Bint) [VInt 1]). reflexivity.
Defined.

(** X14: a [Literal] is a set of constants: two [Literal]s with the same
    constants, in any order and with any repetition, accept the same
    values. *)
Theorem literal_order_irrelevant : forall xs ys value,
    well_formed (TLiteral xs) = true -> well_formed (TLiteral ys) = true ->
    (forall l, In l xs <-> In l ys) ->
    validate (TLiteral xs) value = validate (TLiteral ys) value.
Proof.
  intros xs ys v Hx Hy Hsame.
  apply validate_same; try assumption.
  rewrite !literal_accepts by assumption.
  split; intros [l [Hin Hl]]; exists l; (split; [ | assumption ]);
    now apply Hsame.
Qed.

Lemma literal_order_irrelevant_witness :
  validate (TLiteral [LStr "a"; LStr "b"; LStr "a"]) (VStr "b")
  = validate (TLiteral [LStr "b"; LStr "a"]) (VStr "b").
Proof.
  apply (literal_order_irrelevant [LStr "a"; LStr "b"; LStr "a"]
                                  [LStr "b"; LStr "a"] (VStr "b"));
    try reflexivity.
  intros l. simpl. tauto.
Defined.

(** ** More on [TypedDict] *)

(** X15: [__total__] only decides what happens to keys that are not
    annotated: what a total [TypedDict] accepts the non-total one with
    the same annotations accepts too, and on a value all of whose keys
    are annotated fields the two give the same verdict. *)
Theorem typeddict_total_only_closes : forall name hints value,
    well_formed (TTypedDict name true hints) = true ->
    (validate (TTypedDict name true hints) value = Ok true ->
     validate (TTypedDict name false hints) value = Ok true)
    /\ ((forall entries k x,
            py_items value = Ok entries -> In (k, x) entries ->
            field_get k (get_type_hints hints) <> None) ->
        validate (TTypedDict name true hints) value
        = validate (TTypedDict name false hints) value).
Proof.
  intros name hints v Hwf.
  assert (Hwf' : well_formed (TTypedDict name false hints) = true) by exact Hwf.
  assert (Himp : validate (TTypedDict name true hints) v = Ok true ->
                 validate (TTypedDict name false hints) v = Ok true).
  { rewrite (validate_typeddict name true hints v Hwf),
      (validate_typeddict name false hints v Hwf').
    intros [Hi [entries [Hit [Hreq Hall]]]]. split; [ exact Hi | ].
    exists entries. repeat split; try assumption.
    intros k x Hin. specialize (Hall k x Hin).
    destruct (field_get k (get_type_hints hints)); [ assumption | reflexivity ]. }
  split; [ exact Himp | ].
  intros Hdecl. apply validate_same; try assumption.
  split; [ exact Himp | ].
  rewrite (validate_typeddict name true hints v Hwf),
    (validate_typeddict name false hints v Hwf').
  intros [Hi [entries [Hit [Hreq Hall]]]]. split; [ exact Hi | ].
  exists entries. repeat split; try assumption.
  intros k x Hin. specialize (Hall k x Hin).
  specialize (Hdecl entries k x Hit Hin).
  destruct (field_get k (get_type_hints hints)); [ assumption | congruence ].
Qed.

Lemma typeddict_total_only_closes_witness :
  validate (TTypedDict "TypedDictTotal" true
                       [("name", Required (TClass Bstr)); ("version", Bare (TClass Bstr))])
           (VDict [(VStr "name", VStr "abc")])
  = validate (TTypedDict "TypedDictTotal" false
                         [("name", Required (TClass Bstr)); ("version", Bare (TClass Bstr))])
             (VDict [(VStr "name", VStr "abc")]).
Proof.
  refine (proj2 (typeddict_total_only_closes
                   "TypedDictTotal"
                   [("name", Required (TClass Bstr)); ("version", Bare (TClass Bstr))]
                   (VDict [(VStr "name", VStr "abc")]) _) _).
  - reflexivity.
  - intros entries k x [= <-] [[= <- <-] | []]. discriminate.
Defined.

(** X16: the verdict of a [TypedDict] depends on its annotations only
    through the set of keys marked [Required] and the stripped
    annotations; in particular [NotRequired[X]] and a bare [X] are
    interchangeable, and the name of the class plays no role. *)
Theorem typeddict_annotations : forall name name' total hints hints' value,
    well_formed (TTypedDict name total hints) = true ->
    well_formed (TTypedDict name' total hints') = true ->
    required_keys hints = required_keys hints' ->
    get_type_hints hints = get_type_hints hints' ->
    validate (TTypedDict name total hints) value
    = validate (TTypedDict name' total hints') value.
Proof.
  intros name name' total hints hints' v Hwf Hwf' Hreq Hhints.
  apply validate_same; try assumption.
  rewrite (validate_typeddict name total hints v Hwf),
    (validate_typeddict name' total hints' v Hwf').
  now rewrite Hreq, Hhints.
Qed.

Lemma typeddict_annotations_witness :
  validate (TTypedDict "A" false
                       [("name", Required (TClass Bstr)); ("version", NotRequired (TClass Bstr))])
           (VDict [(VStr "name", VStr "abc")])
  = validate (TTypedDict "B" false
                         [("name", Required (TClass Bstr)); ("version", Bare (TClass Bstr))])
             (VDict [(VStr "name", VStr "abc")]).
Proof.
  apply (typeddict_annotations
           "A" "B" false
           [("name", Required (TClass Bstr)); ("version", NotRequired (TClass Bstr))]
           [("name", Required (TClass Bstr)); ("version", Bare (TClass Bstr))]
           (VDict [(VStr "name", VStr "abc")]));
    reflexivity.
Defined.

(** ** The table of field validators *)

Lemma tables_get_head : forall u d tables,
    tables_get u ((u, d) :: tables) = Some d.
Proof. intros. simpl. now rewrite userclass_eqb_refl. Qed.

(** X17: for a dataclass with well-formed field annotations that is not
    yet in the memo table, [dataclass_field_validators] returns one
    validator per field, under the names of the fields in their order,
    each agreeing with [validator] of the field's annotation; it adds the
    table to the memo table, and the next call returns that table without
    touching [VALIDATORS]. *)
Theorem field_validators_table : forall class_hints u tables c c',
    Forall (fun kh : string * pytype => well_formed (snd kh) = true) (class_hints u) ->
    tables_get u tables = None ->
    reachable c ->
    exists table,
      fst (dataclass_field_validators class_hints u tables c)
      = Ok (table, (u, table) :: tables)
      /\ map fst table = map fst (class_hints u)
      /\ Forall2 (fun (kh : string * pytype) (kv : string * pred) =>
                    forall value, snd kv value = validate (snd kh) value)
                 (class_hints u) table
      /\ dataclass_field_validators class_hints u ((u, table) :: tables) c'
         = (Ok (table, (u, table) :: tables), c').
Proof.
  intros class_hints u tables c c' Hwf Hnone Hc.
  apply reachable_consistent in Hc.
  unfold dataclass_field_validators at 1. rewrite Hnone.
  assert (Hs : msound (Forall2 field_eq)
                 (mapM (fun kh : string * pytype =>
                          let (k, hint) := kh in
                          v <- validator hint ;; ret (k, v)) (class_hints u))
                 (mapR (fun kh : string * pytype =>
                          let (k, hint) := kh in
                          rbind (denote hint) (fun v => Ok (k, v))) (class_hints u))).
  { apply msound_mapM. eapply Forall_impl; [ | exact Hwf ].
    intros [k hint] Hk. simpl in Hk.
    eapply msound_bind; [ now apply validator_sound | ].
    intros p q Hpq. apply msound_ret. now split. }
  assert (Hok : exists ys,
             mapR (fun kh : string * pytype =>
                     let (k, hint) := kh in
                     rbind (denote hint) (fun v => Ok (k, v))) (class_hints u) = Ok ys
             /\ Forall2 (fun (kh : string * pytype) (kv : string * pred) =>
                           fst kh = fst kv /\ denote (snd kh) = Ok (snd kv))
                        (class_hints u) ys).
  { clear Hs. induction Hwf as [ | [k hint] hints Hk _ IH]; simpl.
    - exists []. split; [ reflexivity | constructor ].
    - simpl in Hk. destruct (denote_total hint Hk) as [p [Hp _]].
      destruct IH as [ys [Hys H2]]. rewrite Hp. simpl. rewrite Hys. simpl.
      exists ((k, p) :: ys). split; [ reflexivity | ].
      constructor; [ now split | exact H2 ]. }
  destruct Hok as [ys [Hys H2]]. rewrite Hys in Hs.
  destruct (Hs c Hc) as [Hr _]. unfold bind.
  destruct (mapM _ (class_hints u) c) as [[d | e] c1];
    simpl in Hr; [ | contradiction ].
  exists d. simpl. repeat split.
  - clear - Hr H2. revert d Hr.
    induction H2 as [ | [k t] [k' q] hints ys [Hk _] _ IH]; intros d Hr;
      inversion Hr as [ | [k1 p1] ? d' ? [Hk1 _] Hrest]; subst; simpl in *;
      [ reflexivity | ].
    f_equal; [ congruence | now apply IH ].
  - clear - Hr H2 Hwf. revert d Hr.
    induction H2 as [ | [k t] [k' q] hints ys [_ Ht] _ IH]; intros d Hr;
      inversion Hr as [ | [k1 p1] ? d' ? [_ Hp1] Hrest]; subst; simpl in *;
      [ constructor | ].
    inversion Hwf as [ | ? ? Hwt Hwrest]; subst. simpl in Hwt.
    constructor; [ | now apply IH ].
    intros v. simpl. rewrite (@validate_elem t q v Hwt Ht). apply Hp1.
  - unfold dataclass_field_validators. now rewrite tables_get_head.
Qed.

Lemma field_validators_table_witness :
  exists table,
    fst (dataclass_field_validators
           (fun u => [("next", TUnion [TClass (User u); TClass BNoneType])])
           {| uc_name := "Node"; uc_bases := []; uc_dataclass := true |} [] [])
    = Ok (table, [({| uc_name := "Node"; uc_bases := []; uc_dataclass := true |}, table)])
    /\ map fst table = ["next"].
Proof.
  destruct (@field_validators_table
              (fun u => [("next", TUnion [TClass (User u); TClass BNoneType])])
              {| uc_name := "Node"; uc_bases := []; uc_dataclass := true |}
              [] [] [])
    as [table [H1 [H2 _]]].
  - repeat constructor.
  - reflexivity.
  - apply reachable_empty.
  - exists table. split; [ exact H1 | exact H2 ].
Defined.

(* ================================================================== *)
(** * Properties of [clippy.py] *)

(** ** The parameters handed to [clippy-driver] *)

Lemma filter_parameters_acc : forall params skip cmdlist,
    Clippy.filter_parameters skip cmdlist params
    = cmdlist ++ Clippy.filter_parameters skip [] params.
Proof.
  induction params as [ | arg params IH]; intros skip cmdlist; simpl.
  - now rewrite app_nil_r.
  - destruct skip; [ apply IH | ].
    destruct (Clippy.is_output_flag arg); [ apply IH | ].
    rewrite (IH false (cmdlist ++ [arg])), (IH false [arg]).
    now rewrite <- app_assoc.
Qed.

(** X18: no [--emit] and no [--out-dir] of the compiler's parameters
    reaches the command line of [clippy-driver]: every argument that the
    loop adds is a parameter that is neither of the two. *)
Theorem clippy_drops_output_flags : forall params skip cmdlist arg,
    In arg (Clippy.filter_parameters skip cmdlist params) ->
    In arg cmdlist
    \/ (In arg params /\ arg <> "--emit" /\ arg <> "--out-dir").
Proof.
  induction params as [ | a params IH]; intros skip cmdlist arg; simpl.
  - auto.
  - destruct skip.
    + intros H. destruct (IH _ _ _ H) as [H1 | [H1 H2]]; auto.
    + destruct (Clippy.is_output_flag a) eqn:Hflag.
      * intros H. destruct (IH _ _ _ H) as [H1 | [H1 H2]]; auto.
      * intros H. destruct (IH _ _ _ H) as [H1 | [H1 H2]]; auto.
        apply in_app_iff in H1 as [H1 | [<- | []]]; auto.
        right. split; [ now left | ].
        unfold Clippy.is_output_flag in Hflag.
        apply orb_false_elim in Hflag as [H2 H3].
        apply String.eqb_neq in H2. apply String.eqb_neq in H3. auto.
Qed.

Lemma clippy_drops_output_flags_witness :
  In "-O" ["clippy-driver"]
  \/ (In "-O" ["--emit"; "link"; "-O"] /\ "-O" <> "--emit" /\ "-O" <> "--out-dir").
Proof.
  apply (clippy_drops_output_flags ["--emit"; "link"; "-O"] false
                                   ["clippy-driver"] "-O").
  simpl. auto.
Defined.

(** X19: parameters without [--emit] and [--out-dir] are passed on
    unchanged and in order; each of the two flags disappears together
    with the argument that follows it, whatever that argument is, and a
    flag at the very end disappears alone. *)
Theorem clippy_filter_shape : forall before flag next after cmdlist,
    (forall a, In a before -> Clippy.is_output_flag a = false) ->
    Clippy.is_output_flag flag = true ->
    Clippy.filter_parameters false cmdlist before = cmdlist ++ before
    /\ Clippy.filter_parameters false cmdlist (before ++ flag :: next :: after)
       = cmdlist ++ before ++ Clippy.filter_parameters false [] after
    /\ Clippy.filter_parameters false cmdlist (before ++ [flag])
       = cmdlist ++ before.
Proof.
  induction before as [ | a before IH]; intros flag next after cmdlist Hclean Hflag.
  - simpl. rewrite Hflag. rewrite app_nil_r.
    repeat split. apply filter_parameters_acc.
  - assert (Ha : Clippy.is_output_flag a = false) by (apply Hclean; now left).
    assert (Hrest : forall b, In b before -> Clippy.is_output_flag b = false)
      by (intros b Hb; apply Hclean; now right).
    destruct (IH flag next after (cmdlist ++ [a]) Hrest Hflag) as [H1 [H2 H3]].
    simpl. rewrite Ha, H1, H2, H3. rewrite <- !app_assoc. repeat split.
Qed.

Lemma clippy_filter_shape_witness :
  Clippy.filter_parameters false ["clippy-driver"]
                           (["-O"] ++ "--out-dir" :: "--emit" :: ["-g"])
  = ["clippy-driver"] ++ ["-O"] ++ Clippy.filter_parameters false [] ["-g"].
Proof.
  refine (proj1 (proj2 (clippy_filter_shape ["-O"] "--out-dir" "--emit" ["-g"]
                                            ["clippy-driver"] _ _))).
  - intros a [<- | []]. reflexivity.
  - reflexivity.
Defined.

(** ** The command line of a target *)

(** The blocks that [__call__] passes over: they have a language, and it
    is not rust. *)
Lemma call_blocks_skip : forall d before blocks,
    Forall (fun b => exists lang, Clippy.language b = Some lang
                                  /\ String.eqb lang "rust" = false) before ->
    Clippy.call_blocks d (before ++ blocks) = Clippy.call_blocks d blocks.
Proof.
  induction 1 as [ | b before [lang [Hl Hr]] _ IH]; simpl; [ reflexivity | ].
  now rewrite Hl, Hr.
Qed.

(** X20: the first rust block of a target decides.  With a
    [clippy-driver] for its machine the command line is that tool, then
    the filtered parameters of the block, then its sources; the blocks
    after it are not looked at, and the driver is left as it was. *)
Theorem clippy_first_rust_block :
  forall d before block after m tool0 tool params srcs,
    Forall (fun b => exists lang, Clippy.language b = Some lang
                                  /\ String.eqb lang "rust" = false) before ->
    Clippy.language block = Some "rust" ->
    Clippy.machine block = Some m ->
    Clippy.getattr_tools (Clippy.tools d) m
    = Clippy.Return (Clippy.Words (tool0 :: tool)) ->
    Clippy.parameters block = Some params ->
    Clippy.sources block = Some srcs ->
    Clippy.call d {| Clippy.target_sources := Some (before ++ block :: after) |}
    = (Clippy.Return
         (Some ((tool0 :: tool) ++ Clippy.filter_parameters false [] params ++ srcs)),
       d).
Proof.
  intros d before block after m tool0 tool params srcs Hb Hl Hm Ht Hp Hs.
  unfold Clippy.call. simpl. rewrite call_blocks_skip by assumption.
  simpl. rewrite Hl. simpl. rewrite Hm, Ht. simpl. rewrite Hp, Hs.
  rewrite filter_parameters_acc. now rewrite <- app_assoc.
Qed.

Lemma clippy_first_rust_block_witness :
  Clippy.call
    (Clippy.init {| Clippy.build := []; Clippy.host := ["clippy-driver"];
                     Clippy.others := [("__weakref__", Clippy.Null)] |})
    {| Clippy.target_sources :=
         Some ([ {| Clippy.language := Some "c"; Clippy.machine := Some "host";
                    Clippy.parameters := Some ["-O2"];
                    Clippy.sources := Some ["a.c"] |} ]
               ++ {| Clippy.language := Some "rust"; Clippy.machine := Some "host";
                     Clippy.parameters := Some ["--emit"; "link"; "-g"];
                     Clippy.sources := Some ["main.rs"] |}
               :: []) |}
  = (Clippy.Return
       (Some (["clippy-driver"]
              ++ Clippy.filter_parameters false [] ["--emit"; "link"; "-g"]
              ++ ["main.rs"])),
     Clippy.init {| Clippy.build := []; Clippy.host := ["clippy-driver"];
                     Clippy.others := [("__weakref__", Clippy.Null)] |}).
Proof.
  apply (@clippy_first_rust_block
           (Clippy.init {| Clippy.build := []; Clippy.host := ["clippy-driver"];
                     Clippy.others := [("__weakref__", Clippy.Null)] |})
           [ {| Clippy.language := Some "c"; Clippy.machine := Some "host";
                Clippy.parameters := Some ["-O2"];
                Clippy.sources := Some ["a.c"] |} ]
           {| Clippy.language := Some "rust"; Clippy.machine := Some "host";
              Clippy.parameters := Some ["--emit"; "link"; "-g"];
              Clippy.sources := Some ["main.rs"] |}
           [] "host" "clippy-driver" [] ["--emit"; "link"; "-g"] ["main.rs"]);
    try reflexivity.
  constructor; [ | constructor ]. exists "c". split; reflexivity.
Defined.

(** X21: a target none of whose blocks is in rust gives no command line,
    and no warning: the driver is left as it was. *)
Theorem clippy_no_rust_block : forall d blocks,
    Forall (fun b => exists lang, Clippy.language b = Some lang
                                  /\ String.eqb lang "rust" = false) blocks ->
    Clippy.call d {| Clippy.target_sources := Some blocks |}
    = (Clippy.Return None, d).
Proof.
  intros d blocks H. unfold Clippy.call. simpl.
  rewrite <- (app_nil_r blocks). now rewrite call_blocks_skip.
Qed.

Lemma clippy_no_rust_block_witness :
  Clippy.call
    (Clippy.init {| Clippy.build := []; Clippy.host := [];
                     Clippy.others := [("__weakref__", Clippy.Null)] |})
    {| Clippy.target_sources :=
         Some [ {| Clippy.language := Some "c"; Clippy.machine := Some "host";
                   Clippy.parameters := Some ["-O2"];
                   Clippy.sources := Some ["a.c"] |} ] |}
  = (Clippy.Return None, Clippy.init {| Clippy.build := []; Clippy.host := [];
                     Clippy.others := [("__weakref__", Clippy.Null)] |}).
Proof.
  apply clippy_no_rust_block.
  constructor; [ | constructor ]. exists "c". split; reflexivity.
Defined.

(** X22: a block without the key ['language'], such as the block of a
    linker, makes [__call__] raise [KeyError] when the loop reaches it,
    also when a rust block follows. *)
Theorem clippy_block_without_language : forall d before block after,
    Forall (fun b => exists lang, Clippy.language b = Some lang
                                  /\ String.eqb lang "rust" = false) before ->
    Clippy.language block = None ->
    Clippy.call d {| Clippy.target_sources := Some (before ++ block :: after) |}
    = (Clippy.Raise (Clippy.KeyError "language"), d).
Proof.
  intros d before block after Hb Hl. unfold Clippy.call. simpl.
  rewrite call_blocks_skip by assumption. simpl. now rewrite Hl.
Qed.

Lemma clippy_block_without_language_witness :
  Clippy.call
    (Clippy.init {| Clippy.build := []; Clippy.host := ["clippy-driver"];
                     Clippy.others := [("__weakref__", Clippy.Null)] |})
    {| Clippy.target_sources :=
         Some ([] ++ {| Clippy.language := None; Clippy.machine := None;
                        Clippy.parameters := Some ["-shared"];
                        Clippy.sources := None |}
                  :: [ {| Clippy.language := Some "rust"; Clippy.machine := Some "host";
                          Clippy.parameters := Some [];
                          Clippy.sources := Some ["main.rs"] |} ]) |}
  = (Clippy.Raise (Clippy.KeyError "language"),
     Clippy.init {| Clippy.build := []; Clippy.host := ["clippy-driver"];
                     Clippy.others := [("__weakref__", Clippy.Null)] |}).
Proof.
  apply (@clippy_block_without_language
           (Clippy.init {| Clippy.build := []; Clippy.host := ["clippy-driver"];
                     Clippy.others := [("__weakref__", Clippy.Null)] |})
           []).
  - constructor.
  - reflexivity.
Defined.

(** ** Warnings *)

Lemma existsb_eqb_In : forall m l,
    existsb (String.eqb m) l = true <-> In m l.
Proof.
  intros m l. rewrite existsb_exists. split.
  - intros [x [Hin E]]. apply String.eqb_eq in E. now subst.
  - intros H. exists m. split; [ assumption | apply String.eqb_refl ].
Qed.

(** X23: when the machine of the first rust block has no
    [clippy-driver], that is when [self.tools] holds under its name an
    empty list or anything else that is false, [__call__] gives no
    command line and the machine is marked as warned; the warning is
    written the first time only, and calling again changes nothing. *)
Theorem clippy_warns_once : forall d before block after m clippy,
    Forall (fun b => exists lang, Clippy.language b = Some lang
                                  /\ String.eqb lang "rust" = false) before ->
    Clippy.language block = Some "rust" ->
    Clippy.machine block = Some m ->
    Clippy.getattr_tools (Clippy.tools d) m = Clippy.Return clippy ->
    Clippy.falsy clippy = true ->
    let t := {| Clippy.target_sources := Some (before ++ block :: after) |} in
    let d' := snd (Clippy.call d t) in
    fst (Clippy.call d t) = Clippy.Return None
    /\ In m (Clippy.warned d')
    /\ (In m (Clippy.warned d) -> d' = d)
    /\ (~ In m (Clippy.warned d) ->
        Clippy.log d' = Clippy.log d ++ [Clippy.warning m])
    /\ Clippy.call d' t = (Clippy.Return None, d').
Proof.
  intros d before block after m clippy Hb Hl Hm Ht Hf t d'.
  assert (Hcall : forall d0, Clippy.tools d0 = Clippy.tools d ->
                             Clippy.call d0 t
                             = (Clippy.Return None, Clippy.warn_missing_clippy d0 m)).
  { intros d0 Htools. unfold Clippy.call, t. simpl.
    rewrite call_blocks_skip by assumption. simpl.
    rewrite Hl. simpl. now rewrite Hm, Htools, Ht, Hf. }
  assert (Hd' : d' = Clippy.warn_missing_clippy d m)
    by (unfold d'; now rewrite Hcall).
  assert (Hin : In m (Clippy.warned d')).
  { rewrite Hd'. unfold Clippy.warn_missing_clippy.
    destruct (existsb (String.eqb m) (Clippy.warned d)) eqn:E.
    - now apply existsb_eqb_In.
    - simpl. now left. }
  repeat split.
  - now rewrite Hcall.
  - exact Hin.
  - intros Hw. rewrite Hd'. unfold Clippy.warn_missing_clippy.
    apply existsb_eqb_In in Hw. now rewrite Hw.
  - intros Hw. rewrite Hd'. unfold Clippy.warn_missing_clippy.
    destruct (existsb (String.eqb m) (Clippy.warned d)) eqn:E; [ | reflexivity ].
    apply existsb_eqb_In in E. contradiction.
  - rewrite Hcall.
    + f_equal. unfold Clippy.warn_missing_clippy.
      apply existsb_eqb_In in Hin. now rewrite Hin.
    + rewrite Hd'. unfold Clippy.warn_missing_clippy.
      now destruct (existsb (String.eqb m) (Clippy.warned d)).
Qed.

Lemma clippy_warns_once_witness :
  fst (Clippy.call
         (Clippy.init {| Clippy.build := []; Clippy.host := [];
                     Clippy.others := [("__weakref__", Clippy.Null)] |})
         {| Clippy.target_sources :=
              Some ([] ++ {| Clippy.language := Some "rust";
                             Clippy.machine := Some "host";
                             Clippy.parameters := Some [];
                             Clippy.sources := Some ["main.rs"] |} :: []) |})
  = Clippy.Return None.
Proof.
  apply (@clippy_warns_once
           (Clippy.init {| Clippy.build := []; Clippy.host := [];
                     Clippy.others := [("__weakref__", Clippy.Null)] |})
           []
           {| Clippy.language := Some "rust"; Clippy.machine := Some "host";
              Clippy.parameters := Some []; Clippy.sources := Some ["main.rs"] |}
           [] "host" (Clippy.Words [])); try reflexivity.
  constructor.
Defined.

(** ** A whole run *)

(** The names under which [getattr] finds something. *)
Lemma lookup_In : forall name table a,
    Clippy.lookup name table = Some a -> In name (map fst table).
Proof.
  induction table as [ | [n b] table IH]; simpl; intros a; [ discriminate | ].
  destruct (String.eqb name n) eqn:E.
  - apply String.eqb_eq in E. auto.
  - intros H. right. now apply (IH a).
Qed.

Lemma getattr_tools_name : forall t m a,
    Clippy.getattr_tools t m = Clippy.Return a ->
    In m ("build" :: "host" :: map fst (Clippy.others t)).
Proof.
  intros t m a. unfold Clippy.getattr_tools.
  destruct (String.eqb m "build") eqn:E1.
  - apply String.eqb_eq in E1. simpl. auto.
  - destruct (String.eqb m "host") eqn:E2.
    + apply String.eqb_eq in E2. simpl. auto.
    + destruct (Clippy.lookup m (Clippy.others t)) as [b | ] eqn:E3;
        [ | discriminate ].
      intros _. right. right. now apply (lookup_In _ _ E3).
Qed.

(** What holds of a driver throughout a run: no machine is marked as
    warned twice, the log holds the warnings of the marked machines in
    the order in which they were marked, and under the name of a marked
    machine [self.tools] holds something false. *)
Lemma warn_missing_clippy_keeps : forall d m a,
    Clippy.getattr_tools (Clippy.tools d) m = Clippy.Return a ->
    Clippy.falsy a = true ->
    NoDup (Clippy.warned d) ->
    Clippy.log d = map Clippy.warning (rev (Clippy.warned d)) ->
    (forall w, In w (Clippy.warned d) ->
               exists b, Clippy.getattr_tools (Clippy.tools d) w = Clippy.Return b
                         /\ Clippy.falsy b = true) ->
    let d' := Clippy.warn_missing_clippy d m in
    Clippy.tools d' = Clippy.tools d
    /\ NoDup (Clippy.warned d')
    /\ Clippy.log d' = map Clippy.warning (rev (Clippy.warned d'))
    /\ (forall w, In w (Clippy.warned d') ->
                  exists b, Clippy.getattr_tools (Clippy.tools d) w = Clippy.Return b
                            /\ Clippy.falsy b = true).
Proof.
  intros d m a Hm Hf Hnd Hlog Hfalse. unfold Clippy.warn_missing_clippy.
  destruct (existsb (String.eqb m) (Clippy.warned d)) eqn:E; simpl.
  - auto.
  - repeat split.
    + constructor; [ | assumption ]. intros Hin.
      apply existsb_eqb_In in Hin. congruence.
    + now rewrite map_app, Hlog.
    + intros w [<- | Hw]; [ eauto | now apply Hfalse ].
Qed.

Lemma call_keeps : forall t d,
    NoDup (Clippy.warned d) ->
    Clippy.log d = map Clippy.warning (rev (Clippy.warned d)) ->
    (forall w, In w (Clippy.warned d) ->
               exists b, Clippy.getattr_tools (Clippy.tools d) w = Clippy.Return b
                         /\ Clippy.falsy b = true) ->
    let d' := snd (Clippy.call d t) in
    Clippy.tools d' = Clippy.tools d
    /\ NoDup (Clippy.warned d')
    /\ Clippy.log d' = map Clippy.warning (rev (Clippy.warned d'))
    /\ (forall w, In w (Clippy.warned d') ->
                  exists b, Clippy.getattr_tools (Clippy.tools d) w = Clippy.Return b
                            /\ Clippy.falsy b = true).
Proof.
  intros [[blocks | ]] d Hnd Hlog Hfalse; unfold Clippy.call; simpl; [ | auto ].
  induction blocks as [ | b blocks IH]; simpl; [ auto | ].
  destruct (Clippy.language b) as [lang | ]; simpl; [ | auto ].
  destruct (String.eqb lang "rust"); [ | exact IH ].
  destruct (Clippy.machine b) as [m | ]; simpl; [ | auto ].
  destruct (Clippy.getattr_tools (Clippy.tools d) m) as [a | e] eqn:Ht;
    simpl; [ | auto ].
  destruct (Clippy.falsy a) eqn:Hf; simpl.
  - now apply (warn_missing_clippy_keeps d m Ht Hf).
  - destruct (Clippy.py_list a); simpl; [ | auto ].
    destruct (Clippy.parameters b); simpl; [ | auto ].
    destruct (Clippy.sources b); simpl; auto.
Qed.

(** X24: over a whole run, whatever the targets are and also when an
    exception ends the loop, a new driver keeps its tools and warns about
    a machine at most once: the log holds one warning per machine marked
    as warned, in the order in which they were met, and a machine is
    marked only when [self.tools] holds something false under its name.
    The warnings are therefore at most two more than the other
    attributes of [self.tools].  The loop starts at most one subprocess
    per target, none with an empty command line. *)
Theorem clippy_run_warnings : forall found targets,
    let '(started, _, d) := Clippy.schedule (Clippy.init found) targets in
    Clippy.tools d = found
    /\ NoDup (Clippy.warned d)
    /\ Clippy.log d = map Clippy.warning (rev (Clippy.warned d))
    /\ (forall m, In m (Clippy.warned d) ->
                  exists a, Clippy.getattr_tools found m = Clippy.Return a
                            /\ Clippy.falsy a = true)
    /\ (List.length (Clippy.log d) <= 2 + List.length (Clippy.others found))%nat
    /\ (List.length started <= List.length targets)%nat
    /\ Forall (fun cmdlist => cmdlist <> []) started.
Proof.
  intros found targets.
  assert (Hgen : forall d,
             NoDup (Clippy.warned d) ->
             Clippy.log d = map Clippy.warning (rev (Clippy.warned d)) ->
             (forall w, In w (Clippy.warned d) ->
                        exists b, Clippy.getattr_tools (Clippy.tools d) w
                                  = Clippy.Return b
                                  /\ Clippy.falsy b = true) ->
             let '(started, _, d') := Clippy.schedule d targets in
             Clippy.tools d' = Clippy.tools d
             /\ NoDup (Clippy.warned d')
             /\ Clippy.log d' = map Clippy.warning (rev (Clippy.warned d'))
             /\ (forall w, In w (Clippy.warned d') ->
                           exists b, Clippy.getattr_tools (Clippy.tools d) w
                                     = Clippy.Return b
                                     /\ Clippy.falsy b = true)
             /\ (List.length started <= List.length targets)%nat
             /\ Forall (fun cmdlist => cmdlist <> []) started).
  { induction targets as [ | t targets IH]; intros d Hnd Hlog Hfalse; simpl.
    - repeat split; auto.
    - pose proof (call_keeps t d Hnd Hlog Hfalse) as Hk. simpl in Hk.
      destruct (Clippy.call d t) as [[cmdlist | e] d1]; simpl in Hk.
      + destruct Hk as [Ht [Hnd1 [Hlog1 Hfalse1]]].
        rewrite <- Ht in Hfalse1.
        specialize (IH d1 Hnd1 Hlog1 Hfalse1).
        destruct (Clippy.schedule d1 targets) as [[started status] d2].
        destruct IH as [Ht2 [Hnd2 [Hlog2 [Hfalse2 [Hlen Hne]]]]].
        rewrite Ht in Hfalse2.
        destruct cmdlist as [[ | arg args] | ]; simpl;
          repeat split; try assumption; try congruence; try lia.
        constructor; [ discriminate | assumption ].
      + destruct Hk as [Ht [Hnd1 [Hlog1 Hfalse1]]].
        repeat split; try assumption; simpl; try lia. constructor. }
  assert (Hinit : forall w, In w (Clippy.warned (Clippy.init found)) ->
                            exists b, Clippy.getattr_tools
                                        (Clippy.tools (Clippy.init found)) w
                                      = Clippy.Return b
                                      /\ Clippy.falsy b = true)
    by (intros w []).
  specialize (Hgen (Clippy.init found) (NoDup_nil _) eq_refl Hinit).
  destruct (Clippy.schedule (Clippy.init found) targets) as [[started status] d].
  destruct Hgen as [Ht [Hnd [Hlog [Hfalse [Hlen Hne]]]]].
  simpl in Ht, Hfalse.
  assert (Hnames : (List.length (Clippy.warned d)
                    <= List.length ("build" :: "host"
                                            :: map fst (Clippy.others found)))%nat).
  { apply (NoDup_incl_length Hnd).
    intros w Hw. destruct (Hfalse w Hw) as [b [Hb _]].
    exact (getattr_tools_name _ _ Hb). }
  simpl in Hnames. rewrite length_map in Hnames.
  repeat split; try assumption.
  rewrite Hlog, length_map, length_rev. lia.
Qed.

(** [self.tools] holds [None] under [__weakref__], as every instance of
    a class without [__slots__] does: a block that names it as its
    machine is warned about like a machine without tool, so that three
    warnings are written here. *)
Example clippy_third_warning :
  let found := {| Clippy.build := []; Clippy.host := [];
                  Clippy.others := [("__weakref__", Clippy.Null)] |} in
  let block := fun m => {| Clippy.language := Some "rust"; Clippy.machine := Some m;
                           Clippy.parameters := Some [];
                           Clippy.sources := Some ["main.rs"] |} in
  let target := fun m => {| Clippy.target_sources := Some [block m] |} in
  let '(_, _, d) := Clippy.schedule (Clippy.init found)
                      [target "build"; target "host"; target "__weakref__";
                       target "host"] in
  Clippy.log d = [Clippy.warning "build"; Clippy.warning "host";
                  Clippy.warning "__weakref__"].
Proof. reflexivity. Qed.

(* ================================================================== *)
(** * Last properties of [validate.py] *)

Lemma Forall2_repeat (A B : Type) (R : A -> B -> Prop) (xs : list A) (y : B) :
  Forall2 R xs (repeat y (List.length xs)) <-> Forall (fun x => R x y) xs.
Proof.
  induction xs as [ | x xs IH]; simpl.
  - split; constructor.
  - split; intros H; inversion H; subst; constructor; auto; now apply IH.
Qed.

(** X25: for a well-formed [T], [Tuple[T, ...]] accepts a tuple of [n]
    items exactly when the tuple type that repeats [T] [n] times
    does. *)
Theorem variadic_as_fixed : forall t items,
    well_formed t = true ->
    validate (TGeneric Btuple (Some [t; TEllipsis])) (VTuple items)
    = validate (TGeneric Btuple (Some (repeat t (List.length items)))) (VTuple items).
Proof.
  intros t items Hwf.
  assert (Hds : forallb well_formed (repeat t (List.length items)) = true).
  { apply forallb_forall. intros x Hx. apply repeat_spec in Hx. now subst. }
  pose proof (fixed_tuple_accepts (repeat t (List.length items)) (VTuple items) Hds)
    as Hfixed.
  pose proof (variadic_tuple_accepts t (VTuple items) Hwf) as Hvar.
  apply validate_same.
  - simpl. now rewrite Hwf.
  - now apply well_formed_fixed.
  - rewrite Hfixed, Hvar. split.
    + intros [Hi [xs [[= <-] H]]]. split; [ exact Hi | ].
      exists items. repeat split.
      * now rewrite repeat_length.
      * apply (Forall2_repeat (fun item d => validate d item = Ok true)).
        exact H.
    + intros [Hi [xs [[= <-] [_ H]]]]. split; [ exact Hi | ].
      exists items. split; [ reflexivity | ].
      now apply (Forall2_repeat (fun item d => validate d item = Ok true)).
Qed.

Lemma variadic_as_fixed_witness :
  validate (TGeneric Btuple (Some [TClass Bint; TEllipsis])) (VTuple [VInt 1; VInt 2])
  = validate (TGeneric Btuple (Some (repeat (TClass Bint) 2))) (VTuple [VInt 1; VInt 2]).
Proof.
  apply (variadic_as_fixed (TClass Bint) [VInt 1; VInt 2]). reflexivity.
Defined.

Lemma cache_get_app : forall t added c,
    cache_get t c <> None -> cache_get t (added ++ c) <> None.
Proof.
  induction added as [ | [t' p] added IH]; intros c H; simpl; [ assumption | ].
  destruct (key_eqb t t'); [ discriminate | now apply IH ].
Qed.

(** X26: [VALIDATORS] is never evicted: a type object that is answered
    from the cache is still answered from the cache after any other type
    object has been compiled, whether that compilation succeeds or
    raises. *)
Theorem cache_never_evicted : forall type_ other c,
    cache_get type_ c <> None ->
    cache_get type_ (snd (validator other c)) <> None.
Proof.
  intros t other c H. destruct (validator_extends other c) as [added ->].
  now apply cache_get_app.
Qed.

Lemma cache_never_evicted_witness :
  cache_get (TClass Bint)
            (snd (validator (TGeneric Bdict (Some [TClass Bstr]))
                            (snd (validator (TClass Bint) []))))
  <> None.
Proof.
  apply (cache_never_evicted (TClass Bint) (TGeneric Bdict (Some [TClass Bstr]))
                             (snd (validator (TClass Bint) []))).
  discriminate.
Defined.

(** ** The unit tests of the validator *)

(** The assertions of [ValidatorTest.test_validator], with [A] a plain
    class. *)
Example test_validator :
  let A := {| uc_name := "A"; uc_bases := []; uc_dataclass := false |} in
  let str_ := TClass Bstr in
  let int_ := TClass Bint in
  let List_ := fun t => TGeneric Blist (Some [t]) in
  let abc := VStr "abc" in
  let def := VStr "def" in
  [ validate (TClass Bbool) (VBool true);
    validate (TClass Bfloat) (VInt 1);
    validate (TGeneric Blist None) (VList []);
    validate (TGeneric Blist None) (VList [abc; def]);
    validate (List_ str_) (VList [abc; def]);
    validate (TUnion [int_; TClass BNoneType]) (VInt 123);
    validate (TUnion [int_; TClass BNoneType]) VNone;
    validate (TUnion [str_; int_]) (VInt 123);
    validate (TUnion [str_; int_]) abc;
    validate (TGeneric Bdict (Some [str_; int_])) (VDict [(abc, VInt 123)]);
    validate (TGeneric BMapping (Some [str_; int_])) (VDict [(abc, VInt 123)]);
    validate (TGeneric Btuple (Some [int_])) (VTuple [VInt 123]);
    validate (TGeneric Btuple (Some [int_; TEllipsis])) (VTuple [VInt 123; VInt 456]);
    validate (TGeneric Btuple (Some [int_; str_])) (VTuple [VInt 123; abc]);
    validate (TLiteral [LStr "abc"; LStr "def"]) abc;
    validate (TLiteral [LStr "abc"; LStr "def"]) def;
    validate (TGeneric Btype None) (VType (User A));
    validate (TGeneric Btype (Some [TClass (User A)])) (VType (User A));
    validate (TClass (User A)) (VObject A []) ]
  = repeat (Ok true) 19
  /\ [ validate (TClass Bbool) (VStr "");
       validate (TClass Bbool) abc;
       validate (List_ int_) (VList [abc; def]);
       validate (List_ int_) (VList [VInt 123; def]);
       validate (List_ str_) (VList [VInt 123; def]);
       validate int_ VNone;
       validate (TUnion [str_; int_]) (VList []);
       validate (TUnion [str_; int_]) (VList [abc]);
       validate (TGeneric Bdict (Some [str_; int_])) (VDict [(abc, abc)]);
       validate (TGeneric BMapping (Some [str_; int_])) (VDict [(abc, abc)]);
       validate (TGeneric Btuple (Some [int_])) (VInt 123);
       validate (TGeneric Btuple (Some [int_])) (VTuple [VInt 123; VInt 456]);
       validate (TLiteral [LStr "abc"; LStr "def"]) (VStr "ghi");
       validate (TLiteral [LStr "abc"; LStr "def"]) (VInt 123);
       validate (TGeneric Btype None) (VObject A []);
       validate (TGeneric Btype (Some [TClass (User A)])) (VObject A []);
       validate (TClass (User A)) (VType (User A)) ]
     = repeat (Ok false) 17.
Proof. split; vm_compute; reflexivity. Qed.

(** The assertions of [ValidatorTest.test_typeddict_validator]. *)
Example test_typeddict_validator :
  let fields := fun name_hint =>
                  [("name", name_hint); ("version", Bare (TClass Bstr))] in
  let TypedDictExample := TTypedDict "TypedDictExample" false (fields (Bare (TClass Bstr))) in
  let TypedDictReq := TTypedDict "TypedDictReq" false (fields (Required (TClass Bstr))) in
  let TypedDictTotal := TTypedDict "TypedDictTotal" true (fields (Required (TClass Bstr))) in
  let name_abc := (VStr "name", VStr "abc") in
  let extra := (VStr "extra", VInt 123) in
  [ validate TypedDictExample (VDict []);
    validate TypedDictExample (VDict [name_abc]);
    validate TypedDictExample (VDict [name_abc; extra]);
    validate TypedDictReq (VDict [name_abc]);
    validate TypedDictReq (VDict [name_abc; extra]);
    validate TypedDictTotal (VDict [name_abc]) ]
  = repeat (Ok true) 6
  /\ [ validate TypedDictExample (VDict [(VStr "name", VInt 123)]);
       validate TypedDictReq (VDict []);
       validate TypedDictTotal (VDict []) ]
     = repeat (Ok false) 3.
Proof. split; vm_compute; reflexivity. Qed.
